(** * things-mcp: the command URL builder, the response parser, the date
    utilities, the query engine and the tool handlers, embedded in Rocq.

    Conventions of the embedding.
    - A JavaScript string is the byte sequence of its UTF-8 encoding
      ([string], a list of [ascii] bytes), so the strings are the
      well-formed ones; every literal of the sources is plain ASCII but
      for the arrows of one error message.
    - An optional value ([T | undefined], [T | null]) is an [option T]; an
      object used as a record is a record, an object used as a dictionary
      a [gmap string _], and a parameter mapping, whose order shows in the
      URL, the list of its entries.
    - Integral numbers (codes, day numbers, positions, limits) are [Z];
      timestamps are rationals and computed with exactly, the rounding of
      double arithmetic left out.
    - A function that may throw returns a [Js.result]; a function that
      reads the environment or spawns a process is a function of the
      host ([Host.M]): a reader of the world and a state of what was done.
    - A table of the store is the list of its rows; a query is the list
      comprehension its SQL text denotes, with NULL never equal to
      anything. *)

From Stdlib Require Import ZArith NArith QArith Qround Qabs Ascii DecimalString Lia
  Sorted.
From stdpp Require Import gmap strings list.

(** ** JavaScript built-ins used by the sources *)

Module Js.

(** The double quote and the backslash. *)
Definition dquote : ascii := ascii_of_N 34.
Definition backslash : ascii := ascii_of_N 92.

(** A text between double quotes. *)
Definition quoted (s : string) : string :=
  String dquote (String.append s (String dquote EmptyString)).

(** [Array.prototype.push] on a functional list. *)
Definition push {A} (xs : list A) (x : A) : list A := xs ++ [x].

(** [Array.prototype.join]. *)
Fixpoint join (sep : string) (parts : list string) : string :=
  match parts with
  | [] => ""
  | [p] => p
  | p :: rest => p +:+ sep +:+ join sep rest
  end.

(** Truthiness of a string: only the empty string is falsy. *)
Definition truthy (s : string) : bool :=
  match s with
  | EmptyString => false
  | String _ _ => true
  end.

(** Truthiness of [string | undefined]. *)
Definition truthy_opt (s : option string) : bool :=
  match s with
  | None => false
  | Some s => truthy s
  end.

(** No character of the string is [x]. *)
Fixpoint lacks (x : ascii) (s : string) : bool :=
  match s with
  | EmptyString => true
  | String c s' => negb (Ascii.eqb c x) && lacks x s'
  end.

(** [String.prototype.startsWith]. *)
Fixpoint startsWith (pat s : string) : bool :=
  match pat, s with
  | EmptyString, _ => true
  | String a pat', String b s' => Ascii.eqb a b && startsWith pat' s'
  | String _ _, EmptyString => false
  end.

(** [String.prototype.includes]. *)
Fixpoint includes (pat s : string) : bool :=
  startsWith pat s ||
  match s with
  | EmptyString => false
  | String _ s' => includes pat s'
  end.

Fixpoint drop (n : nat) (s : string) : string :=
  match n, s with
  | O, _ => s
  | S n', String _ s' => drop n' s'
  | S _, EmptyString => EmptyString
  end.

(** [String.prototype.replace] with a string pattern and a replacement that
    holds no [$]: the leftmost occurrence of [pat] is replaced, the rest of
    the string is kept. *)
Fixpoint replace (pat rep s : string) : string :=
  if startsWith pat s then rep +:+ drop (String.length pat) s
  else match s with
       | EmptyString => EmptyString
       | String c s' => String c (replace pat rep s')
       end.

(** The characters [encodeURIComponent] leaves alone:
    [A-Z a-z 0-9 - _ . ! ~ * ' ( )]. *)
Definition unreserved (c : ascii) : bool :=
  let n := N_of_ascii c in
  ((65 <=? n) && (n <=? 90) || (97 <=? n) && (n <=? 122) ||
   (48 <=? n) && (n <=? 57) ||
   (n =? 45) || (n =? 95) || (n =? 46) || (n =? 33) || (n =? 126) ||
   (n =? 42) || (n =? 39) || (n =? 40) || (n =? 41))%N.

Definition hexDigit (n : N) : ascii :=
  ascii_of_N (if (n <? 10)%N then 48 + n else 55 + n).

Definition percent (c : ascii) : string :=
  let n := N_of_ascii c in
  String "%" (String (hexDigit (n / 16)) (String (hexDigit (n mod 16)) "")).

(** [encodeURIComponent]: every byte of the UTF-8 encoding that is not an
    unreserved character becomes [%XX] with upper-case hexadecimal digits.
    (The built-in raises on a lone surrogate, which has no UTF-8 encoding
    and hence no representative here.) *)
Fixpoint encodeURIComponent (s : string) : string :=
  match s with
  | EmptyString => EmptyString
  | String c s' =>
      (if unreserved c then String c "" else percent c)
      +:+ encodeURIComponent s'
  end.

(** Exceptions of the JavaScript run time and of the sources. *)
Inductive Exn :=
  | Error (message : string)
  | RangeError (message : string)
  | SyntaxError (message : string)
  | TypeError (message : string).

Definition message (e : Exn) : string :=
  match e with
  | Error m | RangeError m | SyntaxError m | TypeError m => m
  end.

(** A computation that returns or throws. *)
Inductive result (A : Type) :=
  | Ok (a : A)
  | Throw (e : Exn).
Arguments Ok {A} a.
Arguments Throw {A} e.

#[global] Instance result_ret : MRet result := @Ok.
#[global] Instance result_bind : MBind result := fun A B k r =>
  match r with
  | Ok a => k a
  | Throw e => Throw e
  end.

(** [String(n)] and template interpolation of an integral number. *)
Definition Z_toString (z : Z) : string := NilZero.string_of_int (Z.to_int z).

(** [padStart(targetLength, fill)] with a one-character [fill]. *)
Definition padStart (targetLength : nat) (fill : ascii) (s : string) : string :=
  String.string_of_list_ascii (replicate (targetLength - String.length s) fill)
  +:+ s.


Fixpoint take (n : nat) (s : string) : string :=
  match n, s with
  | S n', String c s' => String c (take n' s')
  | _, _ => EmptyString
  end.

(** *** Number::toString

    A number literal denotes a decimal [m * 10^e]; the number is the
    double nearest to it, and its string form the shortest decimal that
    reads back as that double.  Doubles are carried as the rationals they
    are. *)

Definition pow2 (x : Z) : Q := Qpower (inject_Z 2) x.
Definition pow10 (n : Z) : Q := Qpower (inject_Z 10) n.

(** [floor (log2 r)] of a positive rational. *)
Definition log2floor (r : Q) : Z :=
  let l := (Z.log2 (Qnum r) - Z.log2 (Z.pos (Qden r)))%Z in
  if Qle_bool (pow2 l) r then l else (l - 1)%Z.

(** Rounding to the nearest integer, ties to even. *)
Definition roundHalfEven (r : Q) : Z :=
  let f := Qfloor r in
  match Qcompare ((r - inject_Z f) * inject_Z 2)%Q (inject_Z 1) with
  | Lt => f
  | Gt => (f + 1)%Z
  | Eq => if Z.even f then f else (f + 1)%Z
  end.

(** The double nearest to a positive rational; [None] is [Infinity]. *)
Definition toDouble (r : Q) : option Q :=
  let x := Z.max (log2floor r - 52) (-1074) in
  let d := Qred (inject_Z (roundHalfEven (r / pow2 x)%Q) * pow2 x)%Q in
  if Qle_bool (pow2 1024) d then None else Some d.

(** The least [n] with [v < 10^n], for a positive [v]. *)
Definition decimalExponent (v : Q) : Z :=
  let est := (log2floor v * 30103 / 100000)%Z in
  let tries := map (fun i => (est - 1 + Z.of_nat i)%Z) (seq 0 6) in
  default (est + 5)%Z
    (head (List.filter (fun n => negb (Qle_bool (pow10 n) v)) tries)).

(** The [k]-digit decimals next to [v], in units of [10^(n-k)], that read
    back as [v], the closer first. *)
Definition readBack (v : Q) (n : Z) (k : Z) : list Z :=
  let scale := pow10 (n - k) in
  let lo := Qfloor (v / scale)%Q in
  let hi := (lo + 1)%Z in
  let back s := match toDouble (inject_Z s * scale)%Q with
                | Some d => Qeq_bool d v
                | None => false
                end in
  let loFirst :=
    match Qcompare (v / scale - inject_Z lo)%Q (inject_Z hi - v / scale)%Q with
    | Lt => true
    | Gt => false
    | Eq => Z.even lo
    end in
  List.filter back (if loFirst then [lo; hi] else [hi; lo]).

(** The shortest decimal [s * 10^e] that reads back as the positive
    double [v]. *)
Definition shortest (v : Q) : Z * Z :=
  let n := decimalExponent v in
  let found :=
    head (mbind (fun i => let k := Z.of_nat (S i) in
                          map (fun s => (s, k)) (readBack v n k))
            (seq 0 17)) in
  match found with
  | Some (s, k) => (s, n - k)%Z
  | None => (0, 0)%Z
  end.

Fixpoint stripZeros (fuel : nat) (s : Z) (e : Z) : Z * Z :=
  match fuel with
  | O => (s, e)
  | S fuel' =>
      if ((s mod 10 =? 0) && negb (s =? 0))%Z
      then stripZeros fuel' (s / 10)%Z (e + 1)%Z
      else (s, e)
  end.

Definition zeros (n : Z) : string :=
  String.string_of_list_ascii (replicate (Z.to_nat n) "0"%char).

(** [Number::toString] of the double nearest to [m * 10^e]. *)
Definition Number_toString (m e : Z) : string :=
  if (m =? 0)%Z then "0" else
  let sign := if (m <? 0)%Z then "-" else "" in
  match toDouble (inject_Z (Z.abs m) * pow10 e)%Q with
  | None => sign +:+ "Infinity"
  | Some v =>
      if Qeq_bool v 0 then "0" else
      let '(s0, e0) := shortest v in
      let '(s, e1) := stripZeros 20 s0 e0 in
      let digits := Z_toString s in
      let k := Z.of_nat (String.length digits) in
      let n := (e1 + k)%Z in
      sign +:+
      (if ((k <=? n) && (n <=? 21))%Z then digits +:+ zeros (n - k)
       else if ((0 <? n) && (n <=? 21))%Z then
         take (Z.to_nat n) digits +:+ "." +:+ drop (Z.to_nat n) digits
       else if ((-6 <? n) && (n <=? 0))%Z then
         "0." +:+ zeros (- n) +:+ digits
       else
         let exponent :=
           (if (0 <=? n - 1)%Z then "+" else "-")
           +:+ Z_toString (Z.abs (n - 1)) in
         if (k =? 1)%Z then digits +:+ "e" +:+ exponent
         else take 1 digits +:+ "." +:+ drop 1 digits +:+ "e" +:+ exponent)
  end.

(** *** Date *)

(** Truncation toward zero ([ToIntegerOrInfinity]). *)
Definition Qtrunc (q : Q) : Z := Z.quot (Qnum q) (Z.pos (Qden q)).

(** [new Date(ms)]: the time value after [TimeClip], [None] standing for
    the invalid date (NaN).  Numbers are taken as exact rationals; the
    rounding of double arithmetic is not modelled. *)
Definition newDate (ms : Q) : option Z :=
  if Qle_bool (Qabs ms) (inject_Z 8640000000000000) then Some (Qtrunc ms)
  else None.

Definition msPerDay : Z := 86400000.

(** Year, month (1..12) and day of the month of a day number counted from
    1970-01-01 in the proleptic Gregorian calendar. *)
Definition civilFromDays (days : Z) : Z * Z * Z :=
  let z := (days + 719468)%Z in
  let era := (z / 146097)%Z in
  let doe := (z - era * 146097)%Z in
  let yoe := ((doe - doe / 1460 + doe / 36524 - doe / 146096) / 365)%Z in
  let y := (yoe + era * 400)%Z in
  let doy := (doe - (365 * yoe + yoe / 4 - yoe / 100))%Z in
  let mp := ((5 * doy + 2) / 153)%Z in
  let d := (doy - (153 * mp + 2) / 5 + 1)%Z in
  let m := (if mp <? 10 then mp + 3 else mp - 9)%Z in
  ((if m <=? 2 then y + 1 else y)%Z, m, d).

Definition getUTCFullYear (t : Z) : Z := (civilFromDays (t / msPerDay)).1.1.
(** Zero-based, as in JavaScript. *)
Definition getUTCMonth (t : Z) : Z := ((civilFromDays (t / msPerDay)).1.2 - 1)%Z.
Definition getUTCDate (t : Z) : Z := (civilFromDays (t / msPerDay)).2.

Definition pad (n : nat) (z : Z) : string :=
  padStart n "0"%char (Z_toString z).

(** [Date.prototype.toISOString]; a [RangeError] on the invalid date. *)
Definition toISOString (d : option Z) : result string :=
  match d with
  | None => Throw (RangeError "Invalid time value")
  | Some t =>
      let y := getUTCFullYear t in
      let inDay := (t mod msPerDay)%Z in
      let year :=
        if ((0 <=? y) && (y <=? 9999))%Z then pad 4 y
        else (if (y <? 0)%Z then "-" else "+") +:+ pad 6 (Z.abs y) in
      Ok (year +:+ "-" +:+ pad 2 (getUTCMonth t + 1) +:+ "-"
          +:+ pad 2 (getUTCDate t) +:+ "T"
          +:+ pad 2 (inDay / 3600000) +:+ ":"
          +:+ pad 2 (inDay / 60000 mod 60) +:+ ":"
          +:+ pad 2 (inDay / 1000 mod 60) +:+ "."
          +:+ pad 3 (inDay mod 1000) +:+ "Z")
  end.

End Js.

(** ** JSON *)

Module Json.

Import Js.

(** A value [JSON.parse] returns.  A number is kept as the decimal
    [m * 10^e] its literal denotes; an object is the dictionary of its own
    properties. *)
#[warnings="-register-all"]
Inductive value :=
  | JNull
  | JBool (b : bool)
  | JNumber (m e : Z)
  | JString (s : string)
  | JArray (items : list value)
  | JObject (members : gmap string value).

Definition code (c : ascii) : N := N_of_ascii c.

Definition isWhitespace (c : ascii) : bool :=
  let n := code c in ((n =? 32) || (n =? 9) || (n =? 10) || (n =? 13))%N.

Fixpoint skipWhitespace (s : string) : string :=
  match s with
  | String c s' => if isWhitespace c then skipWhitespace s' else s
  | EmptyString => EmptyString
  end.

Definition isDigit (c : ascii) : bool :=
  let n := code c in ((48 <=? n) && (n <=? 57))%N.

Definition digitValue (c : ascii) : Z := Z.of_N (code c - 48).

Definition hexValue (c : ascii) : option N :=
  let n := code c in
  if ((48 <=? n) && (n <=? 57))%N then Some (n - 48)%N
  else if ((65 <=? n) && (n <=? 70))%N then Some (n - 55)%N
  else if ((97 <=? n) && (n <=? 102))%N then Some (n - 87)%N
  else None.

(** Four hexadecimal digits and the rest of the text. *)
Definition hex4 (s : string) : option (N * string) :=
  match s with
  | String a (String b (String c (String d rest))) =>
      match hexValue a, hexValue b, hexValue c, hexValue d with
      | Some x, Some y, Some z, Some w =>
          Some (((x * 16 + y) * 16 + z) * 16 + w, rest)%N
      | _, _, _, _ => None
      end
  | _ => None
  end.

Definition byte (n : N) : string := String (ascii_of_N n) "".

(** The (generalized) UTF-8 bytes of a code point; a lone surrogate keeps
    its three-byte form. *)
Definition utf8 (cp : N) : string :=
  (if cp <? 128 then byte cp
   else if cp <? 2048 then byte (192 + cp / 64) +:+ byte (128 + cp mod 64)
   else if cp <? 65536 then
     byte (224 + cp / 4096) +:+ byte (128 + cp / 64 mod 64)
     +:+ byte (128 + cp mod 64)
   else
     byte (240 + cp / 262144) +:+ byte (128 + cp / 4096 mod 64)
     +:+ byte (128 + cp / 64 mod 64) +:+ byte (128 + cp mod 64))%N.

(** A [\uXXXX] escape, the [\u] already read: one code unit, or a
    surrogate pair written as two escapes. *)
Definition unicodeEscape (s : string) : option (string * string) :=
  match hex4 s with
  | None => None
  | Some (hi, rest) =>
      let single := Some (utf8 hi, rest) in
      if ((55296 <=? hi) && (hi <? 56320))%N then
        match rest with
        | String b (String "u" rest') =>
            match hex4 rest' with
            | Some (lo, rest'') =>
                if Ascii.eqb b backslash
                   && ((56320 <=? lo) && (lo <? 57344))%N
                then Some (utf8 (65536 + (hi - 55296) * 1024 + (lo - 56320))%N, rest'')
                else single
            | None => single
            end
        | _ => single
        end
      else single
  end.

(** The characters of a string literal, the opening quote already read,
    and the text behind the closing quote. *)
Fixpoint stringBody (fuel : nat) (s : string) : option (string * string) :=
  match fuel with
  | O => None
  | S fuel' =>
      match s with
      | EmptyString => None
      | String c rest =>
          if Ascii.eqb c dquote then Some ("", rest)
          else if Ascii.eqb c backslash then
            match rest with
            | EmptyString => None
            | String e rest' =>
                let simple (x : N) :=
                  match stringBody fuel' rest' with
                  | Some (body, tail) => Some (byte x +:+ body, tail)
                  | None => None
                  end in
                if Ascii.eqb e dquote then simple 34%N
                else if Ascii.eqb e backslash then simple 92%N
                else if Ascii.eqb e "/" then simple 47%N
                else if Ascii.eqb e "b" then simple 8%N
                else if Ascii.eqb e "f" then simple 12%N
                else if Ascii.eqb e "n" then simple 10%N
                else if Ascii.eqb e "r" then simple 13%N
                else if Ascii.eqb e "t" then simple 9%N
                else if Ascii.eqb e "u" then
                  match unicodeEscape rest' with
                  | Some (bytes, rest'') =>
                      match stringBody fuel' rest'' with
                      | Some (body, tail) => Some (bytes +:+ body, tail)
                      | None => None
                      end
                  | None => None
                  end
                else None
            end
          else if (code c <? 32)%N then None
          else
            match stringBody fuel' rest with
            | Some (body, tail) => Some (String c body, tail)
            | None => None
            end
      end
  end.

(** A run of digits: their number, their value appended to [acc], and the
    rest of the text. *)
Fixpoint digits (s : string) (acc : Z) (count : Z) : Z * Z * string :=
  match s with
  | String c rest =>
      if isDigit c then digits rest (acc * 10 + digitValue c)%Z (count + 1)%Z
      else (acc, count, s)
  | EmptyString => (acc, count, s)
  end.

(** A number literal: [-? int frac? exp?]. *)
Definition number (s : string) : option (value * string) :=
  let '(negative, s1) :=
    match s with
    | String "-" rest => (true, rest)
    | _ => (false, s)
    end in
  let intPart :=
    match s1 with
    | String "0" rest => Some (0%Z, rest)
    | String c _ =>
        if isDigit c then let '(m, _, rest) := digits s1 0 0 in Some (m, rest)
        else None
    | EmptyString => None
    end in
  match intPart with
  | None => None
  | Some (m, s2) =>
      let fracPart :=
        match s2 with
        | String "." rest =>
            let '(m', count, rest') := digits rest m 0 in
            if (count =? 0)%Z then None else Some (m', count, rest')
        | _ => Some (m, 0%Z, s2)
        end in
      match fracPart with
      | None => None
      | Some (m', fracDigits, s3) =>
          let expPart :=
            match s3 with
            | String c rest =>
                if Ascii.eqb c "e" || Ascii.eqb c "E" then
                  let '(expNegative, rest') :=
                    match rest with
                    | String "-" r => (true, r)
                    | String "+" r => (false, r)
                    | _ => (false, rest)
                    end in
                  let '(x, count, rest'') := digits rest' 0 0 in
                  if (count =? 0)%Z then None
                  else Some (if expNegative then (- x)%Z else x, rest'')
                else Some (0%Z, s3)
            | EmptyString => Some (0%Z, s3)
            end in
          match expPart with
          | None => None
          | Some (x, s4) =>
              Some (JNumber (if negative then (- m')%Z else m') (x - fracDigits), s4)
          end
      end
  end.

(** One JSON value with the white space before it, the elements of an
    array behind its first, and the members of an object.  Every call
    reads a character of its own before or after it calls again (the
    bracket and the commas for the elements, the first character for a
    value), so twice the length of the text is fuel enough. *)
Fixpoint parseValue (fuel : nat) (s : string) : option (value * string) :=
  match fuel with
  | O => None
  | S fuel' =>
      match skipWhitespace s with
      | EmptyString => None
      | String c rest =>
          if Ascii.eqb c "{" then
            match skipWhitespace rest with
            | String "}" rest' => Some (JObject ∅, rest')
            | _ => parseMembers fuel' ∅ rest
            end
          else if Ascii.eqb c "[" then
            match skipWhitespace rest with
            | String "]" rest' => Some (JArray [], rest')
            | _ => parseElements fuel' [] rest
            end
          else if Ascii.eqb c dquote then
            match stringBody (S (String.length rest)) rest with
            | Some (body, rest') => Some (JString body, rest')
            | None => None
            end
          else if Js.startsWith "true" (String c rest) then
            Some (JBool true, Js.drop 4 (String c rest))
          else if Js.startsWith "false" (String c rest) then
            Some (JBool false, Js.drop 5 (String c rest))
          else if Js.startsWith "null" (String c rest) then
            Some (JNull, Js.drop 4 (String c rest))
          else number (String c rest)
      end
  end
with parseElements (fuel : nat) (acc : list value) (s : string)
  : option (value * string) :=
  match fuel with
  | O => None
  | S fuel' =>
      match parseValue fuel' s with
      | None => None
      | Some (v, rest) =>
          match skipWhitespace rest with
          | String "," rest' => parseElements fuel' (acc ++ [v]) rest'
          | String "]" rest' => Some (JArray (acc ++ [v]), rest')
          | _ => None
          end
      end
  end
with parseMembers (fuel : nat) (acc : gmap string value) (s : string)
  : option (value * string) :=
  match fuel with
  | O => None
  | S fuel' =>
      match skipWhitespace s with
      | String c rest =>
          if negb (Ascii.eqb c dquote) then None else
          match stringBody (S (String.length rest)) rest with
          | None => None
          | Some (key, rest') =>
              match skipWhitespace rest' with
              | String ":" rest'' =>
                  match parseValue fuel' rest'' with
                  | None => None
                  | Some (v, rest3) =>
                      match skipWhitespace rest3 with
                      | String "," rest4 => parseMembers fuel' (<[key := v]> acc) rest4
                      | String "}" rest4 => Some (JObject (<[key := v]> acc), rest4)
                      | _ => None
                      end
                  end
              | _ => None
              end
          end
      | EmptyString => None
      end
  end.

(** [JSON.parse]; the text of the [SyntaxError] is not modelled. *)
Definition parse (text : string) : result value :=
  match parseValue (2 * String.length text + 2) text with
  | Some (v, rest) =>
      match skipWhitespace rest with
      | EmptyString => Ok v
      | _ => Throw (SyntaxError "")
      end
  | None => Throw (SyntaxError "")
  end.

(** [String(value)].  An object is turned into a string by its
    [toString]: the inherited one answers [[object Object]], an own
    property of that name, never a function here, leaves no way to a
    primitive and the conversion raises a [TypeError].  An array joins the
    strings of its elements with a comma, null standing for nothing. *)
Fixpoint toString (v : value) : result string :=
  match v with
  | JNull => mret "null"
  | JBool true => mret "true"
  | JBool false => mret "false"
  | JNumber m e => mret (Number_toString m e)
  | JString s => mret s
  | JArray items =>
      parts ← (fix each (items : list value) : result (list string) :=
                 match items with
                 | [] => mret []
                 | JNull :: rest => tail ← each rest; mret ("" :: tail)
                 | item :: rest =>
                     s ← toString item; tail ← each rest; mret (s :: tail)
                 end) items;
      mret (join "," parts)
  | JObject members =>
      match members !! "toString" with
      | Some _ => Throw (TypeError "Cannot convert object to primitive value")
      | None => mret "[object Object]"
      end
  end.

Definition isNull (v : value) : bool :=
  match v with
  | JNull => true
  | _ => false
  end.

End Json.


(** ** String.prototype.trim *)

Module Text.

(** The code points of WhiteSpace and LineTerminator. *)
Definition whitespace : list N :=
  [9; 10; 11; 12; 13; 32; 160; 5760;
   8192; 8193; 8194; 8195; 8196; 8197; 8198; 8199; 8200; 8201; 8202;
   8232; 8233; 8239; 8287; 12288; 65279]%N.

Definition whitespaceBytes : list string := map Json.utf8 whitespace.

Definition reverse (s : string) : string :=
  String.string_of_list_ascii (rev (String.list_ascii_of_string s)).

(** Drops the white space [s] starts with, each character of it being one
    of [spaces]. *)
Fixpoint trimWith (spaces : list string) (fuel : nat) (s : string) : string :=
  match fuel with
  | O => s
  | S fuel' =>
      match List.find (fun w => Js.startsWith w s) spaces with
      | Some w => trimWith spaces fuel' (Js.drop (String.length w) s)
      | None => s
      end
  end.

Definition trimStart (s : string) : string :=
  trimWith whitespaceBytes (String.length s) s.

Definition trimEnd (s : string) : string :=
  reverse (trimWith (map reverse whitespaceBytes) (String.length s) (reverse s)).

Definition trim (s : string) : string := trimEnd (trimStart s).

End Text.

(** ** src/url.ts *)

Module Url.

Inductive ThingsCommand :=
  | Add | AddProject | Update | UpdateProject | Show | Search | Version | Json.

(** The string a [ThingsCommand] stands for. *)
Definition commandName (c : ThingsCommand) : string :=
  match c with
  | Add => "add"
  | AddProject => "add-project"
  | Update => "update"
  | UpdateProject => "update-project"
  | Show => "show"
  | Search => "search"
  | Version => "version"
  | Json => "json"
  end.

(** [type ParamValue = string | boolean | undefined]. *)
Inductive ParamValue :=
  | PString (s : string)
  | PBool (b : bool)
  | PUndefined.

(** A [Record<string, ParamValue>], as the list [Object.entries] yields. *)
Definition Params := list (string * ParamValue).

Definition encode (value : string) : string := Js.encodeURIComponent value.

(** One turn of the [for] loop of [buildUrl]. *)
Definition buildUrl_step (parts : list string) (entry : string * ParamValue)
  : list string :=
  let '(key, value) := entry in
  match value with
  | PUndefined => parts
  | PBool b =>
      Js.push parts (encode key +:+ "=" +:+ (if b then "true" else "false"))
  | PString s => Js.push parts (encode key +:+ "=" +:+ encode s)
  end.

Definition buildUrl (command : ThingsCommand) (params : Params)
    (authToken : option string) : string :=
  let parts : list string := [] in
  let parts :=
    match authToken with
    | Some tok =>
        if Js.truthy tok then Js.push parts ("auth-token=" +:+ encode tok)
        else parts
    | None => parts
    end in
  let parts := fold_left buildUrl_step params parts in
  let query := Js.join "&" parts in
  if Js.truthy query
  then "things:///x-callback-url/" +:+ commandName command +:+ "?" +:+ query
  else "things:///x-callback-url/" +:+ commandName command.


(** [items] arrives serialised: [data] is [JSON.stringify(items)]. *)
Definition buildJsonUrl (data : string) (authToken : option string)
    (reveal : option bool) : string :=
  let parts : list string := [] in
  let parts := Js.push parts ("data=" +:+ Js.encodeURIComponent data) in
  let parts :=
    match authToken with
    | Some tok =>
        if Js.truthy tok then Js.push parts ("auth-token=" +:+ encode tok)
        else parts
    | None => parts
    end in
  let parts :=
    match reveal with
    | Some true => Js.push parts "reveal=true"
    | _ => parts
    end in
  "things:///x-callback-url/json?" +:+ Js.join "&" parts.

Record ExecuteResult := {
  success : bool;
  thingsId : option string;
  callbackParams : option (gmap string string)
}.

(** [Object.fromEntries]. *)
Definition fromEntries (entries : list (string * string)) : gmap string string :=
  fold_left (fun m entry => <[entry.1 := entry.2]> m) entries ∅.

(** The [try] block of [parseXcallOutput]: what it returns, if it returns,
    or what it throws. *)
Definition parseCallback (rawOutput : string)
  : Js.result (option ExecuteResult) :=
  parsed ← Json.parse rawOutput;
  match parsed with
  | Json.JObject members =>
      entries ←
        mapM (fun entry : string * Json.value =>
                text ← Json.toString entry.2; mret (entry.1, text))
          (List.filter (fun entry => negb (Json.isNull entry.2))
             (map_to_list members));
      let callbackParams := fromEntries entries in
      let thingsId :=
        match callbackParams !! "x-things-id" with
        | Some id => Some id
        | None => callbackParams !! "x-things-ids"
        end in
      mret (Some {| success := true;
                    callbackParams := Some callbackParams;
                    thingsId := thingsId |})
  | _ => mret None
  end.

Definition parseXcallOutput (rawOutput : string) : ExecuteResult :=
  if negb (Js.truthy rawOutput) then
    {| success := true; thingsId := None; callbackParams := None |}
  else
    match parseCallback rawOutput with
    | Js.Ok (Some executeResult) => executeResult
    | Js.Ok None | Js.Throw _ =>
        (* xcall can also return a plain string value. *)
        {| success := true; thingsId := Some rawOutput; callbackParams := None |}
    end.

Definition toDirectUrl (url : string) : string :=
  Js.replace "things:///x-callback-url/" "things:///" url.

(** Parse xcall stdout into an ExecuteResult (for testing). *)
Definition _parseXcallOutput (rawOutput : string) : ExecuteResult :=
  parseXcallOutput (Text.trim rawOutput).

End Url.


(** ** src/db.ts: date utilities *)

Module Dates.

(** Core Data reference: 2001-01-01T00:00:00Z in Unix epoch seconds *)
Definition CORE_DATA_EPOCH : Z := 978307200.

(** Convert Core Data timestamp (seconds since 2001-01-01) to ISO string *)
Definition coreDataTimestampToISO (timestamp : Q) : Js.result string :=
  Js.toISOString
    (Js.newDate ((timestamp + inject_Z CORE_DATA_EPOCH) * inject_Z 1000)).

(** Convert Things day integer (days since 2001-01-01) to YYYY-MM-DD.
    On the invalid date every getter yields NaN. *)
Definition dayIntegerToDate (dayInt : Z) : string :=
  let ms := ((dayInt * 86400 + CORE_DATA_EPOCH) * 1000)%Z in
  let d := Js.newDate (inject_Z ms) in
  let year :=
    match d with Some t => Js.Z_toString (Js.getUTCFullYear t) | None => "NaN" end in
  let month :=
    Js.padStart 2 "0"%char
      match d with Some t => Js.Z_toString (Js.getUTCMonth t + 1) | None => "NaN" end in
  let day :=
    Js.padStart 2 "0"%char
      match d with Some t => Js.Z_toString (Js.getUTCDate t) | None => "NaN" end in
  year +:+ "-" +:+ month +:+ "-" +:+ day.

(** Get today as days since 2001-01-01; [now] is [Date.now()], in
    milliseconds. *)
Definition todayAsDayInteger (now : Z) : Z :=
  Qfloor ((inject_Z now / inject_Z 1000 - inject_Z CORE_DATA_EPOCH)
          / inject_Z 86400).

End Dates.

(** ** The SQL used by src/db.ts

    A table is the list of its rows in storage order.  A column the row
    interfaces of db.ts type as [T | null] is an [option]; integer columns
    are [Z]; timestamps (REAL columns) are exact rationals.  A comparison
    with NULL is never true. *)

Module Sql.

(** [x = y] between nullable TEXT values (BINARY collation). *)
Definition eq_text (x y : option string) : bool :=
  match x, y with
  | Some a, Some b => String.eqb a b
  | _, _ => false
  end.

(** [x = n] between a nullable INTEGER value and an integer. *)
Definition eq_int (x : option Z) (n : Z) : bool :=
  match x with
  | Some a => (a =? n)%Z
  | None => false
  end.

(** [COALESCE(x, y)]. *)
Definition coalesce {A} (x y : option A) : option A :=
  match x with
  | Some _ => x
  | None => y
  end.

(** The rows of [right] a row may be paired with by [LEFT JOIN ... ON on]:
    the matching rows, or the all-NULL row ([None]) when there is none. *)
Definition leftJoin {B} (on : B -> bool) (right : list B) : list (option B) :=
  match List.filter on right with
  | [] => [None]
  | bs => map Some bs
  end.

(** [ORDER BY]: a stable sort, [le] being the order of the sort keys (rows
    with equal keys stay in scan order; SQL leaves their order open). *)
Fixpoint insertBy {A} (le : A -> A -> bool) (x : A) (l : list A) : list A :=
  match l with
  | [] => [x]
  | y :: l' => if le x y then x :: l else y :: insertBy le x l'
  end.

Definition orderBy {A} (le : A -> A -> bool) (l : list A) : list A :=
  foldr (insertBy le) [] l.

(** [LIMIT n]: a negative [n] means no limit. *)
Definition limit {A} (n : Z) (l : list A) : list A :=
  if (n <? 0)%Z then l else take (Z.to_nat n) l.

(** ASCII case folding, as [LIKE] does it. *)
Definition upper (c : ascii) : ascii :=
  let n := N_of_ascii c in
  if ((97 <=? n) && (n <=? 122))%N then ascii_of_N (n - 32) else c.

Definition isContinuation (c : ascii) : bool :=
  let n := N_of_ascii c in ((128 <=? n) && (n <? 192))%N.

(** The rest of a string after the continuation bytes of a UTF-8 character. *)
Fixpoint skipContinuation (s : string) : string :=
  match s with
  | String c s' => if isContinuation c then skipContinuation s' else s
  | EmptyString => EmptyString
  end.

(** [s LIKE pattern]: [%] matches any run of characters, [_] one
    character, anything else itself up to ASCII case. *)
Fixpoint like (pattern s : string) : bool :=
  match pattern with
  | EmptyString => match s with EmptyString => true | _ => false end
  | String pc pattern' =>
      if Ascii.eqb pc "%" then
        (fix anywhere (s : string) : bool :=
           like pattern' s ||
           match s with
           | EmptyString => false
           | String _ s' => anywhere s'
           end) s
      else if Ascii.eqb pc "_" then
        match s with
        | EmptyString => false
        | String _ s' => like pattern' (skipContinuation s')
        end
      else
        match s with
        | EmptyString => false
        | String c s' => Ascii.eqb (upper pc) (upper c) && like pattern' s'
        end
  end.

(** [x LIKE pattern] on a nullable value. *)
Definition like_text (x : option string) (pattern : string) : bool :=
  match x with
  | Some s => like pattern s
  | None => false
  end.

(** Order of nullable REAL values, NULL first. *)
Definition le_real (x y : option Q) : bool :=
  match x, y with
  | None, _ => true
  | Some _, None => false
  | Some a, Some b => Qle_bool a b
  end.

End Sql.

(** ** src/db.ts: the store and the read model *)

Module Db.

Import Dates.

(** *** The tables of the Things store that db.ts reads *)

Record TMTask := {
  t_uuid : string;
  t_title : string;
  t_notes : option string;
  t_type : Z;
  t_status : Z;
  t_start : option Z;
  t_startDate : option Z;
  t_deadline : option Z;
  t_todayIndex : Z;
  t_project : option string;
  t_area : option string;
  t_heading : option string;
  t_trashed : Z;
  t_creationDate : Q;
  t_userModificationDate : option Q;
  t_stopDate : option Q;
  t_index : Z
}.

Record TMArea := {
  a_uuid : string;
  a_title : string;
  a_visible : Z;
  a_index : Z
}.

Record TMTag := {
  g_uuid : string;
  g_title : string;
  g_shortcut : option string;
  g_parent : option string
}.

Record TMTaskTag := {
  tt_tasks : string;
  tt_tags : string
}.

Record TMChecklistItem := {
  c_uuid : string;
  c_title : string;
  c_status : Z;
  c_task : string;
  c_index : Z
}.

(** The snapshot [getDb()] returns. *)
Record Database := {
  tasks : list TMTask;
  areas : list TMArea;
  tags : list TMTag;
  taskTags : list TMTaskTag;
  checklistItems : list TMChecklistItem
}.

(** *** Types *)

Inductive Status := Open | Completed | Canceled.
Inductive Start := Inbox | Anytime | Someday.

Record ChecklistItem := {
  ci_uuid : string;
  ci_title : string;
  ci_completed : bool
}.

Record Todo := {
  uuid : string;
  title : string;
  notes : string;
  status : Status;
  start : option Start;
  startDate : option string;
  deadline : option string;
  todayIndex : Z;
  projectId : option string;
  projectTitle : option string;
  areaId : option string;
  areaTitle : option string;
  headingId : option string;
  headingTitle : option string;
  creationDate : string;
  modificationDate : option string;
  completionDate : option string;
  todoTags : list string;
  todoChecklistItems : list ChecklistItem
}.

Record Heading := {
  h_uuid : string;
  h_title : string
}.

Record ProjectDetail := {
  pd_uuid : string;
  pd_title : string;
  pd_notes : string;
  pd_status : Status;
  pd_start : option Start;
  pd_startDate : option string;
  pd_deadline : option string;
  pd_areaId : option string;
  pd_areaTitle : option string;
  pd_creationDate : string;
  pd_modificationDate : option string;
  pd_completionDate : option string;
  pd_tags : list string;
  pd_headings : list Heading;
  pd_todos : list Todo
}.

Record Project := {
  p_uuid : string;
  p_title : string;
  p_notes : string;
  p_status : Status;
  p_start : option Start;
  p_startDate : option string;
  p_deadline : option string;
  p_areaId : option string;
  p_areaTitle : option string;
  p_creationDate : string;
  p_modificationDate : option string;
  p_completionDate : option string;
  p_tags : list string;
  p_openTodoCount : Z;
  p_totalTodoCount : Z
}.

Record Area := {
  area_uuid : string;
  area_title : string;
  area_visible : bool
}.

Record Tag := {
  tag_uuid : string;
  tag_title : string;
  tag_shortcut : option string;
  tag_parentTag : option string
}.

Inductive TodoList :=
  | ListInbox | ListToday | ListAnytime | ListSomeday | ListUpcoming
  | ListLogbook | ListTrash.

Record TodoFilters := {
  f_list : option TodoList;
  f_projectId : option string;
  f_areaId : option string;
  f_tag : option string;
  f_search : option string;
  f_status : option Status;
  f_limit : option Z
}.

Record ProjectFilters := {
  pf_status : option Status;
  pf_areaId : option string;
  pf_search : option string;
  pf_limit : option Z
}.

(** *** Status/Start helpers *)

Definition mapStatus (status : Z) : Status :=
  if (status =? 3)%Z then Completed
  else if (status =? 2)%Z then Canceled
  else Open.

Definition mapStart (start : option Z) : option Start :=
  match start with
  | Some 0%Z => Some Inbox
  | Some 1%Z => Some Anytime
  | Some 2%Z => Some Someday
  | _ => None
  end.

(** *** Internal helpers *)

Record RawTodoRow := {
  r_uuid : string;
  r_title : string;
  r_notes : option string;
  r_status : Z;
  r_start : option Z;
  r_startDate : option Z;
  r_deadline : option Z;
  r_todayIndex : Z;
  r_projectId : option string;
  r_projectTitle : option string;
  r_areaId : option string;
  r_areaTitle : option string;
  r_headingId : option string;
  r_headingTitle : option string;
  r_creationDate : Q;
  r_modificationDate : option Q;
  r_completionDate : option Q
}.

Record RawProjectRow := {
  rp_uuid : string;
  rp_title : string;
  rp_notes : option string;
  rp_status : Z;
  rp_start : option Z;
  rp_startDate : option Z;
  rp_deadline : option Z;
  rp_areaId : option string;
  rp_areaTitle : option string;
  rp_creationDate : Q;
  rp_modificationDate : option Q;
  rp_completionDate : option Q;
  rp_openTodoCount : option Z;
  rp_totalTodoCount : option Z
}.

(** [uuid IN (?, ?, ...)] bound to [uuids]. *)
Definition inUuids (uuids : list string) (x : string) : bool :=
  existsb (String.eqb x) uuids.

(** The loop of the two batch loaders: append to the entry of [key], or
    start it. *)
Definition collect {V} (map : gmap string (list V)) (key : string) (v : V)
  : gmap string (list V) :=
  match map !! key with
  | Some existing => <[key := Js.push existing v]> map
  | None => <[key := [v]]> map
  end.

Definition batchLoadTags (database : Database) (uuids : list string)
  : gmap string (list string) :=
  let map : gmap string (list string) := ∅ in
  if (length uuids =? 0)%nat then map else
  let rows : list (string * string) :=
    Sql.orderBy (fun r1 r2 => String.leb r1.2 r2.2)
      (tt ← taskTags database;
       t ← List.filter (fun t => String.eqb (tt_tags tt) (g_uuid t)) (tags database);
       if inUuids uuids (tt_tasks tt) then [(tt_tasks tt, g_title t)] else []) in
  fold_left (fun map row => collect map row.1 row.2) rows map.

Definition batchLoadChecklists (database : Database) (uuids : list string)
  : gmap string (list ChecklistItem) :=
  let map : gmap string (list ChecklistItem) := ∅ in
  if (length uuids =? 0)%nat then map else
  let rows : list TMChecklistItem :=
    Sql.orderBy (fun r1 r2 => (c_index r1 <=? c_index r2)%Z)
      (List.filter (fun c => inUuids uuids (c_task c)) (checklistItems database)) in
  fold_left
    (fun map row =>
       let item := {| ci_uuid := c_uuid row; ci_title := c_title row;
                      ci_completed := (c_status row =? 3)%Z |} in
       collect map (c_task row) item)
    rows map.

(** [x != null ? f(x) : null] with an [f] that may throw. *)
Definition optM {A B} (f : A -> Js.result B) (x : option A)
  : Js.result (option B) :=
  match x with
  | Some a => b ← f a; mret (Some b)
  | None => mret None
  end.

Definition formatTodo (r : RawTodoRow) (tagsMap : gmap string (list string))
    (checklistMap : gmap string (list ChecklistItem)) : Js.result Todo :=
  creation ← coreDataTimestampToISO (r_creationDate r);
  modification ← optM coreDataTimestampToISO (r_modificationDate r);
  completion ← optM coreDataTimestampToISO (r_completionDate r);
  mret {|
    uuid := r_uuid r;
    title := r_title r;
    notes := default "" (r_notes r);
    status := mapStatus (r_status r);
    start := mapStart (r_start r);
    startDate := dayIntegerToDate <$> r_startDate r;
    deadline := dayIntegerToDate <$> r_deadline r;
    todayIndex := r_todayIndex r;
    projectId := r_projectId r;
    projectTitle := r_projectTitle r;
    areaId := r_areaId r;
    areaTitle := r_areaTitle r;
    headingId := r_headingId r;
    headingTitle := r_headingTitle r;
    creationDate := creation;
    modificationDate := modification;
    completionDate := completion;
    todoTags := default [] (tagsMap !! r_uuid r);
    todoChecklistItems := default [] (checklistMap !! r_uuid r)
  |}.

Definition formatProject (r : RawProjectRow) (tagsMap : gmap string (list string))
  : Js.result Project :=
  creation ← coreDataTimestampToISO (rp_creationDate r);
  modification ← optM coreDataTimestampToISO (rp_modificationDate r);
  completion ← optM coreDataTimestampToISO (rp_completionDate r);
  mret {|
    p_uuid := rp_uuid r;
    p_title := rp_title r;
    p_notes := default "" (rp_notes r);
    p_status := mapStatus (rp_status r);
    p_start := mapStart (rp_start r);
    p_startDate := dayIntegerToDate <$> rp_startDate r;
    p_deadline := dayIntegerToDate <$> rp_deadline r;
    p_areaId := rp_areaId r;
    p_areaTitle := rp_areaTitle r;
    p_creationDate := creation;
    p_modificationDate := modification;
    p_completionDate := completion;
    p_tags := default [] (tagsMap !! rp_uuid r);
    p_openTodoCount := default 0%Z (rp_openTodoCount r);
    p_totalTodoCount := default 0%Z (rp_totalTodoCount r)
  |}.

(** *** Query functions *)

(** A row of [FROM TMTask t LEFT JOIN TMTask p ... LEFT JOIN TMArea a ...
    LEFT JOIN TMTask h ...]. *)
Record Joined := {
  jt : TMTask;
  jp : option TMTask;
  ja : option TMArea;
  jh : option TMTask
}.

(** [FROM TMTask t
     LEFT JOIN TMTask p ON t.project = p.uuid
     LEFT JOIN TMArea a ON COALESCE(t.area, p.area) = a.uuid
     LEFT JOIN TMTask h ON t.heading = h.uuid AND h.type = 2] *)
Definition todoJoin (database : Database) : list Joined :=
  t ← tasks database;
  p ← Sql.leftJoin
        (fun p => Sql.eq_text (t_project t) (Some (t_uuid p)))
        (tasks database);
  a ← Sql.leftJoin
        (fun a => Sql.eq_text (Sql.coalesce (t_area t) (p ≫= t_area))
                    (Some (a_uuid a)))
        (areas database);
  h ← Sql.leftJoin
        (fun h => Sql.eq_text (t_heading t) (Some (t_uuid h))
                  && (t_type h =? 2)%Z)
        (tasks database);
  [ {| jt := t; jp := p; ja := a; jh := h |} ].

(** [SELECT t.uuid, ..., t.project AS projectId, p.title AS projectTitle,
     t.area AS areaId, a.title AS areaTitle, t.heading AS headingId,
     h.title AS headingTitle, ...] *)
Definition selectTodo (j : Joined) : RawTodoRow :=
  let t := jt j in
  {| r_uuid := t_uuid t;
     r_title := t_title t;
     r_notes := t_notes t;
     r_status := t_status t;
     r_start := t_start t;
     r_startDate := t_startDate t;
     r_deadline := t_deadline t;
     r_todayIndex := t_todayIndex t;
     r_projectId := t_project t;
     r_projectTitle := t_title <$> jp j;
     r_areaId := t_area t;
     r_areaTitle := a_title <$> ja j;
     r_headingId := t_heading t;
     r_headingTitle := t_title <$> jh j;
     r_creationDate := t_creationDate t;
     r_modificationDate := t_userModificationDate t;
     r_completionDate := t_stopDate t |}.

(** A conjunct of the WHERE clause, with its bound parameters. *)
Definition Condition := Joined -> bool.

Definition statusMap (s : Status) : Z :=
  match s with
  | Open => 0
  | Completed => 3
  | Canceled => 2
  end.

Definition isList (l : TodoList) (filters : TodoFilters) : bool :=
  match f_list filters, l with
  | Some ListInbox, ListInbox | Some ListToday, ListToday
  | Some ListAnytime, ListAnytime | Some ListSomeday, ListSomeday
  | Some ListUpcoming, ListUpcoming | Some ListLogbook, ListLogbook
  | Some ListTrash, ListTrash => true
  | _, _ => false
  end.

(** The conditions the [switch] on [filters.list] pushes. *)
Definition listConditions (l : TodoList) (todayDays : Z) : list Condition :=
  match l with
  | ListInbox =>
      [ fun j => (t_status (jt j) =? 0)%Z;
        fun j => Sql.eq_int (t_start (jt j)) 0;
        fun j => bool_decide (t_project (jt j) = None) ]
  | ListToday =>
      [ fun j => (t_status (jt j) =? 0)%Z;
        fun j => (0 <? t_todayIndex (jt j))%Z
                 || match t_startDate (jt j) with
                    | Some d => (d <=? todayDays)%Z
                    | None => false
                    end ]
  | ListAnytime =>
      [ fun j => (t_status (jt j) =? 0)%Z;
        fun j => Sql.eq_int (t_start (jt j)) 1;
        fun j => match t_startDate (jt j) with
                 | None => true
                 | Some d => (d <=? todayDays)%Z
                 end ]
  | ListSomeday =>
      [ fun j => (t_status (jt j) =? 0)%Z;
        fun j => Sql.eq_int (t_start (jt j)) 2 ]
  | ListUpcoming =>
      [ fun j => (t_status (jt j) =? 0)%Z;
        fun j => Sql.eq_int (t_start (jt j)) 1;
        fun j => match t_startDate (jt j) with Some _ => true | None => false end;
        fun j => match t_startDate (jt j) with
                 | Some d => (todayDays <? d)%Z
                 | None => false
                 end ]
  | ListLogbook => [ fun j => (t_status (jt j) =? 3)%Z ]
  | ListTrash => [ fun j => (t_trashed (jt j) =? 1)%Z ]
  end.

(** The [conditions] array of [queryTodos] when the query is built. *)
Definition todoConditions (filters : TodoFilters) (now : Z) : list Condition :=
  let conditions : list Condition := [ fun j => (t_type (jt j) =? 0)%Z ] in
  let conditions :=
    if negb (isList ListTrash filters)
    then Js.push conditions (fun j => (t_trashed (jt j) =? 0)%Z)
    else conditions in
  let conditions :=
    match f_list filters with
    | Some l => conditions ++ listConditions l (todayAsDayInteger now)
    | None => conditions
    end in
  let conditions :=
    match f_status filters with
    | Some st => Js.push conditions (fun j => (t_status (jt j) =? statusMap st)%Z)
    | None => conditions
    end in
  let conditions :=
    if Js.truthy_opt (f_projectId filters)
    then Js.push conditions
           (fun j => Sql.eq_text (t_project (jt j)) (f_projectId filters))
    else conditions in
  let conditions :=
    if Js.truthy_opt (f_areaId filters)
    then Js.push conditions
           (fun j => Sql.eq_text (t_area (jt j)) (f_areaId filters)
                     || Sql.eq_text (jp j ≫= t_area) (f_areaId filters))
    else conditions in
  let conditions :=
    match f_search filters with
    | Some text =>
        if Js.truthy text then
          let search := "%" +:+ text +:+ "%" in
          Js.push conditions
            (fun j => Sql.like_text (Some (t_title (jt j))) search
                      || Sql.like_text (t_notes (jt j)) search)
        else conditions
    | None => conditions
    end in
  conditions.

(** [WHERE c1 AND c2 AND ...]. *)
Definition where_ (conditions : list Condition) (j : Joined) : bool :=
  forallb (fun c => c j) conditions.

(** [t.todayIndex ASC, t.creationDate DESC]. *)
Definition byTodayIndex (j1 j2 : Joined) : bool :=
  ((t_todayIndex (jt j1) <? t_todayIndex (jt j2))%Z
   || (t_todayIndex (jt j1) =? t_todayIndex (jt j2))%Z
      && Qle_bool (t_creationDate (jt j2)) (t_creationDate (jt j1))).

(** [t.stopDate DESC]. *)
Definition byStopDate (j1 j2 : Joined) : bool :=
  Sql.le_real (t_stopDate (jt j2)) (t_stopDate (jt j1)).

(** The rows [database.all] returns to [queryTodos]. *)
Definition todoRows (database : Database) (now : Z) (filters : TodoFilters)
  : list RawTodoRow :=
  let conditions := todoConditions filters now in
  let limit := default 50%Z (f_limit filters) in
  let orderBy := if isList ListLogbook filters then byStopDate else byTodayIndex in
  map selectTodo
    (Sql.limit limit
       (Sql.orderBy orderBy (List.filter (where_ conditions) (todoJoin database)))).

Definition queryTodos (database : Database) (now : Z) (filters : TodoFilters)
  : Js.result (list Todo) :=
  let rows := todoRows database now filters in
  let uuids := map r_uuid rows in
  if (length uuids =? 0)%nat then mret [] else
  let tagsMap := batchLoadTags database uuids in
  let checklistMap := batchLoadChecklists database uuids in
  mapM (fun r => formatTodo r tagsMap checklistMap) rows.

(** [database.get]: the first row, if any. *)
Definition get {A} (rows : list A) : option A := head rows.

Definition queryTodoById (database : Database) (uuid : string)
  : Js.result (option Todo) :=
  let row :=
    get (map selectTodo
           (List.filter
              (fun j => String.eqb (t_uuid (jt j)) uuid && (t_type (jt j) =? 0)%Z)
              (todoJoin database))) in
  match row with
  | None => mret None
  | Some row =>
      let tagsMap := batchLoadTags database [uuid] in
      let checklistMap := batchLoadChecklists database [uuid] in
      todo ← formatTodo row tagsMap checklistMap;
      mret (Some todo)
  end.

(** The project row of [queryProjectById]:
    [FROM TMTask t LEFT JOIN TMArea a ON t.area = a.uuid
     WHERE t.uuid = $uuid AND t.type = 1]. *)
Definition projectRows (database : Database) (uuid : string)
  : list RawProjectRow :=
  t ← List.filter
        (fun t => String.eqb (t_uuid t) uuid && (t_type t =? 1)%Z)
        (tasks database);
  a ← Sql.leftJoin (fun a => Sql.eq_text (t_area t) (Some (a_uuid a)))
        (areas database);
  [ {| rp_uuid := t_uuid t;
       rp_title := t_title t;
       rp_notes := t_notes t;
       rp_status := t_status t;
       rp_start := t_start t;
       rp_startDate := t_startDate t;
       rp_deadline := t_deadline t;
       rp_areaId := t_area t;
       rp_areaTitle := a_title <$> a;
       rp_creationDate := t_creationDate t;
       rp_modificationDate := t_userModificationDate t;
       rp_completionDate := t_stopDate t;
       rp_openTodoCount := None;
       rp_totalTodoCount := None |} ].

(** [SELECT uuid, title FROM TMTask WHERE project = $uuid AND type = 2
     AND trashed = 0 ORDER BY "index" ASC]. *)
Definition headingRows (database : Database) (uuid : string) : list Heading :=
  map (fun t => {| h_uuid := t_uuid t; h_title := t_title t |})
    (Sql.orderBy (fun t1 t2 => (t_index t1 <=? t_index t2)%Z)
       (List.filter
          (fun t => Sql.eq_text (t_project t) (Some uuid)
                    && (t_type t =? 2)%Z && (t_trashed t =? 0)%Z)
          (tasks database))).

(** The to-dos of a project:
    [SELECT ..., t.project AS projectId, $uuid AS projectTitle,
            t.area AS areaId, a2.title AS areaTitle, ...
     FROM TMTask t
     LEFT JOIN TMArea a2 ON t.area = a2.uuid
     LEFT JOIN TMTask h ON t.heading = h.uuid AND h.type = 2
     WHERE t.project = $uuid AND t.type = 0 AND t.trashed = 0
     ORDER BY t."index" ASC]. *)
Definition projectTodoRows (database : Database) (uuid : string)
  : list RawTodoRow :=
  map (fun j =>
         let t := jt j in
         {| r_uuid := t_uuid t;
            r_title := t_title t;
            r_notes := t_notes t;
            r_status := t_status t;
            r_start := t_start t;
            r_startDate := t_startDate t;
            r_deadline := t_deadline t;
            r_todayIndex := t_todayIndex t;
            r_projectId := t_project t;
            r_projectTitle := Some uuid;
            r_areaId := t_area t;
            r_areaTitle := a_title <$> ja j;
            r_headingId := t_heading t;
            r_headingTitle := t_title <$> jh j;
            r_creationDate := t_creationDate t;
            r_modificationDate := t_userModificationDate t;
            r_completionDate := t_stopDate t |})
    (Sql.orderBy (fun j1 j2 => (t_index (jt j1) <=? t_index (jt j2))%Z)
       (List.filter
          (fun j => Sql.eq_text (t_project (jt j)) (Some uuid)
                    && (t_type (jt j) =? 0)%Z && (t_trashed (jt j) =? 0)%Z)
          (t ← tasks database;
           a2 ← Sql.leftJoin
                  (fun a => Sql.eq_text (t_area t) (Some (a_uuid a)))
                  (areas database);
           h ← Sql.leftJoin
                 (fun h => Sql.eq_text (t_heading t) (Some (t_uuid h))
                           && (t_type h =? 2)%Z)
                 (tasks database);
           [ {| jt := t; jp := None; ja := a2; jh := h |} ]))).

(** [{ ...todo, headingId }]. *)
Definition withHeadingId (todo : Todo) (headingId : option string) : Todo :=
  {| uuid := uuid todo;
     title := title todo;
     notes := notes todo;
     status := status todo;
     start := start todo;
     startDate := startDate todo;
     deadline := deadline todo;
     todayIndex := todayIndex todo;
     projectId := projectId todo;
     projectTitle := projectTitle todo;
     areaId := areaId todo;
     areaTitle := areaTitle todo;
     headingId := headingId;
     headingTitle := headingTitle todo;
     creationDate := creationDate todo;
     modificationDate := modificationDate todo;
     completionDate := completionDate todo;
     todoTags := todoTags todo;
     todoChecklistItems := todoChecklistItems todo |}.

Definition queryProjectById (database : Database) (uuid : string)
  : Js.result (option ProjectDetail) :=
  match get (projectRows database uuid) with
  | None => mret None
  | Some row =>
      let tagsMap := batchLoadTags database [uuid] in
      let headings := headingRows database uuid in
      let todoRows := projectTodoRows database uuid in
      let todoUuids := map r_uuid todoRows in
      let todoTagsMap :=
        if (0 <? length todoUuids)%nat then batchLoadTags database todoUuids
        else ∅ in
      let checklistMap :=
        if (0 <? length todoUuids)%nat then batchLoadChecklists database todoUuids
        else ∅ in
      todos ← mapM
                (fun r =>
                   todo ← formatTodo r todoTagsMap checklistMap;
                   mret (withHeadingId todo (r_headingId r)))
                todoRows;
      creation ← coreDataTimestampToISO (rp_creationDate row);
      modification ← optM coreDataTimestampToISO (rp_modificationDate row);
      completion ← optM coreDataTimestampToISO (rp_completionDate row);
      mret (Some {|
        pd_uuid := rp_uuid row;
        pd_title := rp_title row;
        pd_notes := default "" (rp_notes row);
        pd_status := mapStatus (rp_status row);
        pd_start := mapStart (rp_start row);
        pd_startDate := dayIntegerToDate <$> rp_startDate row;
        pd_deadline := dayIntegerToDate <$> rp_deadline row;
        pd_areaId := rp_areaId row;
        pd_areaTitle := rp_areaTitle row;
        pd_creationDate := creation;
        pd_modificationDate := modification;
        pd_completionDate := completion;
        pd_tags := default [] (tagsMap !! uuid);
        pd_headings := headings;
        pd_todos := todos
      |})
  end.

(** The correlated count of the rows [c] of TMTask with
    [c.project = t.uuid AND c.type = 0 AND c.trashed = 0], [extra] being
    the rest of the condition. *)
Definition countTodos (database : Database) (uuid : string)
    (extra : TMTask -> bool) : Z :=
  Z.of_nat
    (length
       (List.filter
          (fun c => Sql.eq_text (t_project c) (Some uuid)
                    && (t_type c =? 0)%Z && (t_trashed c =? 0)%Z && extra c)
          (tasks database))).

Definition queryProjects (database : Database) (filters : ProjectFilters)
  : Js.result (list Project) :=
  let conditions : list (TMTask -> bool) :=
    [ fun t => (t_type t =? 1)%Z; fun t => (t_trashed t =? 0)%Z ] in
  let limit := default 50%Z (pf_limit filters) in
  let conditions :=
    match pf_status filters with
    | Some st => Js.push conditions (fun t => (t_status t =? statusMap st)%Z)
    | None => conditions
    end in
  let conditions :=
    if Js.truthy_opt (pf_areaId filters)
    then Js.push conditions (fun t => Sql.eq_text (t_area t) (pf_areaId filters))
    else conditions in
  let conditions :=
    match pf_search filters with
    | Some text =>
        if Js.truthy text then
          let search := "%" +:+ text +:+ "%" in
          Js.push conditions
            (fun t => Sql.like_text (Some (t_title t)) search
                      || Sql.like_text (t_notes t) search)
        else conditions
    | None => conditions
    end in
  let rows : list RawProjectRow :=
    map (fun ta : TMTask * option TMArea =>
           let t := ta.1 in
           {| rp_uuid := t_uuid t;
              rp_title := t_title t;
              rp_notes := t_notes t;
              rp_status := t_status t;
              rp_start := t_start t;
              rp_startDate := t_startDate t;
              rp_deadline := t_deadline t;
              rp_areaId := t_area t;
              rp_areaTitle := a_title <$> ta.2;
              rp_creationDate := t_creationDate t;
              rp_modificationDate := t_userModificationDate t;
              rp_completionDate := t_stopDate t;
              rp_openTodoCount :=
                Some (countTodos database (t_uuid t)
                        (fun c => (t_status c =? 0)%Z));
              rp_totalTodoCount :=
                Some (countTodos database (t_uuid t) (fun _ => true)) |})
      (Sql.limit limit
         (Sql.orderBy
            (fun r1 r2 =>
               byTodayIndex {| jt := r1.1; jp := None; ja := None; jh := None |}
                 {| jt := r2.1; jp := None; ja := None; jh := None |})
            (List.filter (fun ta => forallb (fun c => c ta.1) conditions)
               (t ← tasks database;
                a ← Sql.leftJoin
                      (fun a => Sql.eq_text (t_area t) (Some (a_uuid a)))
                      (areas database);
                [ (t, a) ])))) in
  let uuids := map rp_uuid rows in
  if (length uuids =? 0)%nat then mret [] else
  let tagsMap := batchLoadTags database uuids in
  mapM (fun r => formatProject r tagsMap) rows.

Definition queryAreas (database : Database) : list Area :=
  map (fun r => {| area_uuid := a_uuid r;
                   area_title := a_title r;
                   area_visible := (a_visible r =? 1)%Z |})
    (Sql.orderBy (fun r1 r2 => (a_index r1 <=? a_index r2)%Z) (areas database)).

Definition queryTags (database : Database) : list Tag :=
  map (fun r => {| tag_uuid := g_uuid r;
                   tag_title := g_title r;
                   tag_shortcut := g_shortcut r;
                   tag_parentTag := g_parent r |})
    (Sql.orderBy (fun r1 r2 => String.leb (g_title r1) (g_title r2))
       (tags database)).

End Db.

(** ** The host: environment, store, clock and processes *)

Module Host.

(** How a spawned process ends: with an exit code ([None] when a signal
    ended it), or with an error before that. *)
Inductive Ending :=
  | Close (code : option Z)
  | Failed (err : Js.Exn).

Record Process := {
  stdout : string;
  stderr : string;
  ending : Ending
}.

(** What a tool call finds around it. *)
Record World := {
  THINGS_AUTH_TOKEN : option string;
  getDb : Js.result Db.Database;
  now : Z;
  xcallInstalled : bool;
  run : string -> list string -> Process
}.

(** What a tool call changes: the cache of the xcall probe, and the
    processes spawned so far. *)
Record State := {
  xcallAvailable : option bool;
  spawned : list (string * list string)
}.

(** An asynchronous function of the sources. *)
Definition M (A : Type) : Type := World -> State -> State * Js.result A.

#[global] Instance M_ret : MRet M := fun A a _ st => (st, Js.Ok a).
#[global] Instance M_bind : MBind M := fun A B k m w st =>
  match m w st with
  | (st', Js.Ok a) => k a w st'
  | (st', Js.Throw e) => (st', Js.Throw e)
  end.

Definition throw {A} (e : Js.Exn) : M A := fun _ st => (st, Js.Throw e).
Definition ask : M World := fun w st => (st, Js.Ok w).

(** [spawn(command, args)], awaited to its end. *)
Definition spawn (command : string) (args : list string) : M Process :=
  fun w st =>
    ({| xcallAvailable := xcallAvailable st;
        spawned := spawned st ++ [(command, args)] |},
     Js.Ok (run w command args)).

End Host.

(** ** src/url.ts: execution *)

Module Exec.

Import Host Url.

(** Check if xcall is available on the system (cached). *)
Definition isXcallAvailable : M bool :=
  fun w st =>
    match xcallAvailable st with
    | Some cached => (st, Js.Ok cached)
    | None =>
        ({| xcallAvailable := Some (xcallInstalled w); spawned := spawned st |},
         Js.Ok (xcallInstalled w))
    end.

Definition codeText (code : option Z) : string :=
  match code with
  | Some n => Js.Z_toString n
  | None => "null"
  end.

Definition executeWithXcall (url : string) : M ExecuteResult :=
  proc ← spawn "/Applications/xcall.app/Contents/MacOS/xcall"
           ["-url"; url; "-activateApp"; "NO"];
  match ending proc with
  | Close (Some 0%Z) => mret (parseXcallOutput (Text.trim (stdout proc)))
  | Close code =>
      throw (Js.Error ("xcall failed (code " +:+ codeText code +:+ "): "
                       +:+ Text.trim (stderr proc)))
  | Failed err => throw err
  end.

Definition executeWithOpen (url : string) : M ExecuteResult :=
  proc ← spawn "open" [toDirectUrl url];
  match ending proc with
  | Close (Some 0%Z) =>
      mret {| success := true; thingsId := None; callbackParams := None |}
  | Close code =>
      throw (Js.Error ("open command failed with code " +:+ codeText code))
  | Failed err => throw err
  end.

(** Execute a Things URL scheme URL.
    Tries xcall first, falls back to [open]. *)
Definition executeUrl (url : string) : M ExecuteResult :=
  available ← isXcallAvailable;
  if (available : bool) then executeWithXcall url else executeWithOpen url.

(** The error of [requireAuthToken]. *)
Definition missingAuthToken : Js.Exn :=
  Js.Error
    ("THINGS_AUTH_TOKEN environment variable is required for this operation. "
     +:+ "Get your token from Things → Settings → General → Enable Things URLs → Manage. "
     +:+ "Then add it to your MCP client config as an environment variable.").

(** Get the Things auth token from the environment.
    Throws a descriptive error if not set. *)
Definition requireAuthToken : M string :=
  w ← ask;
  match THINGS_AUTH_TOKEN w with
  | Some (String c token) => mret (String c token)
  | Some EmptyString | None => throw missingAuthToken
  end.

(** Get the Things auth token if available, undefined otherwise. *)
Definition getAuthToken : M (option string) :=
  w ← ask; mret (THINGS_AUTH_TOKEN w).

End Exec.

(** ** src/tools.ts and the read tools *)

Module Tools.

Import Host Url Exec.

(** What a tool answers. *)
Record ToolResult := {
  content : list string;
  isError : bool
}.

Definition text (t : string) : ToolResult :=
  {| content := [t]; isError := false |}.

Definition errorText (t : string) : ToolResult :=
  {| content := [t]; isError := true |}.

(** An optional string, boolean or joined list as a parameter value. *)
Definition str (x : option string) : ParamValue :=
  match x with
  | Some s => PString s
  | None => PUndefined
  end.

Definition flag (x : option bool) : ParamValue :=
  match x with
  | Some b => PBool b
  | None => PUndefined
  end.

Definition joined (sep : string) (x : option (list string)) : ParamValue :=
  match x with
  | Some items => PString (Js.join sep items)
  | None => PUndefined
  end.

Definition newline : string := String (ascii_of_N 10) "".

(** [result.thingsId ? ` (<label>: ${result.thingsId})` : ""]. *)
Definition idInfo (label : string) (result : ExecuteResult) : string :=
  match thingsId result with
  | Some (String c id) =>
      " (" +:+ label +:+ ": " +:+ String c id +:+ ")"
  | Some EmptyString | None => ""
  end.

Module AddTodo.

Record Params := {
  title : option string;
  titles : option string;
  notes : option string;
  when : option string;
  deadline : option string;
  tags : option (list string);
  checklistItems : option (list string);
  list : option string;
  listId : option string;
  heading : option string;
  headingId : option string;
  completed : option bool;
  canceled : option bool;
  reveal : option bool;
  showQuickEntry : option bool;
  useClipboard : option bool;
  creationDate : option string;
  completionDate : option string
}.

Definition urlParams (params : Params) : Url.Params :=
  [ ("title", str (title params));
    ("titles", str (titles params));
    ("notes", str (notes params));
    ("when", str (when params));
    ("deadline", str (deadline params));
    ("tags", joined "," (tags params));
    ("checklist-items", joined newline (checklistItems params));
    ("list", str (list params));
    ("list-id", str (listId params));
    ("heading", str (heading params));
    ("heading-id", str (headingId params));
    ("completed", flag (completed params));
    ("canceled", flag (canceled params));
    ("reveal", flag (reveal params));
    ("show-quick-entry", flag (showQuickEntry params));
    ("use-clipboard", flag (useClipboard params));
    ("creation-date", str (creationDate params));
    ("completion-date", str (completionDate params)) ].

Definition label (params : Params) : string :=
  if Js.truthy_opt (titles params) then "to-dos"
  else match title params with
       | Some (String c t) => "to-do " +:+ Js.quoted (String c t)
       | _ =>
           match useClipboard params with
           | Some true => "to-do from clipboard"
           | _ =>
               match showQuickEntry params with
               | Some true => "to-do via Quick Entry"
               | _ => "to-do"
               end
           end
       end.

Definition handler (params : Params) : M ToolResult :=
  let url := buildUrl Add (urlParams params) None in
  result ← executeUrl url;
  mret (text ("Created " +:+ label params +:+ idInfo "ID" result)).

End AddTodo.

Module AddProject.

Record Params := {
  title : string;
  notes : option string;
  when : option string;
  deadline : option string;
  tags : option (list string);
  area : option string;
  areaId : option string;
  todos : option (list string);
  completed : option bool;
  canceled : option bool;
  reveal : option bool;
  creationDate : option string;
  completionDate : option string
}.

Definition urlParams (params : Params) : Url.Params :=
  [ ("title", PString (title params));
    ("notes", str (notes params));
    ("when", str (when params));
    ("deadline", str (deadline params));
    ("tags", joined "," (tags params));
    ("area", str (area params));
    ("area-id", str (areaId params));
    ("to-dos", joined newline (todos params));
    ("completed", flag (completed params));
    ("canceled", flag (canceled params));
    ("reveal", flag (reveal params));
    ("creation-date", str (creationDate params));
    ("completion-date", str (completionDate params)) ].

Definition handler (params : Params) : M ToolResult :=
  let url := buildUrl AddProject (urlParams params) None in
  result ← executeUrl url;
  mret (text ("Created project " +:+ Js.quoted (title params)
              +:+ idInfo "ID" result)).

End AddProject.

Module UpdateTodo.

Record Params := {
  id : string;
  title : option string;
  notes : option string;
  prependNotes : option string;
  appendNotes : option string;
  when : option string;
  deadline : option string;
  tags : option (list string);
  addTags : option (list string);
  checklistItems : option (list string);
  prependChecklistItems : option (list string);
  appendChecklistItems : option (list string);
  list : option string;
  listId : option string;
  heading : option string;
  headingId : option string;
  completed : option bool;
  canceled : option bool;
  reveal : option bool;
  duplicate : option bool;
  creationDate : option string;
  completionDate : option string
}.

Definition urlParams (params : Params) : Url.Params :=
  [ ("id", PString (id params));
    ("title", str (title params));
    ("notes", str (notes params));
    ("prepend-notes", str (prependNotes params));
    ("append-notes", str (appendNotes params));
    ("when", str (when params));
    ("deadline", str (deadline params));
    ("tags", joined "," (tags params));
    ("add-tags", joined "," (addTags params));
    ("checklist-items", joined newline (checklistItems params));
    ("prepend-checklist-items", joined newline (prependChecklistItems params));
    ("append-checklist-items", joined newline (appendChecklistItems params));
    ("list", str (list params));
    ("list-id", str (listId params));
    ("heading", str (heading params));
    ("heading-id", str (headingId params));
    ("completed", flag (completed params));
    ("canceled", flag (canceled params));
    ("reveal", flag (reveal params));
    ("duplicate", flag (duplicate params));
    ("creation-date", str (creationDate params));
    ("completion-date", str (completionDate params)) ].

Definition handler (params : Params) : M ToolResult :=
  authToken ← requireAuthToken;
  let url := buildUrl Update (urlParams params) (Some authToken) in
  result ← executeUrl url;
  mret (text ("Updated to-do " +:+ id params +:+ idInfo "ID" result)).

End UpdateTodo.

Module UpdateProject.

Record Params := {
  id : string;
  title : option string;
  notes : option string;
  prependNotes : option string;
  appendNotes : option string;
  when : option string;
  deadline : option string;
  tags : option (list string);
  addTags : option (list string);
  area : option string;
  areaId : option string;
  completed : option bool;
  canceled : option bool;
  reveal : option bool;
  duplicate : option bool;
  creationDate : option string;
  completionDate : option string
}.

Definition urlParams (params : Params) : Url.Params :=
  [ ("id", PString (id params));
    ("title", str (title params));
    ("notes", str (notes params));
    ("prepend-notes", str (prependNotes params));
    ("append-notes", str (appendNotes params));
    ("when", str (when params));
    ("deadline", str (deadline params));
    ("tags", joined "," (tags params));
    ("add-tags", joined "," (addTags params));
    ("area", str (area params));
    ("area-id", str (areaId params));
    ("completed", flag (completed params));
    ("canceled", flag (canceled params));
    ("reveal", flag (reveal params));
    ("duplicate", flag (duplicate params));
    ("creation-date", str (creationDate params));
    ("completion-date", str (completionDate params)) ].

Definition handler (params : Params) : M ToolResult :=
  authToken ← requireAuthToken;
  let url := buildUrl UpdateProject (urlParams params) (Some authToken) in
  result ← executeUrl url;
  mret (text ("Updated project " +:+ id params +:+ idInfo "ID" result)).

End UpdateProject.

Module ShowTool.

Record Params := {
  id : option string;
  query : option string;
  filter : option string
}.

Definition handler (params : Params) : M ToolResult :=
  if negb (Js.truthy_opt (id params)) && negb (Js.truthy_opt (query params))
  then mret (errorText "Either 'id' or 'query' is required for show.")
  else
    let urlParams : Url.Params :=
      [ ("id", str (id params));
        ("query", str (query params));
        ("filter", str (filter params)) ] in
    let url := buildUrl Show urlParams None in
    _ ← executeUrl url;
    let target :=
      match id params with
      | Some target => target
      | None => default "Things" (query params)
      end in
    mret (text ("Navigated to " +:+ target)).

End ShowTool.

Module SearchTool.

Record Params := {
  query : option string
}.

Definition handler (params : Params) : M ToolResult :=
  let urlParams : Url.Params := [ ("query", str (query params)) ] in
  let url := buildUrl Search urlParams None in
  _ ← executeUrl url;
  mret (text (match query params with
              | Some (String c q) =>
                  "Opened search for " +:+ Js.quoted (String c q)
              | _ => "Opened Things search"
              end)).

End SearchTool.

Module AddJson.

(** An item is a record of free-form values. *)
Record Params := {
  items : list (gmap string Json.value);
  reveal : option bool
}.

(** [JSON.stringify(items)] is left to the caller of the model: the order
    of the keys, which a dictionary does not keep, shows in it. *)
Definition handler (stringify : list (gmap string Json.value) -> string)
    (params : Params) : M ToolResult :=
  (* Auto-detect if any items are update operations *)
  let hasUpdates :=
    existsb
      (fun item =>
         match item !! "operation" with
         | Some (Json.JString operation) => String.eqb operation "update"
         | _ => false
         end)
      (items params) in
  authToken ←
    (if hasUpdates then token ← requireAuthToken; mret (Some token)
     else getAuthToken);
  let url := buildJsonUrl (stringify (items params)) authToken (reveal params) in
  result ← executeUrl url;
  let count := length (items params) in
  mret (text ("Processed " +:+ Js.Z_toString (Z.of_nat count) +:+ " item"
              +:+ (if (count =? 1)%nat then "" else "s")
              +:+ idInfo "IDs" result)).

End AddJson.

(** *** The read tools

    A read tool answers with [JSON.stringify(value, null, 2)] of the value
    it read; the model keeps the value. *)

Inductive ReadResult (A : Type) :=
  | Serialized (value : A)
  | ReadError (message : string).
Arguments Serialized {A} value.
Arguments ReadError {A} message.

Definition readTool {A} (failure : string) (query : Db.Database -> Z -> Js.result A)
  : M (ReadResult A) :=
  fun w st =>
    (st,
     Js.Ok match (database ← getDb w; query database (now w)) with
           | Js.Ok value => Serialized value
           | Js.Throw err => ReadError (failure +:+ Js.message err)
           end).

Definition getTodos (filters : Db.TodoFilters) : M (ReadResult (list Db.Todo)) :=
  readTool "Failed to query todos: "
    (fun database now => Db.queryTodos database now filters).

Definition getTodo (id : string) : M (ReadResult Db.Todo) :=
  found ← readTool "Failed to query todo: "
            (fun database _ => Db.queryTodoById database id);
  mret match found with
       | Serialized (Some todo) => Serialized todo
       | Serialized None => ReadError ("No to-do found with ID: " +:+ id)
       | ReadError message => ReadError message
       end.

Definition getProject (id : string) : M (ReadResult Db.ProjectDetail) :=
  found ← readTool "Failed to query project: "
            (fun database _ => Db.queryProjectById database id);
  mret match found with
       | Serialized (Some project) => Serialized project
       | Serialized None => ReadError ("No project found with ID: " +:+ id)
       | ReadError message => ReadError message
       end.

Definition getProjects (filters : Db.ProjectFilters)
  : M (ReadResult (list Db.Project)) :=
  readTool "Failed to query projects: "
    (fun database _ => Db.queryProjects database filters).

Definition getAreas : M (ReadResult (list Db.Area)) :=
  readTool "Failed to query areas: "
    (fun database _ => mret (Db.queryAreas database)).

Definition getTags : M (ReadResult (list Db.Tag)) :=
  readTool "Failed to query tags: "
    (fun database _ => mret (Db.queryTags database)).

End Tools.

(** ** What the specification says of the queries *)

Module DbSpec.

Import Db.

(** The filter set [{ list, limit }]. *)
Definition listOnly (list : TodoList) (limit : option Z) : TodoFilters :=
  {| f_list := Some list; f_projectId := None; f_areaId := None;
     f_tag := None; f_search := None; f_status := None; f_limit := limit |}.

(** A filter set with its tag field set, or removed. *)
Definition withTag (tag : option string) (filters : TodoFilters) : TodoFilters :=
  {| f_list := f_list filters; f_projectId := f_projectId filters;
     f_areaId := f_areaId filters; f_tag := tag;
     f_search := f_search filters; f_status := f_status filters;
     f_limit := f_limit filters |}.



(** How many rows [LIMIT limit] lets through, of [n]. *)
Definition limited (limit : Z) (n : nat) : nat :=
  if (limit <? 0)%Z then n else Nat.min (Z.to_nat limit) n.

(** [uuid] is the primary key of the task and of the area table. *)
Definition keyed (database : Database) : Prop :=
  NoDup (map t_uuid (tasks database)) /\ NoDup (map a_uuid (areas database)).

(** A timestamp [toISOString] can render. *)
Definition renders (timestamp : Q) : Prop :=
  exists iso, Dates.coreDataTimestampToISO timestamp = Js.Ok iso.


End DbSpec.

(** ** Sample stores *)

Module Samples.

Import Db.

Definition task (uuid title : string) (type : Z) (todayIndex : Z)
    (startDate : option Z) (project area heading : option string) : TMTask :=
  {| t_uuid := uuid; t_title := title; t_notes := None; t_type := type;
     t_status := 0; t_start := Some 1%Z; t_startDate := startDate;
     t_deadline := None; t_todayIndex := todayIndex; t_project := project;
     t_area := area; t_heading := heading; t_trashed := 0;
     t_creationDate := inject_Z 700000300; t_userModificationDate := None;
     t_stopDate := None; t_index := 0 |}.

(** The area "Work", the project "Work Project" in it, and the to-do
    "Review PR" of that project, which has no area of its own. *)
Definition office : Database :=
  {| tasks :=
       [ task "proj-2" "Work Project" 1 0 None None (Some "area-work") None;
         task "heading-1" "Phase 1" 2 0 None (Some "proj-2") None None;
         task "todo-today-1" "Review PR" 0 1 None (Some "proj-2") None
           (Some "heading-1") ];
     areas := [ {| a_uuid := "area-work"; a_title := "Work";
                   a_visible := 1; a_index := 0 |} ];
     tags := [ {| g_uuid := "tag-urgent"; g_title := "urgent";
                  g_shortcut := Some "u"; g_parent := None |} ];
     taskTags := [ {| tt_tasks := "todo-today-1"; tt_tags := "tag-urgent" |} ];
     checklistItems := [] |}.

(** Fifty-one open to-dos placed in today's list. *)
Definition crowded : Database :=
  {| tasks :=
       map (fun i => task (Js.Z_toString (Z.of_nat i)) "to-do" 0 1 None
                       None None None)
         (seq 0 51);
     areas := []; tags := []; taskTags := []; checklistItems := [] |}.

(** 2026-11-03T00:00:00Z, in milliseconds since the Unix epoch. *)
Definition morning : Z := 1793664000000.

(** A JSON object of one member whose value is the given JSON text. *)
Definition member (key value : string) : string :=
  "{" +:+ Js.quoted key +:+ ":" +:+ value +:+ "}".

(** A host without credential and without xcall, where every process
    ends well and silently. *)
Definition bare : Host.World :=
  {| Host.THINGS_AUTH_TOKEN := None;
     Host.getDb := Js.Ok office;
     Host.now := morning;
     Host.xcallInstalled := false;
     Host.run := fun _ _ =>
       {| Host.stdout := ""; Host.stderr := "";
          Host.ending := Host.Close (Some 0%Z) |} |}.

(** Before the first tool call. *)
Definition fresh : Host.State :=
  {| Host.xcallAvailable := None; Host.spawned := [] |}.

Definition renameTodo : Tools.UpdateTodo.Params :=
  {| Tools.UpdateTodo.id := "abc"; Tools.UpdateTodo.title := Some "Updated";
     Tools.UpdateTodo.notes := None; Tools.UpdateTodo.prependNotes := None;
     Tools.UpdateTodo.appendNotes := None; Tools.UpdateTodo.when := None;
     Tools.UpdateTodo.deadline := None; Tools.UpdateTodo.tags := None;
     Tools.UpdateTodo.addTags := None; Tools.UpdateTodo.checklistItems := None;
     Tools.UpdateTodo.prependChecklistItems := None;
     Tools.UpdateTodo.appendChecklistItems := None;
     Tools.UpdateTodo.list := None; Tools.UpdateTodo.listId := None;
     Tools.UpdateTodo.heading := None; Tools.UpdateTodo.headingId := None;
     Tools.UpdateTodo.completed := None; Tools.UpdateTodo.canceled := None;
     Tools.UpdateTodo.reveal := None; Tools.UpdateTodo.duplicate := None;
     Tools.UpdateTodo.creationDate := None;
     Tools.UpdateTodo.completionDate := None |}.

End Samples.

(** ** What the specification says of the host *)

Module HostSpec.

Import Host.

(** The same host with another value of the credential variable. *)
Definition withToken (token : option string) (w : World) : World :=
  {| THINGS_AUTH_TOKEN := token;
     getDb := getDb w;
     now := now w;
     xcallInstalled := xcallInstalled w;
     run := run w |}.

(** The answer of the parser when the output is taken as the identifier. *)
Definition rawIdentifier (rawOutput : string) : Url.ExecuteResult :=
  {| Url.success := true;
     Url.thingsId := Some rawOutput;
     Url.callbackParams := None |}.

(** Every member that is not null can be turned into a string. *)
Definition coercible (members : gmap string Json.value) : Prop :=
  forall key value,
    members !! key = Some value -> Json.isNull value = false ->
    exists text, Json.toString value = Js.Ok text.

(** [fields] holds the string form of every member that is not null, and
    nothing else. *)
Definition coerced (members : gmap string Json.value)
    (fields : gmap string string) : Prop :=
  forall key text,
    fields !! key = Some text
    <-> exists value, members !! key = Some value
                      /\ Json.isNull value = false
                      /\ Json.toString value = Js.Ok text.

End HostSpec.

(** ** What the specification says of the command URL *)

Module UrlSpec.

Import Url.

(** The text a mapping entry contributes to the query: nothing when the
    value is undefined, [key=true] or [key=false] for a boolean, and
    [key=value], both percent-encoded, for a string (the empty string
    included). *)
Definition emitted (entry : string * ParamValue) : option string :=
  match entry.2 with
  | PUndefined => None
  | PBool true => Some (encode entry.1 +:+ "=true")
  | PBool false => Some (encode entry.1 +:+ "=false")
  | PString v => Some (encode entry.1 +:+ "=" +:+ encode v)
  end.

(** The callback form of a command with the given query items: no [?]
    when there is no item. *)
Definition commandUrl (command : ThingsCommand) (items : list string) : string :=
  match items with
  | [] => "things:///x-callback-url/" +:+ commandName command
  | _ :: _ =>
      "things:///x-callback-url/" +:+ commandName command +:+ "?"
      +:+ Js.join "&" items
  end.

(** Every item behind an [&]. *)
Fixpoint trailing (items : list string) : string :=
  match items with
  | [] => ""
  | item :: rest => "&" +:+ item +:+ trailing rest
  end.

(** The direct form of the same. *)
Definition directUrl (command : ThingsCommand) (items : list string) : string :=
  match items with
  | [] => "things:///" +:+ commandName command
  | _ :: _ =>
      "things:///" +:+ commandName command +:+ "?" +:+ Js.join "&" items
  end.

End UrlSpec.

(** ** src/sqlite-adapter.ts *)

Module SqliteAdapter.

(** [Record<string, unknown> | unknown[]]: the values of an array, or the
    entries of an object as [Object.entries] yields them. *)
Inductive Params (V : Type) :=
  | Positional (values : list V)
  | Named (entries : list (string * V)).
Arguments Positional {V} values.
Arguments Named {V} entries.

(** [BindParams]: an array, or an object of named bindings. *)
Inductive BindParams (V : Type) :=
  | BindArray (values : list V)
  | BindObject (normalized : gmap string V).
Arguments BindArray {V} values.
Arguments BindObject {V} normalized.

(** Normalize params: prefix object keys with $ for sql.js named bindings,
    pass arrays through *)
Definition normalizeParams {V} (params : Params V) : BindParams V :=
  match params with
  | Positional values => BindArray values
  | Named entries =>
      let normalized : gmap string V := ∅ in
      BindObject
        (fold_left
           (fun normalized '(key, value) =>
              <[(if Js.startsWith "$" key then key else "$" +:+ key) := value]>
                normalized)
           entries normalized)
  end.

End SqliteAdapter.

Module AdapterSpec.

(** The name a key is bound under. *)
Definition binding (key : string) : string :=
  if Js.startsWith "$" key then key else "$" +:+ key.

(** The map [normalizeParams] builds from the entries of an object. *)
Definition normalizedBy {V} (entries : list (string * V)) : gmap string V :=
  fold_left (fun normalized '(key, value) => <[binding key := value]> normalized)
    entries ∅.

End AdapterSpec.

(** ** src/tools.ts: get-version *)

Module GetVersion.

Import Host Url Exec Tools.

(** [try { body } catch (err) { handler }] around an asynchronous body. *)
Definition catch {A} (body : M A) (handler : Js.Exn -> M A) : M A :=
  fun w st =>
    match body w st with
    | (st', Js.Ok a) => (st', Js.Ok a)
    | (st', Js.Throw err) => handler err w st'
    end.

Definition getAppVersion : M string :=
  proc ← spawn "osascript"
           ["-e"; "tell application " +:+ Js.quoted "Things3" +:+ " to return version"];
  match ending proc with
  | Close (Some 0%Z) => mret (Text.trim (stdout proc))
  | Close _ => throw (Js.Error ("osascript failed: " +:+ Text.trim (stderr proc)))
  | Failed err => throw err
  end.

Definition handler : M ToolResult :=
  catch
    (result ← executeUrl (buildUrl Version [] None);
     let schemeVersion :=
       callbackParams result ≫= (fun fields => fields !! "x-things-scheme-version") in
     let clientVersion :=
       callbackParams result ≫= (fun fields => fields !! "x-things-client-version") in
     if Js.truthy_opt schemeVersion || Js.truthy_opt clientVersion then
       let parts : list string := [] in
       let parts :=
         if Js.truthy_opt schemeVersion
         then Js.push parts ("scheme " +:+ default "" schemeVersion) else parts in
       let parts :=
         if Js.truthy_opt clientVersion
         then Js.push parts ("client " +:+ default "" clientVersion) else parts in
       mret (text ("Things version info: " +:+ Js.join ", " parts))
     else
       appVersion ← getAppVersion;
       mret (text ("Things app version: " +:+ appVersion +:+ ". "
                   +:+ "Install xcall to also return URL scheme/client version fields.")))
    (fun err => mret (errorText ("Failed to get version: " +:+ Js.message err))).

End GetVersion.

Module ExecSpec.

Import Host Url.

(** The xcall probe as [executeUrl] will see it: the cached answer, or
    the answer of the file system. *)
Definition probe (w : World) (st : State) : bool :=
  default (xcallInstalled w) (xcallAvailable st).

(** The process [executeUrl] launches for a URL. *)
Definition launch (available : bool) (url : string) : string * list string :=
  if available
  then ("/Applications/xcall.app/Contents/MacOS/xcall",
        ["-url"; url; "-activateApp"; "NO"])
  else ("open", [toDirectUrl url]).

(** The AppleScript call of [getAppVersion]. *)
Definition osascript : string * list string :=
  ("osascript",
   ["-e"; "tell application " +:+ Js.quoted "Things3" +:+ " to return version"]).

End ExecSpec.

(** ** decodeURIComponent, with which the tests of url.ts read a URL back *)

Module Uri.

Definition between (lo hi n : N) : bool := ((lo <=? n) && (n <=? hi))%N.

(** Whether the octets are the UTF-8 encoding of one Unicode code point:
    no overlong form, no surrogate, nothing above U+10FFFF. *)
Definition validSequence (octets : list N) : bool :=
  match octets with
  | [a] => (a <? 128)%N
  | [a; b] => between 194 223 a && between 128 191 b
  | [a; b; c] =>
      ((a =? 224)%N && between 160 191 b
       || between 225 236 a && between 128 191 b
       || (a =? 237)%N && between 128 159 b
       || between 238 239 a && between 128 191 b)
      && between 128 191 c
  | [a; b; c; d] =>
      ((a =? 240)%N && between 144 191 b
       || between 241 243 a && between 128 191 b
       || (a =? 244)%N && between 128 143 b)
      && between 128 191 c && between 128 191 d
  | _ => false
  end.

(** The strings of the embedding: sequences of encoded code points. *)
Fixpoint wellFormed (s : string) : bool :=
  match s with
  | EmptyString => true
  | String a rest =>
      let a := N_of_ascii a in
      if validSequence [a] then wellFormed rest else
      match rest with
      | String b rest =>
          let b := N_of_ascii b in
          if validSequence [a; b] then wellFormed rest else
          match rest with
          | String c rest =>
              let c := N_of_ascii c in
              if validSequence [a; b; c] then wellFormed rest else
              match rest with
              | String d rest =>
                  validSequence [a; b; c; N_of_ascii d] && wellFormed rest
              | EmptyString => false
              end
          | EmptyString => false
          end
      | EmptyString => false
      end
  end.

(** [ParseHexOctet]: two hexadecimal digits, and the rest of the text. *)
Definition hexOctet (s : string) : option (N * string) :=
  match s with
  | String a (String b rest) =>
      match Json.hexValue a, Json.hexValue b with
      | Some x, Some y => Some (x * 16 + y, rest)%N
      | _, _ => None
      end
  | _ => None
  end.

(** The number of leading 1 bits of an octet. *)
Definition leadingOnes (octet : N) : nat :=
  if (octet <? 128)%N then 0
  else if (octet <? 192)%N then 1
  else if (octet <? 224)%N then 2
  else if (octet <? 240)%N then 3
  else if (octet <? 248)%N then 4
  else 5.

(** [n] escapes [%XX] in a row: their octets, and the rest of the text. *)
Fixpoint escapes (n : nat) (s : string) : option (list N * string) :=
  match n with
  | O => Some ([], s)
  | S n' =>
      match s with
      | String "%" rest =>
          '(octet, rest) ← hexOctet rest;
          '(octets, rest) ← escapes n' rest;
          Some (octet :: octets, rest)
      | _ => None
      end
  end.

Definition octetString (octets : list N) : string :=
  String.string_of_list_ascii (map ascii_of_N octets).

(** [Decode] with an empty set of preserved escapes; [None] is the
    [URIError].  A character other than [%] is copied; an escape below
    128 gives its character; an escape that starts a sequence of [n]
    octets must be followed by the other [n - 1] as escapes, and the
    octets must encode a code point. *)
Fixpoint decode (fuel : nat) (s : string) : option string :=
  match fuel with
  | O => None
  | S fuel' =>
      match s with
      | EmptyString => Some EmptyString
      | String c rest =>
          if negb (Ascii.eqb c "%") then String c <$> decode fuel' rest
          else
            '(octet, rest) ← hexOctet rest;
            let n := leadingOnes octet in
            if (n =? 0)%nat then
              String (ascii_of_N octet) <$> decode fuel' rest
            else if (n =? 1)%nat || (4 <? n)%nat then None
            else
              '(more, rest) ← escapes (n - 1) rest;
              if validSequence (octet :: more)
              then String.append (octetString (octet :: more)) <$> decode fuel' rest
              else None
      end
  end.

(** Every turn of the loop reads a character: the length of the text and
    one is fuel enough. *)
Definition decodeURIComponent (s : string) : option string :=
  decode (S (String.length s)) s.

End Uri.

Module UriSpec.

(** The occurrences of a character in a string. *)
Fixpoint count (x : ascii) (s : string) : nat :=
  match s with
  | EmptyString => 0
  | String c s' => (if Ascii.eqb c x then 1 else 0) + count x s'
  end.

(** Every character satisfies [p]. *)
Fixpoint all (p : ascii -> bool) (s : string) : bool :=
  match s with
  | EmptyString => true
  | String c s' => p c && all p s'
  end.

(** The characters of a command URL: the unreserved ones, the percent
    sign of the escapes, and the delimiters of the scheme, the path and
    the query. *)
Definition urlChar (c : ascii) : bool :=
  Js.unreserved c
  || Ascii.eqb c "%" || Ascii.eqb c ":" || Ascii.eqb c "/"
  || Ascii.eqb c "?" || Ascii.eqb c "&" || Ascii.eqb c "=".

(** The query items of [buildUrl]: the credential, when it is not empty,
    and the emitted parameters. *)
Definition items (params : Url.Params) (authToken : option string) : list string :=
  (if Js.truthy_opt authToken
   then ["auth-token=" +:+ Url.encode (default "" authToken)] else [])
  ++ omap UrlSpec.emitted params.

(** A text without delimiter. *)
Definition plain (s : string) : Prop :=
  all urlChar s = true /\ count "?" s = 0%nat /\ count "&" s = 0%nat
  /\ count "=" s = 0%nat.

(** A query item: one [=], no other delimiter. *)
Definition item (s : string) : Prop :=
  all urlChar s = true /\ count "?" s = 0%nat /\ count "&" s = 0%nat
  /\ count "=" s = 1%nat.

End UriSpec.

(** ** What trimming removes *)

Module TextSpec.

(** The white space of ASCII: tab, line feed, vertical tab, form feed,
    carriage return and space. *)
Definition blank (c : ascii) : bool :=
  let n := N_of_ascii c in ((9 <=? n) && (n <=? 13) || (n =? 32))%N.

(** The printing characters of ASCII but the space. *)
Definition visible (c : ascii) : bool :=
  let n := N_of_ascii c in ((33 <=? n) && (n <=? 126))%N.

(** Every character is blank. *)
Fixpoint blanks (s : string) : bool :=
  match s with
  | EmptyString => true
  | String c s' => blank c && blanks s'
  end.

(** The first character is visible. *)
Definition startsVisible (s : string) : bool :=
  match s with
  | EmptyString => false
  | String c _ => visible c
  end.

(** The last character is visible. *)
Definition endsVisible (s : string) : bool := startsVisible (Text.reverse s).

End TextSpec.

(** ** What the queries promise *)

Module QuerySpec.

Import Db.

(** The timestamps of a row read render. *)
Definition rowRenders (r : RawTodoRow) : Prop :=
  DbSpec.renders (r_creationDate r)
  /\ (forall q, r_modificationDate r = Some q -> DbSpec.renders q)
  /\ (forall q, r_completionDate r = Some q -> DbSpec.renders q).

(** An optional text with the empty text taken for none. *)
Definition given (x : option string) : option string :=
  match x with
  | Some EmptyString => None
  | _ => x
  end.

(** The filters with every empty text taken out. *)
Definition stripped (filters : TodoFilters) : TodoFilters :=
  {| f_list := f_list filters;
     f_projectId := given (f_projectId filters);
     f_areaId := given (f_areaId filters);
     f_tag := f_tag filters;
     f_search := given (f_search filters);
     f_status := f_status filters;
     f_limit := f_limit filters |}.

(** What being in a list says of a to-do. *)
Definition inList (l : TodoList) (todo : Todo) : Prop :=
  match l with
  | ListInbox =>
      status todo = Open /\ start todo = Some Inbox /\ projectId todo = None
  | ListToday => status todo = Open
  | ListAnytime => status todo = Open /\ start todo = Some Anytime
  | ListSomeday => status todo = Open /\ start todo = Some Someday
  | ListUpcoming =>
      status todo = Open /\ start todo = Some Anytime /\ startDate todo <> None
  | ListLogbook => status todo = Completed
  | ListTrash => True
  end.


(** ASCII case folding of a text. *)
Fixpoint fold (s : string) : string :=
  match s with
  | EmptyString => EmptyString
  | String c s' => String (Sql.upper c) (fold s')
  end.


(** The filters with another search text. *)
Definition searching (text : option string) (filters : TodoFilters) : TodoFilters :=
  {| f_list := f_list filters;
     f_projectId := f_projectId filters;
     f_areaId := f_areaId filters;
     f_tag := f_tag filters;
     f_search := text;
     f_status := f_status filters;
     f_limit := f_limit filters |}.

End QuerySpec.

(** ** What the batch loaders hold *)

Module BatchSpec.

Import Db.

(** The titles of the tags of a task, in title order. *)
Definition tagsOf (database : Database) (task : string) : list string :=
  map snd
    (Sql.orderBy (fun r1 r2 : string * string => String.leb r1.2 r2.2)
       (tt ← taskTags database;
        t ← List.filter (fun t => String.eqb (tt_tags tt) (g_uuid t)) (tags database);
        if String.eqb (tt_tasks tt) task then [(tt_tasks tt, g_title t)] else [])).

(** The checklist of a task, in index order. *)
Definition checklistOf (database : Database) (task : string) : list ChecklistItem :=
  map (fun row => {| ci_uuid := c_uuid row; ci_title := c_title row;
                     ci_completed := (c_status row =? 3)%Z |})
    (Sql.orderBy (fun r1 r2 => (c_index r1 <=? c_index r2)%Z)
       (List.filter (fun c => String.eqb (c_task c) task) (checklistItems database))).

(** The entry of a map of lists: none for the empty list. *)
Definition entry {V} (l : list V) : option (list V) :=
  match l with
  | [] => None
  | _ :: _ => Some l
  end.

End BatchSpec.

(** ** What the project queries promise *)

Module ProjectSpec.

Import Db.

(** The to-do rows of a project that are not trashed. *)
Definition child (project : string) (t : TMTask) : bool :=
  Sql.eq_text (t_project t) (Some project)
  && (t_type t =? 0)%Z && (t_trashed t =? 0)%Z.

(** The order of the [index] column. *)
Definition byIndex (t1 t2 : TMTask) : bool := (t_index t1 <=? t_index t2)%Z.

(** The heading rows of a project that are not trashed. *)
Definition headline (project : string) (t : TMTask) : bool :=
  Sql.eq_text (t_project t) (Some project)
  && (t_type t =? 2)%Z && (t_trashed t =? 0)%Z.

End ProjectSpec.

(** ** Further samples *)

Module Examples.

Import Db Tools.

(** A to-do with nothing but a title. *)
Definition buyMilk : AddTodo.Params :=
  {| AddTodo.title := Some "Buy milk"; AddTodo.titles := None;
     AddTodo.notes := None; AddTodo.when := None; AddTodo.deadline := None;
     AddTodo.tags := None; AddTodo.checklistItems := None;
     AddTodo.list := None; AddTodo.listId := None; AddTodo.heading := None;
     AddTodo.headingId := None; AddTodo.completed := None;
     AddTodo.canceled := None; AddTodo.reveal := None;
     AddTodo.showQuickEntry := None; AddTodo.useClipboard := None;
     AddTodo.creationDate := None; AddTodo.completionDate := None |}.

(** The open to-dos of the project "proj-2" in the area "Work" that
    mention "review". *)
Definition reviews : TodoFilters :=
  {| f_list := None; f_projectId := Some "proj-2";
     f_areaId := Some "area-work"; f_tag := None; f_search := Some "review";
     f_status := Some Open; f_limit := None |}.




End Examples.

(** ** Tactics *)

(** A decidable proposition settled by evaluation. *)
Ltac by_evaluation :=
  match goal with
  | |- ?P => apply (bool_decide_unpack P); vm_compute; exact I
  end.

(** Boolean comparisons of octets, as propositions. *)
Ltac octets :=
  repeat match goal with
  | H : _ && _ = true |- _ => apply andb_true_iff in H as [? ?]
  | H : _ || _ = true |- _ => apply orb_true_iff in H as [?|?]
  | H : (_ <=? _)%N = true |- _ => apply N.leb_le in H
  | H : (_ <? _)%N = true |- _ => apply N.ltb_lt in H
  | H : (_ <? _)%N = false |- _ => apply N.ltb_ge in H
  | H : (_ =? _)%N = true |- _ => apply N.eqb_eq in H
  end.

(** * Theorems *)

(** ** Strings *)

#[local] Arguments String.append !_ _ / : simpl nomatch.

Section Strings.

Lemma sapp_assoc (a b c : string) : (a +:+ b) +:+ c = a +:+ (b +:+ c).
Proof. induction a as [|x a IH]; simpl; [reflexivity | now rewrite IH]. Qed.

Lemma sapp_nil_r (a : string) : a +:+ "" = a.
Proof. induction a as [|x a IH]; simpl; [reflexivity | now rewrite IH]. Qed.

Lemma slength_app (a b : string) :
  String.length (a +:+ b) = (String.length a + String.length b)%nat.
Proof. induction a as [|x a IH]; simpl; [reflexivity | now rewrite IH]. Qed.

Lemma truthy_app_l (a b : string) : Js.truthy a = true -> Js.truthy (a +:+ b) = true.
Proof. destruct a; [discriminate | reflexivity]. Qed.

(** A prefix splits the string. *)
Lemma startsWith_split (p s : string) :
  Js.startsWith p s = true -> s = p +:+ Js.drop (String.length p) s.
Proof.
  revert s. induction p as [|c p IH]; intros s H.
  - reflexivity.
  - destruct s as [|d s]; [discriminate|]. simpl in H.
    apply andb_true_iff in H as [Hc H]. apply Ascii.eqb_eq in Hc as ->.
    simpl. f_equal. now apply IH.
Qed.

Lemma startsWith_length (p s : string) :
  Js.startsWith p s = true -> (String.length p <= String.length s)%nat.
Proof.
  intros H. rewrite (startsWith_split _ _ H), slength_app. lia.
Qed.

Lemma drop_length (n : nat) (s : string) :
  String.length (Js.drop n s) = (String.length s - n)%nat.
Proof.
  revert s. induction n as [|n IH]; intros [|c s]; simpl; auto.
Qed.

(** [replace] leaves a string without the pattern alone. *)
Lemma replace_absent (pat rep s : string) :
  Js.includes pat s = false -> Js.replace pat rep s = s.
Proof.
  induction s as [|c s IH]; simpl; intros H.
  - apply orb_false_iff in H as [-> _]. reflexivity.
  - apply orb_false_iff in H as [-> H]. now rewrite IH.
Qed.

(** [replace] trades one pattern for one replacement. *)
Lemma replace_present_length (pat rep s : string) :
  Js.includes pat s = true ->
  (String.length (Js.replace pat rep s) + String.length pat
   = String.length s + String.length rep)%nat.
Proof.
  induction s as [|c s IH]; intros H.
  - simpl in H. rewrite orb_false_r in H.
    simpl. rewrite H. pose proof (startsWith_length _ _ H) as Hl.
    rewrite slength_app, drop_length. simpl in *. lia.
  - cbn [Js.replace]. cbn [Js.includes] in H.
    destruct (Js.startsWith pat (String c s)) eqn:Hp.
    + pose proof (startsWith_length _ _ Hp) as Hl.
      rewrite slength_app, drop_length. lia.
    + simpl in H. cbn [String.length]. specialize (IH H). lia.
Qed.

(** A string none of whose characters is [x] holds no pattern that
    has an [x]. *)
Lemma lacks_app (x : ascii) (a b : string) :
  Js.lacks x (a +:+ b) = Js.lacks x a && Js.lacks x b.
Proof.
  induction a as [|c a IH]; simpl; [reflexivity|].
  now rewrite IH, andb_assoc.
Qed.

Lemma lacks_includes (x : ascii) (pat s : string) :
  Js.lacks x pat = false -> Js.lacks x s = true -> Js.includes pat s = false.
Proof.
  intros Hpat. induction s as [|c s IH]; intros Hs.
  - simpl. rewrite orb_false_r.
    destruct (Js.startsWith pat "") eqn:Hp; [|reflexivity].
    apply startsWith_split in Hp. destruct pat; [discriminate Hpat | discriminate Hp].
  - cbn [Js.includes].
    destruct (Js.startsWith pat (String c s)) eqn:Hp.
    + apply startsWith_split in Hp. rewrite Hp, lacks_app, Hpat in Hs. discriminate.
    + simpl in Hs. apply andb_true_iff in Hs as [_ Hs]. now rewrite IH.
Qed.

End Strings.

(** ** The command URL builder *)

Section BuildUrl.

Import Url UrlSpec.

Lemma join_cons (sep p : string) (q : string) (rest : list string) :
  Js.join sep (p :: q :: rest) = p +:+ sep +:+ Js.join sep (q :: rest).
Proof. reflexivity. Qed.

(** The loop of [buildUrl] appends what the specification says each entry
    emits, in order. *)
Lemma buildUrl_loop (params : Params) (parts : list string) :
  fold_left buildUrl_step params parts = parts ++ omap emitted params.
Proof.
  revert parts. induction params as [|[k v] ps IH]; intros parts; simpl.
  - now rewrite app_nil_r.
  - rewrite IH. unfold emitted, Js.push. simpl.
    destruct v as [s|[]|]; simpl; rewrite <- ?app_assoc; reflexivity.
Qed.

Lemma emitted_truthy (entry : string * ParamValue) (item : string) :
  emitted entry = Some item -> Js.truthy item = true.
Proof.
  destruct entry as [k [v|[]|]]; unfold emitted; simpl; intros [= <-].
  - destruct (encode k); reflexivity.
  - destruct (encode k); reflexivity.
  - destruct (encode k); reflexivity.
Qed.

Lemma join_truthy (sep p : string) (rest : list string) :
  Js.truthy p = true -> Js.truthy (Js.join sep (p :: rest)) = true.
Proof.
  intros H. destruct rest; simpl; [assumption | now apply truthy_app_l].
Qed.

Lemma omap_emitted_truthy (params : Params) (item : string) (items : list string) :
  omap emitted params = item :: items -> Js.truthy item = true.
Proof.
  induction params as [|e ps IH]; simpl; [discriminate|].
  destruct (emitted e) eqn:He; [|exact IH].
  intros [= -> _]. eapply emitted_truthy, He.
Qed.

(** [buildUrl] without a credential is the callback form of the emitted
    entries. *)
Lemma buildUrl_None (command : ThingsCommand) (params : Params) :
  buildUrl command params None = commandUrl command (omap emitted params).
Proof.
  unfold buildUrl. rewrite buildUrl_loop. simpl.
  destruct (omap emitted params) as [|item items] eqn:E; [reflexivity|].
  rewrite (join_truthy _ _ _ (omap_emitted_truthy _ _ _ E)). reflexivity.
Qed.

(** [buildUrl] with a non-empty credential puts it first. *)
Lemma buildUrl_Some (command : ThingsCommand) (params : Params) (tok : string) :
  tok <> "" ->
  buildUrl command params (Some tok)
  = commandUrl command (("auth-token=" +:+ encode tok) :: omap emitted params).
Proof.
  intros Htok. unfold buildUrl.
  destruct tok as [|c tok]; [congruence|]. cbn [Js.truthy].
  rewrite buildUrl_loop. unfold Js.push. cbn [app commandUrl].
  rewrite join_truthy; reflexivity.
Qed.

(** An empty credential is no credential. *)
Lemma buildUrl_empty_token (command : ThingsCommand) (params : Params) :
  buildUrl command params (Some "") = buildUrl command params None.
Proof. reflexivity. Qed.

(** The reserved characters of the specification, and a character
    outside ASCII. *)
Example encode_reserved :
  encode "a b&c,d:e@f" = "a%20b%26c%2Cd%3Ae%40f"
  /\ encode (String (ascii_of_N 10) "") = "%0A"
  /\ encode "é" = "%C3%A9"
  /\ encode "-_.!~*'()" = "-_.!~*'()".
Proof. repeat split. Qed.

End BuildUrl.

Section BuildUrlClaims.

Import Url UrlSpec.

Lemma join_amp (p : string) (items : list string) :
  Js.join "&" (p :: items)
  = p +:+ trailing items.
Proof.
  revert p. induction items as [|q items IH]; intros p.
  - simpl. now rewrite sapp_nil_r.
  - rewrite join_cons, IH. reflexivity.
Qed.

Lemma base_lacks_question (command : ThingsCommand) :
  Js.includes "?" ("things:///x-callback-url/" +:+ commandName command) = false.
Proof. destruct command; reflexivity. Qed.

(** C2, as amended: for every command, every parameter mapping and every
    non-empty credential, the URL [buildUrl] returns is the callback path
    of the command, then [?auth-token=] and the percent-encoded credential,
    then each emitted parameter behind an [&]; the path has no [?], so the
    credential comes immediately after the first [?].  The empty
    credential is no credential: the URL is the one built without. *)
Theorem buildUrl_credential_first
    (command : ThingsCommand) (params : Params) (tok : string) :
  (tok <> "" ->
   buildUrl command params (Some tok)
   = "things:///x-callback-url/" +:+ commandName command
     +:+ "?auth-token=" +:+ encode tok
     +:+ trailing (omap emitted params))
  /\ Js.includes "?" ("things:///x-callback-url/" +:+ commandName command) = false
  /\ buildUrl command params (Some "") = buildUrl command params None.
Proof.
  split; [|split; [apply base_lacks_question | reflexivity]].
  intros Htok. rewrite (buildUrl_Some _ _ _ Htok). unfold commandUrl.
  rewrite join_amp. destruct command; simpl; reflexivity.
Qed.

Lemma buildUrl_credential_first_witness :
  Url.buildUrl Url.Update [("id", Url.PString "abc")] (Some "token123")
  = "things:///x-callback-url/update?auth-token=token123&id=abc".
Proof.
  exact (proj1 (buildUrl_credential_first Update [("id", PString "abc")]
                  "token123") ltac:(discriminate)).
Defined.

(** C2, as stated, fails on the empty credential: it is given, and the URL
    has no query at all. *)
Lemma buildUrl_empty_credential_not_emitted :
  ~ exists rest : string,
      Url.buildUrl Url.Version [] (Some "")
      = "things:///x-callback-url/version?auth-token=" +:+ rest.
Proof. intros [rest H]. vm_compute in H. discriminate H. Qed.


End BuildUrlClaims.

(** ** The direct form *)

Section ToDirectUrl.

Import Url UrlSpec.

(** The fixed points of [toDirectUrl] are the strings without the callback
    prefix. *)
Lemma toDirectUrl_fixed_iff (x : string) :
  toDirectUrl x = x <-> Js.includes "things:///x-callback-url/" x = false.
Proof.
  split.
  - intros H. destruct (Js.includes "things:///x-callback-url/" x) eqn:E; [|reflexivity].
    apply (replace_present_length _ "things:///") in E.
    unfold toDirectUrl in H. rewrite H in E. simpl in E. lia.
  - apply replace_absent.
Qed.

Lemma encode_byte_lacks_colon (c : ascii) :
  Js.lacks ":" (if Js.unreserved c then String c "" else Js.percent c) = true.
Proof. destruct c as [[] [] [] [] [] [] [] []]; reflexivity. Qed.

Lemma encode_lacks_colon (s : string) : Js.lacks ":" (encode s) = true.
Proof.
  induction s as [|c s IH]; [reflexivity|].
  unfold encode in *. cbn [Js.encodeURIComponent].
  now rewrite lacks_app, encode_byte_lacks_colon, IH.
Qed.

Lemma emitted_lacks_colon (entry : string * ParamValue) (item : string) :
  emitted entry = Some item -> Js.lacks ":" item = true.
Proof.
  destruct entry as [k [v|[]|]]; unfold emitted; cbn [fst snd]; intros [= <-];
    rewrite lacks_app, encode_lacks_colon; cbn;
    rewrite ?encode_lacks_colon; reflexivity.
Qed.

Lemma join_lacks_colon (items : list string) :
  Forall (fun item => Js.lacks ":" item = true) items ->
  Js.lacks ":" (Js.join "&" items) = true.
Proof.
  induction 1 as [|p items Hp _ IH]; [reflexivity|].
  destruct items as [|q items]; [exact Hp|].
  rewrite join_cons, !lacks_app, Hp, IH. reflexivity.
Qed.

Lemma omap_emitted_lacks_colon (params : Params) :
  Forall (fun item => Js.lacks ":" item = true) (omap emitted params).
Proof.
  induction params as [|e ps IH]; simpl; [constructor|].
  destruct (emitted e) eqn:He; [|exact IH].
  constructor; [eapply emitted_lacks_colon, He | exact IH].
Qed.

(** [toDirectUrl] strips the callback segment of a command URL. *)
Lemma toDirectUrl_commandUrl (command : ThingsCommand) (items : list string) :
  toDirectUrl (commandUrl command items) = directUrl command items.
Proof. destruct items; reflexivity. Qed.

(** A direct command URL whose items have no colon holds no callback
    prefix. *)
Lemma directUrl_direct (command : ThingsCommand) (items : list string) :
  Forall (fun item => Js.lacks ":" item = true) items ->
  Js.includes "things:///x-callback-url/" (directUrl command items) = false.
Proof.
  intros Hitems. destruct items as [|p items].
  - destruct command; reflexivity.
  - apply join_lacks_colon in Hitems. unfold directUrl.
    assert (Js.includes "things:///x-callback-url/" (Js.join "&" (p :: items))
            = false) as Hq
      by (apply (lacks_includes ":"); [reflexivity | exact Hitems]).
    destruct command; cbn; exact Hq.
Qed.

(** What [buildUrl] puts into the query. *)
Lemma buildUrl_commandUrl (command : ThingsCommand) (params : Params)
    (authToken : option string) :
  exists items,
    buildUrl command params authToken = commandUrl command items
    /\ Forall (fun item => Js.lacks ":" item = true) items.
Proof.
  destruct authToken as [[|c tok]|].
  - exists (omap emitted params). rewrite buildUrl_empty_token.
    split; [apply buildUrl_None | apply omap_emitted_lacks_colon].
  - eexists. split; [apply buildUrl_Some; discriminate|].
    constructor; [|apply omap_emitted_lacks_colon].
    rewrite lacks_app, encode_lacks_colon. reflexivity.
  - exists (omap emitted params).
    split; [apply buildUrl_None | apply omap_emitted_lacks_colon].
Qed.

(** C4, as amended: [toDirectUrl] is the identity exactly on the strings
    that do not contain [things:///x-callback-url/]; applying it twice
    gives the same as applying it once exactly when the first result no
    longer contains that prefix, which is so for every URL [buildUrl]
    returns. *)
Theorem toDirectUrl_idempotent_iff (x : string) :
  (toDirectUrl x = x <-> Js.includes "things:///x-callback-url/" x = false)
  /\ (toDirectUrl (toDirectUrl x) = toDirectUrl x
      <-> Js.includes "things:///x-callback-url/" (toDirectUrl x) = false)
  /\ (forall command params authToken,
        toDirectUrl (toDirectUrl (buildUrl command params authToken))
        = toDirectUrl (buildUrl command params authToken)).
Proof.
  split; [apply toDirectUrl_fixed_iff|].
  split; [apply toDirectUrl_fixed_iff|].
  intros command params authToken.
  destruct (buildUrl_commandUrl command params authToken) as (items & -> & Hitems).
  rewrite toDirectUrl_commandUrl.
  apply toDirectUrl_fixed_iff, directUrl_direct, Hitems.
Qed.

(** C4, as stated, fails: only the leftmost occurrence of the prefix is
    replaced, and removing it can bring a second one about. *)
Lemma toDirectUrl_not_idempotent :
  Url.toDirectUrl (Url.toDirectUrl "things:///x-callback-url/x-callback-url/add")
  <> Url.toDirectUrl "things:///x-callback-url/x-callback-url/add".
Proof. vm_compute. discriminate. Qed.

Example toDirectUrl_twice :
  toDirectUrl "things:///x-callback-url/x-callback-url/add"
  = "things:///x-callback-url/add"
  /\ toDirectUrl "things:///x-callback-url/add" = "things:///add".
Proof. split; reflexivity. Qed.

End ToDirectUrl.

(** ** The date utilities *)

Section DateClaims.

Import Dates.

(** C8: the reference instant is 978307200 seconds after the Unix epoch;
    [coreDataTimestampToISO 0] is the ISO form of that instant, with
    milliseconds; [dayIntegerToDate 0] is its calendar date, and
    [dayIntegerToDate 365] the date 365 days later, which is the date of
    the instant 365 * 86400 seconds after the reference. *)
Theorem date_utilities_anchored :
  CORE_DATA_EPOCH = 978307200%Z
  /\ coreDataTimestampToISO 0
     = Js.toISOString (Js.newDate (inject_Z (978307200 * 1000)))
  /\ coreDataTimestampToISO 0 = Js.Ok "2001-01-01T00:00:00.000Z"
  /\ dayIntegerToDate 0 = "2001-01-01"
  /\ dayIntegerToDate 365 = "2002-01-01"
  /\ coreDataTimestampToISO (inject_Z (365 * 86400))
     = Js.Ok (dayIntegerToDate 365 +:+ "T00:00:00.000Z").
Proof. repeat split; vm_compute; reflexivity. Qed.

End DateClaims.

(** ** The query engine *)

Section Results.

(** What [mapM] returns, when it returns. *)
Lemma mapM_Ok {A B} (f : A -> Js.result B) (l : list A) (ys : list B) :
  mapM f l = Js.Ok ys -> Forall2 (fun x y => f x = Js.Ok y) l ys.
Proof.
  revert ys. induction l as [|x l IH]; intros ys; cbn.
  - intros [= <-]. constructor.
  - destruct (f x) as [y|e] eqn:Hx; cbn; [|discriminate].
    destruct (mapM f l) as [ys'|e] eqn:Hl; cbn; [|discriminate].
    intros [= <-]. constructor; [exact Hx | now apply IH].
Qed.

(** [mapM] returns when its function does on every element. *)
Lemma mapM_total {A B} (f : A -> Js.result B) (l : list A) :
  Forall (fun x => exists y, f x = Js.Ok y) l -> exists ys, mapM f l = Js.Ok ys.
Proof.
  induction 1 as [|x l [y Hy] _ [ys IH]]; cbn.
  - eexists. reflexivity.
  - rewrite Hy. cbn. rewrite IH. cbn. eexists. reflexivity.
Qed.

(** [mapM] throws when its function does on some element. *)
Lemma mapM_Throw {A B} (f : A -> Js.result B) (l : list A) (x : A) (e : Js.Exn) :
  x ∈ l -> f x = Js.Throw e -> exists e', mapM f l = Js.Throw e'.
Proof.
  induction l as [|y l IH]; intros Hin Hx.
  - now apply elem_of_nil in Hin.
  - cbn. destruct (f y) as [b|e0] eqn:Hy; cbn; [|eexists; reflexivity].
    apply elem_of_cons in Hin as [->|Hin]; [congruence|].
    destruct (IH Hin Hx) as [e' ->]. cbn. eexists. reflexivity.
Qed.

(** A property carried from list to list along a relation. *)
Lemma Forall2_carry {A B} (R : A -> B -> Prop) (P : A -> Prop) (Q : B -> Prop)
    (l : list A) (k : list B) :
  (forall x y, R x y -> P x -> Q y) ->
  Forall2 R l k -> Forall P l -> Forall Q k.
Proof.
  intros Hstep H2. induction H2 as [|x y l k Hxy _ IH]; intros Hl.
  - constructor.
  - apply Forall_cons in Hl as [Hx Hl]. constructor; eauto.
Qed.

End Results.

(** ** The SQL helpers *)

Section SqlLemmas.

Context {A : Type}.

Lemma insertBy_Permutation (le : A -> A -> bool) (x : A) (l : list A) :
  Permutation (Sql.insertBy le x l) (x :: l).
Proof.
  induction l as [|y l IH]; cbn; [reflexivity|].
  destruct (le x y); [reflexivity|].
  rewrite IH. apply perm_swap.
Qed.

(** [ORDER BY] keeps the rows. *)
Lemma orderBy_Permutation (le : A -> A -> bool) (l : list A) :
  Permutation (Sql.orderBy le l) l.
Proof.
  induction l as [|x l IH]; cbn; [reflexivity|].
  rewrite insertBy_Permutation. now constructor.
Qed.

(** [LIMIT] keeps a prefix. *)
Lemma limit_take (n : Z) (l : list A) :
  Sql.limit n l = take (DbSpec.limited n (length l)) l.
Proof.
  unfold Sql.limit, DbSpec.limited. destruct (n <? 0)%Z.
  - now rewrite firstn_all.
  - destruct (Nat.le_ge_cases (Z.to_nat n) (length l)) as [H|H].
    + now rewrite Nat.min_l.
    + rewrite Nat.min_r by exact H. now rewrite firstn_all, take_ge.
Qed.


(** At most one row has a given key, when the keys are distinct. *)
Lemma filter_key (key : A -> string) (on : A -> bool) (k : string) (l : list A) :
  NoDup (map key l) ->
  (forall x, on x = true -> key x = k) ->
  (length (List.filter on l) <= 1)%nat.
Proof.
  intros Hnodup Hon. induction l as [|x l IH]; cbn; [lia|].
  apply NoDup_cons in Hnodup as [Hx Hnodup]. specialize (IH Hnodup).
  destruct (on x) eqn:Ex; [|exact IH].
  cbn. enough (List.filter on l = []) as -> by (cbn; lia).
  destruct (List.filter on l) as [|y rest] eqn:Ef; [reflexivity|].
  exfalso. apply Hx.
  assert (In y (List.filter on l)) as Hy by (rewrite Ef; now left).
  apply filter_In in Hy as [Hy Ey].
  rewrite (Hon x Ex), <- (Hon y Ey).
  apply list_elem_of_In, in_map, Hy.
Qed.

(** A [LEFT JOIN] on a key pairs a row with exactly one row. *)
Lemma leftJoin_one (key : A -> string) (on : A -> bool) (k : string) (l : list A) :
  NoDup (map key l) ->
  (forall x, on x = true -> key x = k) ->
  exists b, Sql.leftJoin on l = [b].
Proof.
  intros Hnodup Hon. pose proof (filter_key key on k l Hnodup Hon) as Hlen.
  unfold Sql.leftJoin. destruct (List.filter on l) as [|x [|y rest]]; cbn in *.
  - eexists. reflexivity.
  - eexists. reflexivity.
  - lia.
Qed.

End SqlLemmas.

Section QueryClaims.

Import Db DbSpec.

(** [formatTodo] copies the identifying columns of the row. *)
Lemma formatTodo_fields (r : RawTodoRow) tagsMap checklistMap (todo : Todo) :
  formatTodo r tagsMap checklistMap = Js.Ok todo ->
  uuid todo = r_uuid r
  /\ projectId todo = r_projectId r
  /\ projectTitle todo = r_projectTitle r
  /\ areaId todo = r_areaId r
  /\ areaTitle todo = r_areaTitle r.
Proof.
  unfold formatTodo.
  destruct (Dates.coreDataTimestampToISO (r_creationDate r)); cbn; [|discriminate].
  destruct (optM Dates.coreDataTimestampToISO (r_modificationDate r)); cbn; [|discriminate].
  destruct (optM Dates.coreDataTimestampToISO (r_completionDate r)); cbn; [|discriminate].
  intros [= <-]. cbn. repeat split.
Qed.

(** C9: the tag field of the filters does not show in the result of
    [queryTodos]: whatever it is set to, and so also when it is removed,
    the result is the same. *)
Theorem queryTodos_ignores_tag
    (database : Database) (now : Z) (filters : TodoFilters) :
  queryTodos database now filters
  = queryTodos database now (withTag None filters)
  /\ forall tag : option string,
       queryTodos database now (withTag tag filters)
       = queryTodos database now filters.
Proof. destruct filters. split; [|intros tag]; reflexivity. Qed.

(** Every row of the to-dos of a project carries the uuid asked for as
    its project title. *)
Lemma projectTodoRows_projectTitle (database : Database) (id : string) :
  Forall (fun r => r_projectTitle r = Some id) (projectTodoRows database id).
Proof.
  unfold projectTodoRows. apply List.Forall_map, Forall_forall.
  intros j _. reflexivity.
Qed.

(** The project row read is the row of the uuid asked for. *)
Lemma projectRows_uuid (database : Database) (id : string) (row : RawProjectRow) :
  get (projectRows database id) = Some row -> rp_uuid row = id.
Proof.
  unfold get, projectRows. intros Hrow. apply head_Some_elem_of in Hrow.
  apply list_elem_of_bind in Hrow as (t & Hin & Ht).
  apply list_elem_of_In, filter_In in Ht as [_ Ht].
  apply andb_true_iff in Ht as [Ht _]. apply String.eqb_eq in Ht.
  apply list_elem_of_bind in Hin as (a & Hin & _).
  apply list_elem_of_singleton in Hin. subst row. exact Ht.
Qed.

(** C10: in a project [queryProjectById] returns, the [projectTitle] of
    every child to-do is the uuid of the project, which is the uuid asked
    for. *)
Theorem queryProjectById_projectTitle_is_uuid
    (database : Database) (id : string) (project : ProjectDetail) :
  queryProjectById database id = Js.Ok (Some project) ->
  Forall (fun todo => projectTitle todo = Some (pd_uuid project))
    (pd_todos project)
  /\ pd_uuid project = id.
Proof.
  unfold queryProjectById.
  destruct (get (projectRows database id)) as [row|] eqn:Hrow; [|discriminate].
  apply projectRows_uuid in Hrow.
  match goal with
  | |- context [mapM ?f ?l] => destruct (mapM f l) as [todos|e] eqn:Htodos
  end; cbn; [|discriminate].
  destruct (Dates.coreDataTimestampToISO (rp_creationDate row)); cbn; [|discriminate].
  destruct (optM Dates.coreDataTimestampToISO (rp_modificationDate row)); cbn; [|discriminate].
  destruct (optM Dates.coreDataTimestampToISO (rp_completionDate row)); cbn; [|discriminate].
  intros [= <-]. cbn. split; [|exact Hrow].
  apply mapM_Ok in Htodos. rewrite Hrow.
  eapply Forall2_carry;
    [|exact Htodos|exact (projectTodoRows_projectTitle database id)].
  cbn. intros r todo Hr Htitle.
  destruct (formatTodo r _ _) as [t|] eqn:Hf; cbn in Hr; [|discriminate].
  injection Hr as <-. cbn.
  apply formatTodo_fields in Hf as (_ & _ & -> & _). exact Htitle.
Qed.

(** The project of the sample store: its title is not its uuid, and its
    one to-do carries the uuid as project title. *)
Lemma queryProjectById_projectTitle_is_uuid_witness :
  exists project,
    queryProjectById Samples.office "proj-2" = Js.Ok (Some project)
    /\ pd_title project = "Work Project"
    /\ length (pd_todos project) = 1%nat
    /\ Forall (fun todo => projectTitle todo = Some "proj-2") (pd_todos project).
Proof.
  eexists. split; [vm_compute; reflexivity|].
  split; [reflexivity|]. split; [reflexivity|].
  exact (proj1 (queryProjectById_projectTitle_is_uuid Samples.office "proj-2" _
                  eq_refl)).
Defined.

(** A joined row starts from a row of the task table. *)
Lemma todoJoin_task (database : Database) (j : Joined) :
  j ∈ todoJoin database -> jt j ∈ tasks database.
Proof.
  unfold todoJoin. intros Hj.
  apply list_elem_of_bind in Hj as (t & Hj & Ht).
  apply list_elem_of_bind in Hj as (p & Hj & _).
  apply list_elem_of_bind in Hj as (a & Hj & _).
  apply list_elem_of_bind in Hj as (h & Hj & _).
  apply list_elem_of_singleton in Hj. subst j. exact Ht.
Qed.

(** The [areaId] of a to-do [queryTodoById] returns is the area column
    of its own row, whatever the area of its project. *)
Lemma queryTodoById_areaId_own (database : Database) (id : string) (todo : Todo) :
  queryTodoById database id = Js.Ok (Some todo) ->
  exists t, t ∈ tasks database /\ t_uuid t = id /\ t_type t = 0%Z
            /\ uuid todo = id /\ areaId todo = t_area t.
Proof.
  unfold queryTodoById, get.
  match goal with
  | |- context [head ?l] => destruct (head l) as [row|] eqn:Hrow
  end; [|discriminate].
  apply head_Some_elem_of, list_elem_of_In, in_map_iff in Hrow
    as (j & <- & Hj).
  apply filter_In in Hj as [Hj Hcond].
  apply andb_true_iff in Hcond as [Huuid Htype].
  apply String.eqb_eq in Huuid. apply Z.eqb_eq in Htype.
  destruct (formatTodo _ _ _) as [t|] eqn:Hf; cbn; [|discriminate].
  intros [= <-]. apply formatTodo_fields in Hf as (Hu & _ & _ & Ha & _).
  exists (jt j). split; [apply todoJoin_task, list_elem_of_In, Hj|].
  cbn in Hu, Ha. rewrite Hu, Ha. auto.
Qed.

(** C1, on the store where the to-do "Review PR" has no area of its own
    and its project is in the area "Work": [queryTodoById] returns the
    to-do with the inherited area title and no area id. *)
Theorem queryTodoById_inherited_area :
  exists todo,
    queryTodoById Samples.office "todo-today-1" = Js.Ok (Some todo)
    /\ projectId todo = Some "proj-2"
    /\ areaId todo = None
    /\ areaTitle todo = Some "Work".
Proof. eexists. split; [vm_compute; reflexivity|]. repeat split. Qed.

(** *** The "today" list *)

Lemma eq_text_key (x : option string) (y : string) :
  Sql.eq_text x (Some y) = true -> y = default "" x.
Proof.
  destruct x as [k|]; cbn; [|discriminate].
  intros H. apply String.eqb_eq in H. now subst.
Qed.



Lemma filter_map {A B} (f : A -> B) (p : B -> bool) (l : list A) :
  List.filter p (map f l) = map f (List.filter (fun x => p (f x)) l).
Proof.
  induction l as [|x l IH]; cbn; [reflexivity|].
  destruct (p (f x)); cbn; now rewrite IH.
Qed.






Lemma office_keyed : keyed Samples.office.
Proof. split; by_evaluation. Qed.





End QueryClaims.

(** ** The response parser *)

Section ParseClaims.

Import Url HostSpec.

(** Entries with distinct keys go into the dictionary as they are. *)
Lemma fold_insert_lookup (entries : list (string * string))
    (m : gmap string string) (key text : string) :
  NoDup (map fst entries) ->
  fold_left (fun m entry => <[entry.1 := entry.2]> m) entries m !! key
  = Some text
  <-> (key, text) ∈ entries
      \/ ((key ∉ map fst entries) /\ m !! key = Some text).
Proof.
  revert m. induction entries as [|[k v] entries IH]; intros m Hnodup.
  - cbn. split; [intros H; right; split; [apply not_elem_of_nil | exact H]|].
    intros [H|[_ H]]; [now apply elem_of_nil in H | exact H].
  - cbn in Hnodup. apply NoDup_cons in Hnodup as [Hk Hnodup].
    cbn [fold_left fst snd]. rewrite (IH _ Hnodup). cbn [map fst].
    rewrite elem_of_cons, not_elem_of_cons.
    destruct (decide (key = k)) as [->|Hne].
    + rewrite lookup_insert_eq. split.
      * intros [Hin|[_ [= ->]]]; [|now left; left].
        exfalso. apply Hk, list_elem_of_In.
        apply list_elem_of_In in Hin. now apply (in_map fst) in Hin.
      * intros [[[= ->]|Hin]|[[Hkk _] _]]; [| |congruence].
        -- right. split; [exact Hk | reflexivity].
        -- exfalso. apply Hk, list_elem_of_In.
           apply list_elem_of_In in Hin. now apply (in_map fst) in Hin.
    + rewrite lookup_insert_ne by congruence. split.
      * intros [Hin|[Hnot Hm]]; [left; now right | right; auto].
      * intros [[[= ]|Hin]|[[_ Hnot] Hm]]; [congruence | now left | right; auto].
Qed.

Lemma fromEntries_lookup (entries : list (string * string)) (key text : string) :
  NoDup (map fst entries) ->
  fromEntries entries !! key = Some text <-> (key, text) ∈ entries.
Proof.
  intros Hnodup. unfold fromEntries. rewrite (fold_insert_lookup _ _ _ _ Hnodup).
  rewrite lookup_empty. split; [intros [H|[_ [=]]]; exact H | now left].
Qed.

Lemma NoDup_fst_filter {A B} (f : A * B -> bool) (l : list (A * B)) :
  NoDup (map fst l) -> NoDup (map fst (List.filter f l)).
Proof.
  induction l as [|x l IH]; cbn; [auto|].
  intros Hnodup. apply NoDup_cons in Hnodup as [Hx Hnodup].
  destruct (f x); cbn; [|now apply IH].
  apply NoDup_cons. split; [|now apply IH].
  intros Hin. apply Hx. apply list_elem_of_In in Hin.
  apply in_map_iff in Hin as (y & Hy & Hin). apply filter_In in Hin as [Hin _].
  apply list_elem_of_In, in_map_iff. eauto.
Qed.

(** The members of an object that are not null, as [Object.entries] and
    the filter of the parser give them. *)
Lemma kept_members (members : gmap string Json.value) (key : string)
    (value : Json.value) :
  (key, value) ∈ List.filter (fun entry => negb (Json.isNull entry.2))
                   (map_to_list members)
  <-> members !! key = Some value /\ Json.isNull value = false.
Proof.
  rewrite list_elem_of_In, filter_In, <- list_elem_of_In, elem_of_map_to_list.
  cbn. now rewrite negb_true_iff.
Qed.

(** What the entries of the fields mapping are, when every coercion
    returns. *)
Lemma coerced_entries (l : list (string * Json.value))
    (entries : list (string * string)) :
  Forall2 (fun (x : string * Json.value) (y : string * string) =>
             (text ← Json.toString x.2; mret (x.1, text)) = Js.Ok y) l entries ->
  map fst entries = map fst l
  /\ forall key text,
       (key, text) ∈ entries
       <-> exists value, (key, value) ∈ l /\ Json.toString value = Js.Ok text.
Proof.
  induction 1 as [|[k v] [k' t] l entries Hxy _ [IHkeys IH]].
  - split; [reflexivity|]. intros key text. split.
    + intros H. now apply elem_of_nil in H.
    + intros (value & H & _). now apply elem_of_nil in H.
  - cbn in Hxy. destruct (Json.toString v) as [t0|] eqn:Hv; cbn in Hxy; [|discriminate].
    injection Hxy as <- <-. split; [cbn; now rewrite IHkeys|].
    intros key text. rewrite elem_of_cons, IH. split.
    + intros [[= -> ->]|(value & Hin & Ht)].
      * exists v. split; [now left | exact Hv].
      * exists value. split; [now right | exact Ht].
    + intros (value & Hin & Ht). apply elem_of_cons in Hin as [[= -> ->]|Hin].
      * left. congruence.
      * right. eauto.
Qed.

(** C5, as amended: empty output is a success without identifier and
    without fields; output that [JSON.parse] rejects is a success whose
    identifier is the output itself, without fields; output that parses to
    an object all of whose members other than null have a string form is a
    success whose fields are those members in string form, the null
    members left out, and whose identifier is the field [x-things-id] or
    else the field [x-things-ids]; output that parses to anything else, or
    to an object with a member without string form, is treated like output
    that does not parse. *)
Theorem parseXcallOutput_cases (rawOutput : string) :
  (rawOutput = "" ->
   parseXcallOutput rawOutput
   = {| success := true; thingsId := None; callbackParams := None |})
  /\ (rawOutput <> "" -> forall err,
      Json.parse rawOutput = Js.Throw err ->
      parseXcallOutput rawOutput = rawIdentifier rawOutput)
  /\ (rawOutput <> "" -> forall members,
      Json.parse rawOutput = Js.Ok (Json.JObject members) ->
      coercible members ->
      exists fields,
        parseXcallOutput rawOutput
        = {| success := true;
             thingsId := match fields !! "x-things-id" with
                         | Some id => Some id
                         | None => fields !! "x-things-ids"
                         end;
             callbackParams := Some fields |}
        /\ coerced members fields)
  /\ (rawOutput <> "" -> forall value,
      Json.parse rawOutput = Js.Ok value ->
      (forall members, value <> Json.JObject members) ->
      parseXcallOutput rawOutput = rawIdentifier rawOutput)
  /\ (rawOutput <> "" -> forall members key value err,
      Json.parse rawOutput = Js.Ok (Json.JObject members) ->
      members !! key = Some value -> Json.isNull value = false ->
      Json.toString value = Js.Throw err ->
      parseXcallOutput rawOutput = rawIdentifier rawOutput).
Proof.
  split; [intros ->; reflexivity|].
  assert (rawOutput <> "" -> Js.truthy rawOutput = true) as Htruthy
    by (destruct rawOutput; [congruence | reflexivity]).
  unfold parseXcallOutput, parseCallback.
  split; [|split; [|split]].
  - intros Hraw err ->. now rewrite (Htruthy Hraw).
  - intros Hraw members -> Hcoercible. rewrite (Htruthy Hraw). cbn.
    match goal with
    | |- context [mapM ?f ?l] => destruct (mapM_total f l) as [entries Hentries]
    end.
    { apply Forall_forall. intros [key value] Hin.
      apply kept_members in Hin as [Hin Hnull].
      destruct (Hcoercible key value Hin Hnull) as [text Htext].
      cbn. rewrite Htext. cbn. eexists. reflexivity. }
    rewrite Hentries. cbn. eexists. split; [reflexivity|].
    apply mapM_Ok, coerced_entries in Hentries as [Hkeys Hentries].
    intros key text. rewrite fromEntries_lookup.
    + rewrite Hentries. split.
      * intros (value & Hin & Htext). apply kept_members in Hin as [Hin Hnull].
        eauto.
      * intros (value & Hin & Hnull & Htext). exists value.
        split; [now apply kept_members | exact Htext].
    + rewrite Hkeys. apply NoDup_fst_filter, NoDup_fst_map_to_list.
  - intros Hraw value -> Hother. rewrite (Htruthy Hraw). cbn.
    destruct value; try reflexivity. now destruct (Hother members).
  - intros Hraw members key value err -> Hin Hnull Hthrow.
    rewrite (Htruthy Hraw). cbn.
    match goal with
    | |- context [mapM ?f ?l] =>
        destruct (mapM_Throw f l (key, value) err) as [e' ->]
    end.
    + now apply kept_members.
    + cbn. now rewrite Hthrow.
    + reflexivity.
Qed.

(** The answer to a created item, as the specification gives it. *)
Lemma parseXcallOutput_cases_witness :
  exists fields,
    parseXcallOutput (Samples.member "x-things-id" (Js.quoted "abc"))
    = {| success := true;
         thingsId := match fields !! "x-things-id" with
                     | Some id => Some id
                     | None => fields !! "x-things-ids"
                     end;
         callbackParams := Some fields |}
    /\ fields !! "x-things-id" = Some "abc".
Proof.
  destruct (parseXcallOutput_cases
              (Samples.member "x-things-id" (Js.quoted "abc")))
    as (_ & _ & Hobject & _).
  destruct (Hobject ltac:(discriminate)
              ({[ "x-things-id" := Json.JString "abc" ]}
               : gmap string Json.value))
    as (fields & Hresult & Hfields).
  { vm_compute. reflexivity. }
  { intros key value Hin _.
    apply lookup_singleton_Some in Hin as [_ <-]. eexists. reflexivity. }
  exists fields. split; [exact Hresult|].
  apply Hfields. exists (Json.JString "abc").
  split; [apply lookup_singleton_eq|]. split; reflexivity.
Defined.

(** C5, as stated, fails on an object with a null member: the member has
    a string form, and the fields mapping does not hold it. *)
Lemma parseXcallOutput_drops_null :
  Json.parse (Samples.member "x-things-id" "null")
  = Js.Ok (Json.JObject {[ "x-things-id" := Json.JNull ]})
  /\ Json.toString Json.JNull = Js.Ok "null"
  /\ exists fields,
       callbackParams (parseXcallOutput (Samples.member "x-things-id" "null"))
       = Some fields
       /\ ~ (forall key value,
               ({[ "x-things-id" := Json.JNull ]} : gmap string Json.value) !! key
               = Some value ->
               exists text, Json.toString value = Js.Ok text
                            /\ fields !! key = Some text).
Proof.
  split; [vm_compute; reflexivity|]. split; [reflexivity|].
  eexists. split; [vm_compute; reflexivity|].
  intros H. destruct (H "x-things-id" Json.JNull (lookup_singleton_eq _ _))
    as (text & _ & Hfield).
  vm_compute in Hfield. discriminate Hfield.
Qed.

(** The examples of the specification. *)
Example parseXcallOutput_examples :
  thingsId (parseXcallOutput (Samples.member "x-things-id" (Js.quoted "abc")))
  = Some "abc"
  /\ thingsId (parseXcallOutput (Samples.member "x-things-ids" (Js.quoted "a,b")))
     = Some "a,b"
  /\ parseXcallOutput "abc123" = rawIdentifier "abc123"
  /\ parseXcallOutput ""
     = {| success := true; thingsId := None; callbackParams := None |}
  /\ parseXcallOutput "[1,2]" = rawIdentifier "[1,2]"
  /\ parseXcallOutput "12" = rawIdentifier "12"
  /\ parseXcallOutput (Samples.member "a" (Samples.member "toString" "1"))
     = rawIdentifier (Samples.member "a" (Samples.member "toString" "1")).
Proof. repeat split; vm_compute; reflexivity. Qed.

End ParseClaims.

(** ** The credential *)

Section CredentialClaims.

Import Host Exec Tools HostSpec.

(** Without a credential, or with an empty one, [requireAuthToken] throws
    and leaves the state alone. *)
Lemma requireAuthToken_missing (w : World) (st : State) :
  Js.truthy_opt (THINGS_AUTH_TOKEN w) = false ->
  requireAuthToken w st = (st, Js.Throw missingAuthToken).
Proof.
  unfold requireAuthToken, mbind, M_bind, ask.
  destruct (THINGS_AUTH_TOKEN w) as [[|c t]|];
    cbn; [reflexivity | discriminate | reflexivity].
Qed.

(** [executeUrl] does not look at the credential. *)
Lemma executeUrl_withToken (url : string) (token : option string)
    (w : World) (st : State) :
  executeUrl url (withToken token w) st = executeUrl url w st.
Proof.
  assert (forall st', executeWithXcall url (withToken token w) st'
                      = executeWithXcall url w st') as Hxcall.
  { intros st'. unfold executeWithXcall, mbind, M_bind, spawn. cbn.
    destruct (ending (run w _ _)) as [[[| |]|]|]; reflexivity. }
  assert (forall st', executeWithOpen url (withToken token w) st'
                      = executeWithOpen url w st') as Hopen.
  { intros st'. unfold executeWithOpen, mbind, M_bind, spawn. cbn.
    destruct (ending (run w _ _)) as [[[| |]|]|]; reflexivity. }
  unfold executeUrl, mbind, M_bind, isXcallAvailable. cbn.
  destruct (xcallAvailable st) as [[]|]; [apply Hxcall | apply Hopen |].
  destruct (xcallInstalled w); [apply Hxcall | apply Hopen].
Qed.

(** Sequencing keeps independence of the credential. *)
Lemma bind_withToken {A B} (m : M A) (k : A -> M B) (token : option string)
    (w : World) (st : State) :
  (forall st', m (withToken token w) st' = m w st') ->
  (forall a st', k a (withToken token w) st' = k a w st') ->
  (m ≫= k) (withToken token w) st = (m ≫= k) w st.
Proof.
  intros Hm Hk. unfold mbind, M_bind. rewrite Hm.
  destruct (m w st) as [st' [a|e]]; [apply Hk | reflexivity].
Qed.

(** C6: when the credential variable is unset (or empty) the update tools
    fail with the error that tells how to obtain and configure the token,
    whatever their parameters, and leave the state as it was: no process
    was spawned, so no URL was dispatched, and the xcall probe was not
    run; the creation tools and the read tools answer the same whatever
    the credential variable holds; the bulk tool, given no update item
    and no credential, dispatches its URL without credential, and given an
    update item fails like the update tools. *)
Theorem update_tools_require_credential (w : World) (st : State) :
  Js.truthy_opt (THINGS_AUTH_TOKEN w) = false ->
  (forall params, UpdateTodo.handler params w st = (st, Js.Throw missingAuthToken))
  /\ (forall params,
        UpdateProject.handler params w st = (st, Js.Throw missingAuthToken))
  /\ Js.includes "Things → Settings → General → Enable Things URLs → Manage"
       (Js.message missingAuthToken) = true
  /\ Js.includes "THINGS_AUTH_TOKEN" (Js.message missingAuthToken) = true
  /\ (forall token params,
        AddTodo.handler params (withToken token w) st = AddTodo.handler params w st)
  /\ (forall token params,
        AddProject.handler params (withToken token w) st
        = AddProject.handler params w st)
  /\ (forall stringify params,
        existsb
          (fun item =>
             match item !! "operation" with
             | Some (Json.JString operation) => String.eqb operation "update"
             | _ => false
             end)
          (AddJson.items params) = false ->
        THINGS_AUTH_TOKEN w = None ->
        AddJson.handler stringify params w st
        = (result ← executeUrl
                      (Url.buildJsonUrl (stringify (AddJson.items params)) None
                         (AddJson.reveal params));
           mret (text ("Processed "
                       +:+ Js.Z_toString (Z.of_nat (length (AddJson.items params)))
                       +:+ " item"
                       +:+ (if (length (AddJson.items params) =? 1)%nat
                            then "" else "s")
                       +:+ idInfo "IDs" result))) w st)
  /\ (forall stringify params,
        existsb
          (fun item =>
             match item !! "operation" with
             | Some (Json.JString operation) => String.eqb operation "update"
             | _ => false
             end)
          (AddJson.items params) = true ->
        AddJson.handler stringify params w st = (st, Js.Throw missingAuthToken))
  /\ (forall token filters,
        getTodos filters (withToken token w) st = getTodos filters w st)
  /\ (forall token id, getTodo id (withToken token w) st = getTodo id w st)
  /\ (forall token filters,
        getProjects filters (withToken token w) st = getProjects filters w st)
  /\ (forall token id, getProject id (withToken token w) st = getProject id w st)
  /\ (forall token, getAreas (withToken token w) st = getAreas w st)
  /\ (forall token, getTags (withToken token w) st = getTags w st).
Proof.
  intros Hmissing.
  split.
  { intros params. unfold UpdateTodo.handler, mbind, M_bind.
    now rewrite (requireAuthToken_missing w st Hmissing). }
  split.
  { intros params. unfold UpdateProject.handler, mbind, M_bind.
    now rewrite (requireAuthToken_missing w st Hmissing). }
  split; [vm_compute; reflexivity|]. split; [vm_compute; reflexivity|].
  split.
  { intros token params. unfold AddTodo.handler.
    apply bind_withToken; [intros; apply executeUrl_withToken | reflexivity]. }
  split.
  { intros token params. unfold AddProject.handler.
    apply bind_withToken; [intros; apply executeUrl_withToken | reflexivity]. }
  split.
  { intros stringify params Hcreate Hunset. unfold AddJson.handler.
    rewrite Hcreate. unfold getAuthToken, mbind, M_bind, ask, mret, M_ret.
    now rewrite Hunset. }
  split.
  { intros stringify params Hupdate. unfold AddJson.handler.
    rewrite Hupdate. unfold mbind, M_bind.
    now rewrite (requireAuthToken_missing w st Hmissing). }
  repeat split.
Qed.

(** On a host without credential the update of a to-do fails at once and
    spawns nothing. *)
Lemma update_tools_require_credential_witness :
  UpdateTodo.handler Samples.renameTodo Samples.bare Samples.fresh
  = (Samples.fresh, Js.Throw missingAuthToken).
Proof.
  exact (proj1 (update_tools_require_credential Samples.bare Samples.fresh
                  eq_refl) Samples.renameTodo).
Defined.

(** With a credential the same call builds the URL and dispatches it. *)
Example update_with_credential :
  UpdateTodo.handler Samples.renameTodo
    (withToken (Some "secret") Samples.bare) Samples.fresh
  = ({| xcallAvailable := Some false;
        spawned :=
          [("open", ["things:///update?auth-token=secret&id=abc&title=Updated"])] |},
     Js.Ok (text "Updated to-do abc")).
Proof. vm_compute. reflexivity. Qed.

End CredentialClaims.

(** ** Further properties of the sources *)

Section Further.

Import Db.

(** The status classification is closed: code 3 is completed, code 2 is
    canceled, every other code is open. *)
Theorem mapStatus_closed (code : Z) :
  (mapStatus code = Completed <-> code = 3%Z)
  /\ (mapStatus code = Canceled <-> code = 2%Z)
  /\ (mapStatus code = Open <-> code <> 3%Z /\ code <> 2%Z).
Proof.
  unfold mapStatus.
  destruct (Z.eqb_spec code 3) as [->|H3]; [repeat split; try easy; now intros []|].
  destruct (Z.eqb_spec code 2) as [->|H2]; repeat split; try easy; now intros [].
Qed.

(** The start codes 0, 1 and 2 are the three buckets; any other code, and
    NULL, is no bucket. *)
Theorem mapStart_buckets (code : option Z) :
  (mapStart code = Some Inbox <-> code = Some 0%Z)
  /\ (mapStart code = Some Anytime <-> code = Some 1%Z)
  /\ (mapStart code = Some Someday <-> code = Some 2%Z)
  /\ (mapStart code = None
      <-> code <> Some 0%Z /\ code <> Some 1%Z /\ code <> Some 2%Z).
Proof.
  destruct code as [z|]; [|cbn; repeat split; easy].
  assert (z = 0 \/ z = 1 \/ z = 2
          \/ (z <> 0 /\ z <> 1 /\ z <> 2 /\ mapStart (Some z) = None))%Z
    as [->|[->|[->|(H0 & H1 & H2 & Hnone)]]].
  { destruct z as [|[[p|p|]|[p|p|]|]|p]; cbn; auto;
      right; right; right; repeat split; easy. }
  - cbn. repeat split; try easy; now intros (? & ? & ?).
  - cbn. repeat split; try easy; now intros (? & ? & ?).
  - cbn. repeat split; try easy; now intros (? & ? & ?).
  - rewrite Hnone. repeat split; try easy; congruence.
Qed.

(** Today's day number is the floor of the days since the reference
    instant: every instant of a day has the number of that day. *)
Theorem todayAsDayInteger_floor (now : Z) :
  Dates.todayAsDayInteger now = ((now - 978307200 * 1000) / 86400000)%Z.
Proof.
  unfold Dates.todayAsDayInteger, Dates.CORE_DATA_EPOCH. cbn.
  f_equal; lia.
Qed.

(** The batch loaders answer an empty set of ids with an empty map. *)
Theorem batchLoad_empty (database : Database) :
  batchLoadTags database [] = ∅ /\ batchLoadChecklists database [] = ∅.
Proof. split; reflexivity. Qed.

(** The to-do [queryTodoById] returns is a to-do row of the uuid asked
    for. *)
Theorem queryTodoById_todo_row (database : Database) (id : string) (todo : Todo) :
  queryTodoById database id = Js.Ok (Some todo) ->
  uuid todo = id
  /\ exists t, t ∈ tasks database /\ t_uuid t = id /\ t_type t = 0%Z.
Proof.
  intros H. apply queryTodoById_areaId_own in H as (t & Hin & Hid & Htype & Hu & _).
  split; [exact Hu|]. exists t. auto.
Qed.

Lemma queryTodoById_todo_row_witness :
  exists todo,
    queryTodoById Samples.office "todo-today-1" = Js.Ok (Some todo)
    /\ uuid todo = "todo-today-1"
    /\ queryTodoById Samples.office "proj-2" = Js.Ok None.
Proof.
  eexists. split; [vm_compute; reflexivity|]. split; [|vm_compute; reflexivity].
  exact (proj1 (queryTodoById_todo_row Samples.office "todo-today-1" _ eq_refl)).
Defined.

(** [JSON.parse] and [String] on sample texts. *)
Example json_samples :
  Json.parse (Samples.member "a" "[1, 2.50, -0, true, null]")
  = Js.Ok (Json.JObject
             {[ "a" := Json.JArray [Json.JNumber 1 0; Json.JNumber 250 (-2);
                                    Json.JNumber 0 0; Json.JBool true;
                                    Json.JNull] ]})
  /\ Json.toString
       (Json.JArray [Json.JNumber 1 0; Json.JNumber 250 (-2); Json.JNumber 0 0;
                     Json.JBool true; Json.JNull; Json.JObject ∅])
     = Js.Ok "1,2.5,0,true,,[object Object]"
  /\ Json.parse "[1,]" = Js.Throw (Js.SyntaxError "")
  /\ Json.parse "01" = Js.Throw (Js.SyntaxError "")
  /\ Json.parse "abc123" = Js.Throw (Js.SyntaxError "")
  /\ Json.parse " [ ] " = Js.Ok (Json.JArray []).
Proof. repeat split; vm_compute; reflexivity. Qed.

(** [Number::toString] on sample numbers. *)
Example number_samples :
  Js.Number_toString 1 (-1) = "0.1"
  /\ Js.Number_toString 1 21 = "1e+21"
  /\ Js.Number_toString 1 (-7) = "1e-7"
  /\ Js.Number_toString 123456789012345680000 0 = "123456789012345680000"
  /\ Js.Number_toString 9007199254740993 0 = "9007199254740992"
  /\ Js.Number_toString (-15) (-1) = "-1.5"
  /\ Js.Number_toString 1 400 = "Infinity".
Proof. repeat split; vm_compute; reflexivity. Qed.

End Further.

Section UriTheorems.
Import Uri UriSpec Url.

Lemma hexOctet_percent (c : ascii) (rest : string) :
  hexOctet (String (Js.hexDigit (N_of_ascii c / 16))
              (String (Js.hexDigit (N_of_ascii c mod 16)) rest))
  = Some (N_of_ascii c, rest).
Proof. destruct c as [[] [] [] [] [] [] [] []]; reflexivity. Qed.

(** An ASCII character comes back from its encoding. *)
Lemma decode_ascii (c : ascii) (fuel : nat) (rest : string) :
  (N_of_ascii c <? 128)%N = true ->
  decode (S fuel) ((if Js.unreserved c then String c "" else Js.percent c) +:+ rest)
  = String c <$> decode fuel rest.
Proof. destruct c as [[] [] [] [] [] [] [] []]; intros H; try discriminate H; reflexivity. Qed.

Lemma unreserved_ascii (c : ascii) :
  Js.unreserved c = true -> (N_of_ascii c <? 128)%N = true.
Proof. destruct c as [[] [] [] [] [] [] [] []]; intros H; try discriminate H; reflexivity. Qed.

(** A character outside ASCII is encoded octet by octet. *)
Lemma encode_high (c : ascii) (s : string) :
  (128 <= N_of_ascii c)%N ->
  Js.encodeURIComponent (String c s)
  = String "%" (String (Js.hexDigit (N_of_ascii c / 16))
                  (String (Js.hexDigit (N_of_ascii c mod 16))
                     (Js.encodeURIComponent s))).
Proof.
  intros H. cbn [Js.encodeURIComponent].
  destruct (Js.unreserved c) eqn:E; [|reflexivity].
  apply unreserved_ascii in E. octets. lia.
Qed.

Lemma escapes_high (n : nat) (c : ascii) (s : string) :
  (128 <= N_of_ascii c)%N ->
  escapes (S n) (Js.encodeURIComponent (String c s))
  = '(octets, rest) ← escapes n (Js.encodeURIComponent s);
    Some (N_of_ascii c :: octets, rest).
Proof.
  intros H. rewrite (encode_high _ _ H). cbn [escapes].
  rewrite hexOctet_percent. reflexivity.
Qed.

Lemma decode_high (fuel : nat) (c : ascii) (s : string) :
  (128 <= N_of_ascii c)%N ->
  decode (S fuel) (Js.encodeURIComponent (String c s))
  = let n := leadingOnes (N_of_ascii c) in
    if (n =? 1)%nat || (4 <? n)%nat then None
    else
      '(more, rest) ← escapes (n - 1) (Js.encodeURIComponent s);
      if validSequence (N_of_ascii c :: more)
      then String.append (octetString (N_of_ascii c :: more)) <$> decode fuel rest
      else None.
Proof.
  intros H. rewrite (encode_high _ _ H). cbn [decode Ascii.eqb Bool.eqb negb].
  rewrite hexOctet_percent. cbn [mbind option_bind].
  unfold leadingOnes at 1.
  destruct (N_of_ascii c <? 128)%N eqn:E; [octets; lia|].
  unfold leadingOnes.  rewrite E.
  repeat (match goal with |- context [(?a <? ?b)%N] => destruct (a <? b)%N end;
          try reflexivity).
Qed.

Lemma encode_longer (s : string) :
  (String.length s <= String.length (Js.encodeURIComponent s))%nat.
Proof.
  induction s as [|c s IH]; [reflexivity|].
  cbn [Js.encodeURIComponent]. rewrite slength_app.
  destruct (Js.unreserved c); cbn; lia.
Qed.

(** [decode] undoes [encodeURIComponent] on the strings of the embedding. *)
Lemma decode_encode (fuel : nat) (s : string) :
  wellFormed s = true -> (String.length s < fuel)%nat ->
  decode fuel (Js.encodeURIComponent s) = Some s.
Proof.
  revert s. induction fuel as [|fuel IH]; intros s Hwf Hlen; [lia|].
  destruct s as [|a s]; [reflexivity|].
  cbn [wellFormed] in Hwf. cbv zeta in Hwf.
  destruct (validSequence [N_of_ascii a]) eqn:E1.
  { cbn [Js.encodeURIComponent]. rewrite decode_ascii by exact E1.
    rewrite IH; [reflexivity | exact Hwf | cbn in Hlen; lia]. }
  assert (128 <= N_of_ascii a)%N as Ha by (cbn in E1; octets; lia).
  rewrite (decode_high _ _ _ Ha). cbv zeta.
  destruct s as [|b s]; [discriminate|].
  destruct (validSequence [N_of_ascii a; N_of_ascii b]) eqn:E2.
  { pose proof E2 as V. cbn in E2. unfold between in E2. octets.
    replace (leadingOnes (N_of_ascii a)) with 2%nat
      by (unfold leadingOnes;
          repeat (match goal with |- context [(?a <? ?b)%N] => destruct (a <? b)%N eqn:? end;
                  octets; try lia)).
    cbn [Nat.eqb Nat.ltb Nat.leb orb Nat.sub].
    rewrite escapes_high by lia. cbn [escapes mbind option_bind].
    rewrite V. cbn [octetString map String.string_of_list_ascii].
    rewrite !ascii_N_embedding.
    rewrite IH; [reflexivity | exact Hwf | cbn in Hlen; lia]. }
  destruct s as [|c s]; [discriminate|].
  destruct (validSequence [N_of_ascii a; N_of_ascii b; N_of_ascii c]) eqn:E3.
  { pose proof E3 as V. cbn in E3. unfold between in E3.
    replace (leadingOnes (N_of_ascii a)) with 3%nat
      by (unfold leadingOnes; octets;
          repeat (match goal with |- context [(?a <? ?b)%N] => destruct (a <? b)%N eqn:? end;
                  octets; try lia)).
    cbn [Nat.eqb Nat.ltb Nat.leb orb Nat.sub].
    rewrite escapes_high by (octets; lia).
    rewrite escapes_high by (octets; lia). cbn [escapes mbind option_bind].
    rewrite V. cbn [octetString map String.string_of_list_ascii].
    rewrite !ascii_N_embedding.
    rewrite IH; [reflexivity | exact Hwf | cbn in Hlen; lia]. }
  destruct s as [|d s]; [discriminate|].
  apply andb_true_iff in Hwf as [E4 Hwf].
  pose proof E4 as V. cbn in E4. unfold between in E4.
  replace (leadingOnes (N_of_ascii a)) with 4%nat
    by (unfold leadingOnes; octets;
        repeat (match goal with |- context [(?a <? ?b)%N] => destruct (a <? b)%N eqn:? end;
                octets; try lia)).
  cbn [Nat.eqb Nat.ltb Nat.leb orb Nat.sub].
  rewrite escapes_high by (octets; lia).
  rewrite escapes_high by (octets; lia).
  rewrite escapes_high by (octets; lia). cbn [escapes mbind option_bind].
  rewrite V. cbn [octetString map String.string_of_list_ascii].
  rewrite !ascii_N_embedding.
  rewrite IH; [reflexivity | exact Hwf | cbn in Hlen; lia].
Qed.


(** X1: on a string of the embedding (a sequence of encoded code points)
    [decodeURIComponent] gives back what [encode] was given; so the text
    behind [data=] in the URL [buildJsonUrl] returns without credential
    and reveal decodes to the serialized items, as the tests of url.ts
    read it back; and [encode] maps different strings to different
    texts. *)
Theorem encode_round_trip (s : string) :
  wellFormed s = true ->
  decodeURIComponent (encode s) = Some s
  /\ decodeURIComponent
       (Js.drop (String.length "things:///x-callback-url/json?data=")
          (buildJsonUrl s None None))
     = Some s
  /\ forall t, wellFormed t = true -> encode s = encode t -> s = t.
Proof.
  intros Hs.
  assert (forall t, wellFormed t = true -> decodeURIComponent (encode t) = Some t)
    as Hback.
  { intros t Ht. apply decode_encode; [exact Ht|].
    pose proof (encode_longer t). unfold encode. lia. }
  split; [exact (Hback s Hs)|]. split; [exact (Hback s Hs)|].
  intros t Ht Heq. apply Hback in Hs, Ht. rewrite Heq in Hs. congruence.
Qed.

Lemma encode_round_trip_witness :
  Uri.decodeURIComponent (Url.encode "Buy milk & é") = Some "Buy milk & é".
Proof. exact (proj1 (encode_round_trip "Buy milk & é" eq_refl)). Defined.

(** *** The delimiters of the query *)

Lemma count_app (x : ascii) (a b : string) :
  count x (a +:+ b) = (count x a + count x b)%nat.
Proof. induction a as [|c a IH]; cbn; [reflexivity | rewrite IH; lia]. Qed.

Lemma all_app (p : ascii -> bool) (a b : string) :
  all p (a +:+ b) = all p a && all p b.
Proof.
  induction a as [|c a IH]; cbn; [reflexivity|]. now rewrite IH, andb_assoc.
Qed.

Lemma encode_byte_plain (c : ascii) :
  plain (if Js.unreserved c then String c "" else Js.percent c).
Proof. destruct c as [[] [] [] [] [] [] [] []]; repeat split. Qed.

Lemma plain_app (a b : string) : plain a -> plain b -> plain (a +:+ b).
Proof.
  intros (Ha & Ha1 & Ha2 & Ha3) (Hb & Hb1 & Hb2 & Hb3). unfold plain.
  rewrite all_app, !count_app, Ha, Hb, Ha1, Ha2, Ha3, Hb1, Hb2, Hb3. auto.
Qed.

Lemma encode_plain (s : string) : plain (encode s).
Proof.
  induction s as [|c s IH]; [repeat split|].
  unfold encode in *. cbn [Js.encodeURIComponent].
  apply plain_app; [apply encode_byte_plain | exact IH].
Qed.

Lemma item_assign (key value : string) :
  plain key -> plain value -> item (key +:+ "=" +:+ value).
Proof.
  intros (Ha & Ha1 & Ha2 & Ha3) (Hb & Hb1 & Hb2 & Hb3). unfold item.
  rewrite !all_app, !count_app, Ha, Hb, Ha1, Ha2, Ha3, Hb1, Hb2, Hb3.
  repeat split; cbn; lia.
Qed.

Lemma items_item (params : Params) (authToken : option string) :
  Forall item (items params authToken).
Proof.
  unfold items. apply Forall_app. split.
  - destruct (Js.truthy_opt authToken); [|constructor].
    constructor; [|constructor].
    apply (item_assign "auth-token"); [repeat split | apply encode_plain].
  - induction params as [|[k v] ps IH]; cbn; [constructor|].
    destruct (UrlSpec.emitted (k, v)) as [text|] eqn:E; [|exact IH].
    constructor; [|exact IH].
    unfold UrlSpec.emitted in E. cbn in E.
    destruct v as [v|[]|]; try discriminate E; injection E as <-.
    + apply item_assign; apply encode_plain.
    + apply (item_assign _ "true"); [apply encode_plain | repeat split].
    + apply (item_assign _ "false"); [apply encode_plain | repeat split].
Qed.

Lemma join_items (l : list string) :
  Forall item l ->
  all urlChar (Js.join "&" l) = true
  /\ count "?" (Js.join "&" l) = 0%nat
  /\ count "&" (Js.join "&" l) = (length l - 1)%nat
  /\ count "=" (Js.join "&" l) = length l.
Proof.
  induction 1 as [|p l (Hp & Hp1 & Hp2 & Hp3) Hl (IH & IH1 & IH2 & IH3)];
    [repeat split|].
  destruct l as [|q l]; [cbn; repeat split; auto|].
  rewrite join_cons, !all_app, !count_app, Hp, Hp1, Hp2, Hp3, IH, IH1, IH2, IH3.
  cbn. repeat split; lia.
Qed.

(** What [buildUrl] returns, in terms of its query items. *)
Lemma buildUrl_items (command : ThingsCommand) (params : Params)
    (authToken : option string) :
  buildUrl command params authToken
  = UrlSpec.commandUrl command (items params authToken).
Proof.
  unfold items. destruct authToken as [[|c tok]|].
  - rewrite buildUrl_empty_token. apply buildUrl_None.
  - apply buildUrl_Some. discriminate.
  - apply buildUrl_None.
Qed.

(** X2: a URL [buildUrl] returns is made of unreserved characters, of
    the percent sign of the escapes and of the delimiters [: / ? & =]
    only; it has one [?] exactly when it has a query item, one [=] for
    every item (the credential, when it is not empty, and every defined
    parameter) and one [&] between two items: no key and no value adds,
    splits or ends an item. *)
Theorem buildUrl_delimiters (command : ThingsCommand) (params : Params)
    (authToken : option string) :
  let url := buildUrl command params authToken in
  let n := length (items params authToken) in
  all urlChar url = true
  /\ count "?" url = Nat.min 1 n
  /\ count "&" url = (n - 1)%nat
  /\ count "=" url = n.
Proof.
  cbv zeta. rewrite buildUrl_items.
  pose proof (join_items _ (items_item params authToken)) as (H & H1 & H2 & H3).
  destruct (items params authToken) as [|p l] eqn:E.
  - destruct command; repeat split.
  - unfold UrlSpec.commandUrl.
    rewrite !all_app, !count_app, H, H1, H2, H3.
    destruct command; cbn; repeat split; lia.
Qed.

(** X3: the direct form of a URL [buildJsonUrl] returns is
    [things:///json?] with the same items: the data first, then the
    credential when it is not empty, then [reveal=true] when reveal is
    true; [toDirectUrl] applied again leaves it alone. *)
Theorem toDirectUrl_buildJsonUrl (data : string) (authToken : option string)
    (reveal : option bool) :
  toDirectUrl (buildJsonUrl data authToken reveal)
  = "things:///json?data=" +:+ Js.encodeURIComponent data
    +:+ (if Js.truthy_opt authToken
         then "&auth-token=" +:+ encode (default "" authToken) else "")
    +:+ match reveal with Some true => "&reveal=true" | _ => "" end
  /\ toDirectUrl (toDirectUrl (buildJsonUrl data authToken reveal))
     = toDirectUrl (buildJsonUrl data authToken reveal).
Proof.
  set (parts :=
         ["data=" +:+ Js.encodeURIComponent data]
         ++ (if Js.truthy_opt authToken
             then ["auth-token=" +:+ encode (default "" authToken)] else [])
         ++ match reveal with Some true => ["reveal=true"] | _ => [] end).
  assert (buildJsonUrl data authToken reveal = UrlSpec.commandUrl Json parts) as ->.
  { subst parts. unfold buildJsonUrl, Js.push.
    destruct authToken as [[|c tok]|], reveal as [[]|]; reflexivity. }
  rewrite toDirectUrl_commandUrl. split.
  - subst parts. cbn [app UrlSpec.directUrl]. rewrite join_amp.
    destruct (Js.truthy_opt authToken), reveal as [[]|]; cbn;
      rewrite ?sapp_assoc, ?sapp_nil_r; cbn; rewrite ?sapp_nil_r; reflexivity.
  - apply toDirectUrl_fixed_iff, directUrl_direct. subst parts.
    apply Forall_app. split.
    { repeat constructor. rewrite lacks_app.
      apply (encode_lacks_colon data). }
    apply Forall_app. split.
    + destruct (Js.truthy_opt authToken); repeat constructor.
      rewrite lacks_app. apply encode_lacks_colon.
    + destruct reveal as [[]|]; repeat constructor.
Qed.

End UriTheorems.

Section ExecTheorems.

Import Host Url Exec Tools ExecSpec.

(** What the [try] block of the parser returns is a success. *)
Lemma parseCallback_success (rawOutput : string) (r : ExecuteResult) :
  parseCallback rawOutput = Js.Ok (Some r) -> success r = true.
Proof.
  unfold parseCallback. destruct (Json.parse rawOutput) as [value|]; cbn; [|discriminate].
  destruct value; cbn; try discriminate.
  match goal with
  | |- context [mapM ?f ?l] => destruct (mapM f l)
  end; cbn; [|discriminate].
  intros [= <-]. reflexivity.
Qed.

Lemma parseXcallOutput_success (rawOutput : string) :
  success (parseXcallOutput rawOutput) = true.
Proof.
  unfold parseXcallOutput. destruct (Js.truthy rawOutput); [|reflexivity]. cbn.
  destruct (parseCallback rawOutput) as [[r|]|] eqn:E; [|reflexivity|reflexivity].
  eapply parseCallback_success, E.
Qed.

(** [executeUrl], step by step. *)
Lemma executeUrl_unfold (url : string) (w : World) (st : State) :
  executeUrl url w st
  = let st' := {| xcallAvailable := Some (probe w st);
                  spawned := spawned st ++ [launch (probe w st) url] |} in
    let proc := run w (launch (probe w st) url).1 (launch (probe w st) url).2 in
    (st',
     match ending proc with
     | Close (Some 0%Z) =>
         Js.Ok (if probe w st then parseXcallOutput (Text.trim (stdout proc))
                else {| success := true; thingsId := None; callbackParams := None |})
     | Close code =>
         Js.Throw
           (Js.Error
              (if probe w st
               then "xcall failed (code " +:+ codeText code +:+ "): "
                    +:+ Text.trim (stderr proc)
               else "open command failed with code " +:+ codeText code))
     | Failed err => Js.Throw err
     end).
Proof.
  unfold executeUrl, isXcallAvailable, mbind, M_bind.
  destruct st as [[available|] sp];
    cbv [probe default from_option id xcallAvailable Host.spawned];
    [|set (available := xcallInstalled w)];
    destruct available;
    cbv [executeWithXcall executeWithOpen mbind M_bind spawn launch fst snd
         xcallAvailable Host.spawned];
    match goal with
    | |- context [ending ?p] => destruct (ending p) as [[[| |]|]|]
    end; reflexivity.
Qed.

(** X4: the [success] field of a result is never false: not in what the
    parser returns, whatever the output, and not in what [executeUrl]
    returns; a failure is an exception, never a result. *)
Theorem success_always :
  (forall rawOutput, success (parseXcallOutput rawOutput) = true)
  /\ (forall rawOutput, success (_parseXcallOutput rawOutput) = true)
  /\ (forall url w st st' r,
        executeUrl url w st = (st', Js.Ok r) -> success r = true).
Proof.
  split; [apply parseXcallOutput_success|].
  split; [intros; apply parseXcallOutput_success|].
  intros url w st st' r. rewrite executeUrl_unfold. cbv zeta.
  destruct (ending _) as [[[| |]|]|]; try discriminate.
  intros [= _ <-]. destruct (probe w st); [apply parseXcallOutput_success | reflexivity].
Qed.

Lemma success_always_witness :
  exists st' r,
    executeUrl "things:///x-callback-url/version" Samples.bare Samples.fresh
    = (st', Js.Ok r)
    /\ success r = true.
Proof.
  eexists _, _. split; [vm_compute; reflexivity|].
  refine (proj2 (proj2 success_always) "things:///x-callback-url/version"
            Samples.bare Samples.fresh _ _ _).
  vm_compute. reflexivity.
Defined.

(** X5: [executeUrl] spawns exactly one process, whether it succeeds or
    not: xcall with the URL when xcall is available, or else [open] with
    the direct form of the URL.  It leaves the answer of the probe in the
    cache, and from then on the cache decides: a later call, whatever the
    file system then holds, launches the same program. *)
Theorem executeUrl_launches_once (url : string) (w : World) (st : State) :
  let st' := (executeUrl url w st).1 in
  xcallAvailable st' = Some (probe w st)
  /\ spawned st' = spawned st ++ [launch (probe w st) url]
  /\ forall url2 w2,
       spawned (executeUrl url2 w2 st').1
       = spawned st ++ [launch (probe w st) url; launch (probe w st) url2].
Proof.
  cbv zeta. rewrite executeUrl_unfold. cbn [fst].
  split; [reflexivity|]. split; [reflexivity|].
  intros url2 w2. rewrite executeUrl_unfold. cbn.
  now rewrite <- app_assoc.
Qed.


Lemma requireAuthToken_state (w : World) (st : State) :
  (requireAuthToken w st).1 = st.
Proof.
  unfold requireAuthToken, mbind, M_bind, ask.
  destruct (THINGS_AUTH_TOKEN w) as [[|c t]|]; reflexivity.
Qed.

(** What follows [executeUrl] when [open] is the launcher. *)
Lemma bind_executeUrl_open {B} (url : string) (k : ExecuteResult -> M B)
    (w : World) (st st' : State) (b : B) :
  probe w st = false ->
  (executeUrl url ≫= k) w st = (st', Js.Ok b) ->
  exists st1,
    k {| success := true; thingsId := None; callbackParams := None |} w st1
    = (st', Js.Ok b).
Proof.
  intros Hprobe. unfold mbind at 1, M_bind at 1. rewrite executeUrl_unfold.
  cbv zeta. rewrite Hprobe.
  destruct (ending _) as [[[| |]|]|]; try discriminate.
  intros H. eexists. exact H.
Qed.

(** X6: when [open] is the launcher, a result of [executeUrl] has no id
    and no fields, so the answers of the tools that create or update
    something end after the label: they name no id. *)
Theorem open_reports_no_id (w : World) (st : State) :
  probe w st = false ->
  (forall url st' r,
     executeUrl url w st = (st', Js.Ok r) ->
     r = {| success := true; thingsId := None; callbackParams := None |})
  /\ (forall params st' r,
        AddTodo.handler params w st = (st', Js.Ok r) ->
        r = text ("Created " +:+ AddTodo.label params))
  /\ (forall params st' r,
        AddProject.handler params w st = (st', Js.Ok r) ->
        r = text ("Created project " +:+ Js.quoted (AddProject.title params)))
  /\ (forall params st' r,
        UpdateTodo.handler params w st = (st', Js.Ok r) ->
        r = text ("Updated to-do " +:+ UpdateTodo.id params))
  /\ (forall params st' r,
        UpdateProject.handler params w st = (st', Js.Ok r) ->
        r = text ("Updated project " +:+ UpdateProject.id params))
  /\ (forall stringify params st' r,
        AddJson.handler stringify params w st = (st', Js.Ok r) ->
        r = text ("Processed "
                  +:+ Js.Z_toString (Z.of_nat (length (AddJson.items params)))
                  +:+ " item"
                  +:+ (if (length (AddJson.items params) =? 1)%nat then "" else "s"))).
Proof.
  intros Hprobe.
  split.
  { intros url st' r. rewrite executeUrl_unfold. cbv zeta. rewrite Hprobe.
    destruct (ending _) as [[[| |]|]|]; try discriminate. now intros [= _ <-]. }
  split.
  { intros params st' r H. apply (bind_executeUrl_open _ _ _ _ _ _ Hprobe) in H as [st1 H].
    injection H as _ <-. cbn [idInfo thingsId]. now rewrite !sapp_nil_r. }
  split.
  { intros params st' r H. apply (bind_executeUrl_open _ _ _ _ _ _ Hprobe) in H as [st1 H].
    injection H as _ <-. cbn [idInfo thingsId]. now rewrite !sapp_nil_r. }
  split.
  { intros params st' r. unfold UpdateTodo.handler. unfold mbind at 1, M_bind at 1.
    pose proof (requireAuthToken_state w st) as Hst.
    destruct (requireAuthToken w st) as [st0 [token|]]; [|discriminate].
    cbn in Hst. subst st0. intros H.
    apply (bind_executeUrl_open _ _ _ _ _ _ Hprobe) in H as [st1 H].
    injection H as _ <-. cbn [idInfo thingsId]. now rewrite !sapp_nil_r. }
  split.
  { intros params st' r. unfold UpdateProject.handler. unfold mbind at 1, M_bind at 1.
    pose proof (requireAuthToken_state w st) as Hst.
    destruct (requireAuthToken w st) as [st0 [token|]]; [|discriminate].
    cbn in Hst. subst st0. intros H.
    apply (bind_executeUrl_open _ _ _ _ _ _ Hprobe) in H as [st1 H].
    injection H as _ <-. cbn [idInfo thingsId]. now rewrite !sapp_nil_r. }
  intros stringify params st' r. unfold AddJson.handler.
  unfold mbind at 1, M_bind at 1.
  match goal with
  | |- context [(if ?c then _ else _) w st] =>
      assert (((if c then token ← requireAuthToken; mret (Some token)
                else getAuthToken) w st).1 = st) as Hst
  end.
  { destruct (existsb _ _).
    - unfold mbind, M_bind. pose proof (requireAuthToken_state w st) as Hst.
      destruct (requireAuthToken w st) as [st0 [token|]]; exact Hst.
    - reflexivity. }
  match type of Hst with
  | (?m w st).1 = st => destruct (m w st) as [st0 [token|]]; [|discriminate]
  end.
  cbn in Hst. subst st0. intros H.
  apply (bind_executeUrl_open _ _ _ _ _ _ Hprobe) in H as [st1 H].
  injection H as _ <-. cbn [idInfo thingsId]. now rewrite !sapp_nil_r.
Qed.

Lemma open_reports_no_id_witness :
  probe Samples.bare Samples.fresh = false
  /\ exists st' r,
       AddTodo.handler Examples.buyMilk Samples.bare Samples.fresh = (st', Js.Ok r)
       /\ r = text ("Created to-do " +:+ Js.quoted "Buy milk").
Proof.
  split; [reflexivity|]. eexists _, _. split; [vm_compute; reflexivity|].
  exact (proj1 (proj2 (open_reports_no_id Samples.bare Samples.fresh eq_refl))
           Examples.buyMilk _ _ eq_refl).
Defined.

(** X7: [show] with neither an id nor a query (an empty text counts as
    none) answers with an error and spawns nothing; with one of them it
    spawns exactly one process, on a URL of the [show] command with a
    query, and what it then answers is not an error. *)
Theorem show_needs_target (params : ShowTool.Params) (w : World) (st : State) :
  (Js.truthy_opt (ShowTool.id params) = false ->
   Js.truthy_opt (ShowTool.query params) = false ->
   ShowTool.handler params w st
   = (st, Js.Ok (errorText "Either 'id' or 'query' is required for show.")))
  /\ (Js.truthy_opt (ShowTool.id params) || Js.truthy_opt (ShowTool.query params)
      = true ->
      exists url,
        Js.startsWith "things:///x-callback-url/show?" url = true
        /\ spawned (ShowTool.handler params w st).1
           = spawned st ++ [launch (probe w st) url]
        /\ forall r, (ShowTool.handler params w st).2 = Js.Ok r -> isError r = false).
Proof.
  unfold ShowTool.handler. split.
  - intros -> ->. reflexivity.
  - intros Hgiven. apply orb_true_iff in Hgiven.
    replace (negb (Js.truthy_opt (ShowTool.id params))
             && negb (Js.truthy_opt (ShowTool.query params))) with false
      by (destruct Hgiven as [-> | ->]; cbn; now rewrite ?andb_false_r).
    eexists. split; [|split].
    2:{ unfold mbind at 1, M_bind at 1. rewrite executeUrl_unfold. cbv zeta.
        destruct (ending _) as [[[| |]|]|]; reflexivity. }
    + rewrite buildUrl_None.
      destruct params as [[[|c i]|] [[|d q]|] f]; cbn in Hgiven;
        try (destruct Hgiven; discriminate); reflexivity.
    + intros r. unfold mbind at 1, M_bind at 1. rewrite executeUrl_unfold. cbv zeta.
      destruct (ending _) as [[[| |]|]|]; try discriminate.
      cbn. now intros [= <-].
Qed.

Lemma show_needs_target_witness :
  ShowTool.handler
    {| ShowTool.id := Some ""; ShowTool.query := None; ShowTool.filter := Some "urgent" |}
    Samples.bare Samples.fresh
  = (Samples.fresh,
     Js.Ok (errorText "Either 'id' or 'query' is required for show.")).
Proof.
  exact (proj1 (show_needs_target
                  {| ShowTool.id := Some ""; ShowTool.query := None;
                     ShowTool.filter := Some "urgent" |}
                  Samples.bare Samples.fresh) eq_refl eq_refl).
Defined.

(** [getAppVersion], step by step. *)
Lemma getAppVersion_unfold (w : World) (st : State) :
  GetVersion.getAppVersion w st
  = let proc := run w osascript.1 osascript.2 in
    ({| xcallAvailable := xcallAvailable st;
        spawned := spawned st ++ [osascript] |},
     match ending proc with
     | Close (Some 0%Z) => Js.Ok (Text.trim (stdout proc))
     | Close _ => Js.Throw (Js.Error ("osascript failed: " +:+ Text.trim (stderr proc)))
     | Failed err => Js.Throw err
     end).
Proof.
  unfold GetVersion.getAppVersion, mbind, M_bind, spawn, osascript. cbn [fst snd].
  destruct (ending _) as [[[| |]|]|]; reflexivity.
Qed.


(** X9: without xcall, when [open] ends well, [get-version] always asks
    [osascript], since [open] returns no fields: it answers with the app
    version, the trimmed output of [osascript], and the advice to install
    xcall, or, when [osascript] fails, with the error of that failure. *)
Theorem getVersion_without_xcall (w : World) (st : State) :
  probe w st = false ->
  ending (run w "open" ["things:///version"]) = Close (Some 0%Z) ->
  let proc := run w osascript.1 osascript.2 in
  GetVersion.handler w st
  = ({| xcallAvailable := Some false;
        spawned := spawned st ++ [("open", ["things:///version"]); osascript] |},
     Js.Ok
       match ending proc with
       | Close (Some 0%Z) =>
           text ("Things app version: " +:+ Text.trim (stdout proc) +:+ ". "
                 +:+ "Install xcall to also return URL scheme/client version fields.")
       | Close _ =>
           errorText ("Failed to get version: osascript failed: "
                      +:+ Text.trim (stderr proc))
       | Failed err => errorText ("Failed to get version: " +:+ Js.message err)
       end).
Proof.
  intros Hprobe Hopen proc.
  unfold GetVersion.handler, GetVersion.catch.
  unfold mbind at 1, M_bind at 1. rewrite executeUrl_unfold. cbv zeta.
  rewrite Hprobe.
  change (buildUrl Version [] None) with "things:///x-callback-url/version".
  change (launch false "things:///x-callback-url/version")
    with ("open", ["things:///version"]).
  cbn [fst snd]. rewrite Hopen. cbn [callbackParams mbind option_bind Js.truthy_opt orb].
  unfold mbind at 1, M_bind at 1. rewrite getAppVersion_unfold. cbv zeta.
  fold proc. clearbody proc.
  destruct (ending proc) as [[[| |]|]|]; cbn; rewrite <- app_assoc; reflexivity.
Qed.

Lemma getVersion_without_xcall_witness :
  GetVersion.handler Samples.bare Samples.fresh
  = ({| xcallAvailable := Some false;
        spawned := [("open", ["things:///version"]); osascript] |},
     Js.Ok (text ("Things app version: . "
                  +:+ "Install xcall to also return URL scheme/client version fields."))).
Proof.
  exact (getVersion_without_xcall Samples.bare Samples.fresh eq_refl eq_refl).
Defined.

End ExecTheorems.

Section UpdateTheorems.

Import Host Url Exec Tools ExecSpec UrlSpec.

Lemma requireAuthToken_present (w : World) (st : State) (tok : string) :
  THINGS_AUTH_TOKEN w = Some tok -> tok <> "" ->
  requireAuthToken w st = (st, Js.Ok tok).
Proof.
  intros Htok Hne. unfold requireAuthToken, mbind, M_bind, ask. rewrite Htok.
  destruct tok; [congruence | reflexivity].
Qed.

(** The URL of an update: the credential, then the id, then the rest. *)
Lemma update_url (command : ThingsCommand) (id tok : string) (others : Params) :
  tok <> "" ->
  buildUrl command (("id", PString id) :: others) (Some tok)
  = "things:///x-callback-url/" +:+ commandName command +:+ "?auth-token="
    +:+ encode tok +:+ "&id=" +:+ encode id +:+ trailing (omap emitted others).
Proof.
  intros Hne. rewrite (buildUrl_Some _ _ _ Hne). unfold commandUrl.
  rewrite join_amp.
  change (omap emitted (("id", PString id) :: others))
    with (("id=" +:+ encode id) :: omap emitted others).
  cbn [trailing]. rewrite !sapp_assoc. reflexivity.
Qed.

(** X10: with a credential in the environment that is not empty, the URL
    an update tool launches is the callback path of its command, then
    [?auth-token=] and the encoded credential, then [&id=] and the encoded
    id, then the other parameters. *)
Theorem update_tools_send_credential (w : World) (st : State) (tok : string) :
  THINGS_AUTH_TOKEN w = Some tok -> tok <> "" ->
  (forall params, exists rest,
     spawned (UpdateTodo.handler params w st).1
     = spawned st
       ++ [launch (probe w st)
             ("things:///x-callback-url/update?auth-token=" +:+ encode tok
              +:+ "&id=" +:+ encode (UpdateTodo.id params) +:+ rest)])
  /\ (forall params, exists rest,
        spawned (UpdateProject.handler params w st).1
        = spawned st
          ++ [launch (probe w st)
                ("things:///x-callback-url/update-project?auth-token=" +:+ encode tok
                 +:+ "&id=" +:+ encode (UpdateProject.id params) +:+ rest)]).
Proof.
  intros Htok Hne. split; intros params.
  - unfold UpdateTodo.handler. unfold mbind at 1, M_bind at 1.
    rewrite (requireAuthToken_present w st tok Htok Hne).
    unfold mbind at 1, M_bind at 1.
    change (UpdateTodo.urlParams params)
      with (("id", PString (UpdateTodo.id params)) :: tail (UpdateTodo.urlParams params)).
    rewrite (update_url Update _ _ _ Hne). generalize (tail (UpdateTodo.urlParams params)).
    intros others. exists (trailing (omap emitted others)).
    rewrite executeUrl_unfold. cbv zeta.
    destruct (ending _) as [[[| |]|]|]; reflexivity.
  - unfold UpdateProject.handler. unfold mbind at 1, M_bind at 1.
    rewrite (requireAuthToken_present w st tok Htok Hne).
    unfold mbind at 1, M_bind at 1.
    change (UpdateProject.urlParams params)
      with (("id", PString (UpdateProject.id params))
            :: tail (UpdateProject.urlParams params)).
    rewrite (update_url UpdateProject _ _ _ Hne).
    generalize (tail (UpdateProject.urlParams params)).
    intros others. exists (trailing (omap emitted others)).
    rewrite executeUrl_unfold. cbv zeta.
    destruct (ending _) as [[[| |]|]|]; reflexivity.
Qed.

Lemma update_tools_send_credential_witness :
  exists rest,
    spawned (UpdateTodo.handler Samples.renameTodo
               (HostSpec.withToken (Some "secret") Samples.bare) Samples.fresh).1
    = [("open", ["things:///update?auth-token=secret&id=abc" +:+ rest])].
Proof.
  destruct (proj1 (update_tools_send_credential
                     (HostSpec.withToken (Some "secret") Samples.bare)
                     Samples.fresh "secret" eq_refl ltac:(discriminate))
              Samples.renameTodo) as [rest H].
  exists rest. rewrite H. reflexivity.
Defined.

End UpdateTheorems.

Section TrimTheorems.

Import Text TextSpec Url.

Lemma list_of_append (a b : string) :
  String.list_ascii_of_string (a +:+ b)
  = String.list_ascii_of_string a ++ String.list_ascii_of_string b.
Proof. induction a as [|c a IH]; cbn; [reflexivity | now rewrite IH]. Qed.

Lemma string_of_app (l k : list ascii) :
  String.string_of_list_ascii (l ++ k)
  = String.string_of_list_ascii l +:+ String.string_of_list_ascii k.
Proof. induction l as [|c l IH]; cbn; [reflexivity | now rewrite IH]. Qed.

Lemma reverse_append (a b : string) : reverse (a +:+ b) = reverse b +:+ reverse a.
Proof. unfold reverse. now rewrite list_of_append, rev_app_distr, string_of_app. Qed.

Lemma reverse_involutive (s : string) : reverse (reverse s) = s.
Proof.
  unfold reverse.
  now rewrite String.list_ascii_of_string_of_list_ascii, rev_involutive,
    String.string_of_list_ascii_of_string.
Qed.

Lemma reverse_length (s : string) : String.length (reverse s) = String.length s.
Proof.
  unfold reverse. rewrite <- (String.string_of_list_ascii_of_string s) at 2.
  generalize (String.list_ascii_of_string s). intros l.
  assert (forall k, String.length (String.string_of_list_ascii k) = length k) as Hlen
    by (induction k; cbn; auto).
  now rewrite !Hlen, length_rev.
Qed.

Lemma blanks_append (a b : string) : blanks (a +:+ b) = blanks a && blanks b.
Proof. induction a as [|c a IH]; cbn; [reflexivity | now rewrite IH, andb_assoc]. Qed.

Lemma blanks_reverse (s : string) : blanks (reverse s) = blanks s.
Proof.
  induction s as [|c s IH]; [reflexivity|].
  change (String c s) with (String c "" +:+ s).
  rewrite reverse_append, !blanks_append, IH. cbn. now rewrite andb_true_r, andb_comm.
Qed.

(** A blank character is dropped, from either end. *)
Lemma find_blank (c : ascii) (s : string) :
  blank c = true ->
  List.find (fun w => Js.startsWith w (String c s)) whitespaceBytes
  = Some (String c "")
  /\ List.find (fun w => Js.startsWith w (String c s)) (map reverse whitespaceBytes)
     = Some (String c "").
Proof.
  destruct c as [[] [] [] [] [] [] [] []]; intros H; try discriminate H;
    split; reflexivity.
Qed.

(** A visible character stops the trimming, at either end. *)
Lemma find_visible (s : string) :
  startsVisible s = true \/ s = "" ->
  List.find (fun w => Js.startsWith w s) whitespaceBytes = None
  /\ List.find (fun w => Js.startsWith w s) (map reverse whitespaceBytes) = None.
Proof.
  intros [H| ->]; [|split; reflexivity].
  destruct s as [|c s]; [discriminate|]. cbn in H.
  destruct c as [[] [] [] [] [] [] [] []]; try discriminate H; split; reflexivity.
Qed.

Lemma trimWith_blanks (spaces : list string) (fuel : nat) (ws s : string) :
  (spaces = whitespaceBytes \/ spaces = map reverse whitespaceBytes) ->
  blanks ws = true -> (String.length ws <= fuel)%nat ->
  startsVisible s = true \/ s = "" ->
  trimWith spaces fuel (ws +:+ s) = s.
Proof.
  intros Hspaces Hws Hfuel Hs. revert fuel Hfuel.
  induction ws as [|c ws IH]; intros fuel Hfuel.
  - cbn [String.append]. destruct fuel as [|fuel]; [reflexivity|]. cbn [trimWith].
    destruct (find_visible s Hs) as [H1 H2].
    destruct Hspaces as [-> | ->]; [now rewrite H1 | now rewrite H2].
  - cbn in Hws. apply andb_true_iff in Hws as [Hc Hws].
    destruct fuel as [|fuel]; [cbn in Hfuel; lia|].
    cbn [String.append trimWith].
    destruct (find_blank c (ws +:+ s) Hc) as [H1 H2].
    destruct Hspaces as [-> | ->]; [rewrite H1 | rewrite H2];
      cbn [String.length Js.drop]; apply IH; auto; cbn in Hfuel; lia.
Qed.

(** X11: ASCII white space around the output of xcall does not matter:
    [_parseXcallOutput] answers blank output like empty output, and
    output with blank text before and behind a text that starts and ends
    with a visible character like that text alone. *)
Theorem output_whitespace_ignored (before after : string) :
  blanks before = true -> blanks after = true ->
  (trim (before +:+ after) = ""
   /\ _parseXcallOutput (before +:+ after)
      = {| success := true; thingsId := None; callbackParams := None |})
  /\ forall s,
       startsVisible s = true -> endsVisible s = true ->
       trim (before +:+ s +:+ after) = s
       /\ _parseXcallOutput (before +:+ s +:+ after) = parseXcallOutput s.
Proof.
  intros Hb Ha.
  assert (trim (before +:+ after) = "") as Hblank.
  { unfold trim, trimStart.
    rewrite <- (sapp_nil_r (before +:+ after)) at 2.
    rewrite (trimWith_blanks whitespaceBytes _ (before +:+ after) "");
      [reflexivity | now left | | | now right].
    - now rewrite blanks_append, Hb, Ha.
    - reflexivity. }
  assert (forall s, startsVisible s = true -> endsVisible s = true ->
                    trim (before +:+ s +:+ after) = s) as Htrim.
  { intros s Hs He. unfold trim, trimStart.
    rewrite (trimWith_blanks whitespaceBytes _ before (s +:+ after));
      [| now left | exact Hb | rewrite !slength_app; lia
       | left; destruct s; [discriminate | exact Hs]].
    unfold trimEnd. rewrite reverse_append.
    rewrite (trimWith_blanks _ _ (reverse after) (reverse s));
      [apply reverse_involutive | now right | now rewrite blanks_reverse | | now left].
    rewrite reverse_length, slength_app. lia. }
  split.
  - split; [exact Hblank|]. unfold _parseXcallOutput. now rewrite Hblank.
  - intros s Hs He. split; [now apply Htrim|].
    unfold _parseXcallOutput. now rewrite Htrim.
Qed.

Lemma output_whitespace_ignored_witness :
  _parseXcallOutput
    ("  " +:+ Samples.member "x-things-id" (Js.quoted "abc")
     +:+ String (ascii_of_N 10) "")
  = parseXcallOutput (Samples.member "x-things-id" (Js.quoted "abc")).
Proof.
  exact (proj2 (proj2 (output_whitespace_ignored "  " (String (ascii_of_N 10) "")
                         eq_refl eq_refl)
                  (Samples.member "x-things-id" (Js.quoted "abc")) eq_refl eq_refl)).
Defined.

End TrimTheorems.

Section DateTheorems.

Import Dates.

(** The years of the days from 1000-01-01 to 9999-12-31. *)
Lemma civilFromDays_year (days : Z) :
  (-354285 <= days <= 2932896)%Z ->
  (1000 <= (Js.civilFromDays days).1.1 <= 9999)%Z.
Proof.
  intros H. unfold Js.civilFromDays. cbv zeta. cbn [fst snd].
  set (z := (days + 719468)%Z).
  set (era := (z / 146097)%Z).
  set (doe := (z - era * 146097)%Z).
  set (yoe := ((doe - doe / 1460 + doe / 36524 - doe / 146096) / 365)%Z).
  set (doy := (doe - (365 * yoe + yoe / 4 - yoe / 100))%Z).
  set (mp := ((5 * doy + 2) / 153)%Z).
  set (m := (if (mp <? 10)%Z then mp + 3 else mp - 9)%Z).
  assert ((mp < 10 /\ m = mp + 3 \/ 10 <= mp /\ m = mp - 9)%Z) as Hm.
  { subst m. destruct (Z.ltb_spec mp 10); [left | right]; auto. }
  assert (exists y, y = (if (m <=? 2)%Z then yoe + era * 400 + 1 else yoe + era * 400)%Z
                    /\ (m <= 2 /\ y = yoe + era * 400 + 1
                        \/ 2 < m /\ y = yoe + era * 400)%Z) as (y & -> & Hy).
  { eexists. split; [reflexivity|].
    destruct (Z.leb_spec m 2); [left | right]; auto. }
  clearbody m.
  enough (forall y, (m <= 2 /\ y = yoe + era * 400 + 1
                     \/ 2 < m /\ y = yoe + era * 400)%Z -> (1000 <= y <= 9999)%Z)
    by auto.
  clear Hy. intros y Hy.
  subst mp doy yoe doe era z. Z.div_mod_to_equations. lia.
Qed.

(** A year of four digits needs no padding. *)
Lemma pad_year (y : Z) : (1000 <= y <= 9999)%Z -> Js.pad 4 y = Js.Z_toString y.
Proof.
  intros H.
  assert (forallb
            (fun i => String.eqb (Js.pad 4 (1000 + Z.of_nat i))
                        (Js.Z_toString (1000 + Z.of_nat i)))
            (seq 0 (Z.to_nat 9000)) = true) as Hall by (vm_compute; reflexivity).
  rewrite forallb_forall in Hall.
  specialize (Hall (Z.to_nat (y - 1000))).
  replace (1000 + Z.of_nat (Z.to_nat (y - 1000)))%Z with y in Hall by lia.
  apply String.eqb_eq, Hall, in_seq. lia.
Qed.

Lemma Qabs_inject_le (t c : Z) :
  (- c <= t <= c)%Z -> (Qabs (inject_Z t) <= inject_Z c)%Q.
Proof.
  intros H. apply Qabs_Qle_condition. split; unfold Qle; cbn; lia.
Qed.

(** X13: the two date utilities agree on the calendar date: for a day
    number from -365608 to 2921573, which are the days from 1000-01-01 to
    9999-12-31, [coreDataTimestampToISO] of the first second of the day is
    [dayIntegerToDate] of the day followed by [T00:00:00.000Z]. *)
Theorem dates_agree (dayInt : Z) :
  (-365608 <= dayInt <= 2921573)%Z ->
  coreDataTimestampToISO (inject_Z (dayInt * 86400))
  = Js.Ok (dayIntegerToDate dayInt +:+ "T00:00:00.000Z").
Proof.
  intros H.
  unfold coreDataTimestampToISO, dayIntegerToDate, CORE_DATA_EPOCH.
  set (t := ((dayInt * 86400 + 978307200) * 1000)%Z).
  assert (Js.newDate ((inject_Z (dayInt * 86400) + inject_Z 978307200) * inject_Z 1000)
          = Some t) as ->.
  { unfold Js.newDate.
    assert ((inject_Z (dayInt * 86400) + inject_Z 978307200) * inject_Z 1000
            == inject_Z t)%Q as E.
    { subst t. rewrite <- inject_Z_plus, <- inject_Z_mult. reflexivity. }
    replace (Qle_bool _ _) with true.
    - f_equal. unfold Js.Qtrunc. cbn. subst t. rewrite Z.quot_1_r. lia.
    - symmetry. apply Qle_bool_iff. rewrite E. apply Qabs_inject_le.
      subst t. lia. }
  assert (Js.newDate (inject_Z t) = Some t) as ->.
  { unfold Js.newDate. replace (Qle_bool _ _) with true.
    - f_equal. unfold Js.Qtrunc. cbn. apply Z.quot_1_r.
    - symmetry. apply Qle_bool_iff. apply Qabs_inject_le. subst t. lia. }
  unfold Js.toISOString.
  assert (t / Js.msPerDay = dayInt + 11323)%Z as Hday
    by (subst t; unfold Js.msPerDay; Z.div_mod_to_equations; lia).
  assert (t mod Js.msPerDay = 0)%Z as ->
    by (subst t; unfold Js.msPerDay; Z.div_mod_to_equations; lia).
  pose proof (civilFromDays_year (dayInt + 11323) ltac:(lia)) as Hyear.
  unfold Js.getUTCFullYear, Js.getUTCMonth, Js.getUTCDate. rewrite Hday.
  set (civil := Js.civilFromDays (dayInt + 11323)) in *.
  replace ((0 <=? civil.1.1)%Z && (civil.1.1 <=? 9999)%Z) with true
    by (symmetry; apply andb_true_iff; split; apply Z.leb_le; lia).
  rewrite (pad_year _ Hyear).
  change (Js.pad 2 (0 / 3600000)) with "00".
  change (Js.pad 2 (0 / 60000 mod 60)) with "00".
  change (Js.pad 2 (0 / 1000 mod 60)) with "00".
  change (Js.pad 3 (0 mod 1000)) with "000".
  unfold Js.pad. f_equal.
  rewrite !sapp_assoc. reflexivity.
Qed.

Lemma dates_agree_witness :
  coreDataTimestampToISO (inject_Z (9437 * 86400))
  = Js.Ok "2026-11-03T00:00:00.000Z".
Proof. exact (dates_agree 9437 ltac:(lia)). Defined.

End DateTheorems.

Section Sorting.

Context {A : Type} (le : A -> A -> bool).
Hypothesis le_total : forall x y, le x y = true \/ le y x = true.
Hypothesis le_trans : forall x y z, le x y = true -> le y z = true -> le x z = true.

Lemma insertBy_first (x : A) (l : list A) :
  Forall (fun y => le x y = true) l -> Sql.insertBy le x l = x :: l.
Proof. destruct 1 as [|y l Hy _]; cbn; [reflexivity | now rewrite Hy]. Qed.

Lemma insertBy_sorted (x : A) (l : list A) :
  StronglySorted (fun a b => le a b = true) l ->
  StronglySorted (fun a b => le a b = true) (Sql.insertBy le x l).
Proof.
  induction 1 as [|y l Hl IH Hy]; cbn.
  - repeat constructor.
  - destruct (le x y) eqn:E.
    + constructor; [now constructor|].
      constructor; [exact E|].
      eapply Forall_impl; [exact Hy|]. intros z Hz. cbn in Hz. eauto.
    + constructor; [exact IH|].
      rewrite (insertBy_Permutation le x l). constructor; [|exact Hy].
      destruct (le_total x y) as [H|H]; [congruence | exact H].
Qed.

(** [ORDER BY] sorts. *)
Lemma orderBy_sorted (l : list A) :
  StronglySorted (fun a b => le a b = true) (Sql.orderBy le l).
Proof.
  induction l as [|x l IH]; cbn; [constructor | now apply insertBy_sorted].
Qed.

(** Filtering a sorted list and inserting commute. *)
Lemma filter_insertBy (p : A -> bool) (x : A) (l : list A) :
  StronglySorted (fun a b => le a b = true) l ->
  List.filter p (Sql.insertBy le x l)
  = if p x then Sql.insertBy le x (List.filter p l) else List.filter p l.
Proof.
  induction 1 as [|y l Hl IH Hy]; cbn.
  - destruct (p x); reflexivity.
  - destruct (le x y) eqn:E; cbn.
    + destruct (p x) eqn:Ex; [|reflexivity].
      destruct (p y) eqn:Ey; cbn; [now rewrite E|].
      rewrite insertBy_first; [reflexivity|].
      apply Forall_forall. intros z Hz.
      apply list_elem_of_In, filter_In in Hz as [Hz _].
      rewrite Forall_forall in Hy. apply list_elem_of_In in Hz. eauto.
    + rewrite IH. destruct (p y) eqn:Ey, (p x) eqn:Ex; cbn; rewrite ?E; reflexivity.
Qed.

(** A WHERE clause may be applied before or after [ORDER BY]. *)
Lemma filter_orderBy (p : A -> bool) (l : list A) :
  List.filter p (Sql.orderBy le l) = Sql.orderBy le (List.filter p l).
Proof.
  induction l as [|x l IH]; [reflexivity|].
  change (Sql.orderBy le (x :: l)) with (Sql.insertBy le x (Sql.orderBy le l)).
  rewrite filter_insertBy by apply orderBy_sorted.
  rewrite IH. cbn [List.filter]. destruct (p x); reflexivity.
Qed.

End Sorting.


Lemma StronglySorted_map {A B} (R : A -> A -> Prop) (S : B -> B -> Prop)
    (f : A -> B) (l : list A) :
  (forall x y, R x y -> S (f x) (f y)) ->
  StronglySorted R l -> StronglySorted S (map f l).
Proof.
  intros HRS. induction 1 as [|x l Hl IH Hx]; cbn; constructor; [exact IH|].
  apply List.Forall_map. eapply Forall_impl; [exact Hx|]. cbn. auto.
Qed.

Section QueryTheorems.

Import Db DbSpec QuerySpec.

(** What [formatTodo] returns, when it returns. *)
Lemma formatTodo_Ok (r : RawTodoRow) tagsMap checklistMap (todo : Todo) :
  formatTodo r tagsMap checklistMap = Js.Ok todo ->
  uuid todo = r_uuid r
  /\ title todo = r_title r
  /\ notes todo = default "" (r_notes r)
  /\ status todo = mapStatus (r_status r)
  /\ start todo = mapStart (r_start r)
  /\ startDate todo = Dates.dayIntegerToDate <$> r_startDate r
  /\ deadline todo = Dates.dayIntegerToDate <$> r_deadline r
  /\ todayIndex todo = r_todayIndex r
  /\ projectId todo = r_projectId r
  /\ areaId todo = r_areaId r
  /\ headingId todo = r_headingId r
  /\ todoTags todo = default [] (tagsMap !! r_uuid r)
  /\ todoChecklistItems todo = default [] (checklistMap !! r_uuid r)
  /\ rowRenders r.
Proof.
  assert (forall x o, optM Dates.coreDataTimestampToISO x = Js.Ok o ->
                      forall q, x = Some q -> renders q) as Hopt.
  { intros x o H q ->. cbn in H. unfold renders.
    destruct (Dates.coreDataTimestampToISO q); [eauto | discriminate]. }
  unfold formatTodo, rowRenders.
  destruct (Dates.coreDataTimestampToISO (r_creationDate r)) as [c|] eqn:Ec;
    cbn; [|discriminate].
  destruct (optM Dates.coreDataTimestampToISO (r_modificationDate r)) as [m|] eqn:Em;
    cbn; [|discriminate].
  destruct (optM Dates.coreDataTimestampToISO (r_completionDate r)) as [d|] eqn:Ed;
    cbn; [|discriminate].
  intros [= <-]. cbn. repeat split; eauto. unfold renders. eauto.
Qed.



(** The rows [queryTodos] reads satisfy the WHERE clause. *)
Lemma todoRows_where (database : Database) (now : Z) (filters : TodoFilters)
    (r : RawTodoRow) :
  r ∈ todoRows database now filters ->
  exists j, j ∈ todoJoin database
            /\ where_ (todoConditions filters now) j = true
            /\ r = selectTodo j.
Proof.
  unfold todoRows. intros Hr.
  apply list_elem_of_In, in_map_iff in Hr as (j & <- & Hj).
  exists j. rewrite limit_take in Hj. apply list_elem_of_In in Hj.
  apply (subseteq_take _ _ j) in Hj. rewrite orderBy_Permutation in Hj.
  apply list_elem_of_In, filter_In in Hj as [Hj Hw].
  split; [now apply list_elem_of_In|]. split; [exact Hw | reflexivity].
Qed.

(** What [queryTodos] returns, when it returns: the rows read, formatted. *)
Lemma queryTodos_Ok (database : Database) (now : Z) (filters : TodoFilters)
    (todos : list Todo) :
  queryTodos database now filters = Js.Ok todos ->
  exists tagsMap checklistMap,
    Forall2 (fun r todo => formatTodo r tagsMap checklistMap = Js.Ok todo)
      (todoRows database now filters) todos.
Proof.
  unfold queryTodos. set (rows := todoRows database now filters).
  destruct (length (map r_uuid rows) =? 0)%nat eqn:Elen.
  - apply Nat.eqb_eq in Elen. rewrite length_map in Elen.
    apply nil_length_inv in Elen. rewrite Elen. intros [= <-].
    exists ∅, ∅. constructor.
  - intros H. apply mapM_Ok in H. eauto.
Qed.

Lemma queryTodos_elem (database : Database) (now : Z) (filters : TodoFilters)
    (todos : list Todo) (todo : Todo) :
  queryTodos database now filters = Js.Ok todos -> todo ∈ todos ->
  exists j tagsMap checklistMap,
    j ∈ todoJoin database
    /\ where_ (todoConditions filters now) j = true
    /\ formatTodo (selectTodo j) tagsMap checklistMap = Js.Ok todo.
Proof.
  intros H Hin. apply queryTodos_Ok in H as (tagsMap & checklistMap & H).
  apply list_elem_of_lookup in Hin as [i Hi].
  destruct (Forall2_lookup_r _ _ _ _ _ H Hi) as (r & Hr & Hf).
  apply list_elem_of_lookup_2, todoRows_where in Hr as (j & Hj & Hw & ->).
  eauto 6.
Qed.

(** The WHERE clause of [queryTodos], conjunct by conjunct. *)
Lemma todoConditions_where (filters : TodoFilters) (now : Z) (j : Joined) :
  where_ (todoConditions filters now) j
  = (t_type (jt j) =? 0)%Z
    && (isList ListTrash filters || (t_trashed (jt j) =? 0)%Z)
    && match f_list filters with
       | Some l => where_ (listConditions l (Dates.todayAsDayInteger now)) j
       | None => true
       end
    && match f_status filters with
       | Some st => (t_status (jt j) =? statusMap st)%Z
       | None => true
       end
    && (negb (Js.truthy_opt (f_projectId filters))
        || Sql.eq_text (t_project (jt j)) (f_projectId filters))
    && (negb (Js.truthy_opt (f_areaId filters))
        || Sql.eq_text (t_area (jt j)) (f_areaId filters)
        || Sql.eq_text (jp j ≫= t_area) (f_areaId filters))
    && match f_search filters with
       | Some text =>
           negb (Js.truthy text)
           || Sql.like_text (Some (t_title (jt j))) ("%" +:+ text +:+ "%")
           || Sql.like_text (t_notes (jt j)) ("%" +:+ text +:+ "%")
       | None => true
       end.
Proof.
  unfold where_, todoConditions, Js.push.
  destruct (f_search filters) as [text|]; [destruct (Js.truthy text)|];
    destruct (Js.truthy_opt (f_areaId filters));
    destruct (Js.truthy_opt (f_projectId filters));
    destruct (f_status filters) as [st|];
    unfold isList; destruct (f_list filters) as [[]|];
    cbn [app negb listConditions]; rewrite ?forallb_app;
    cbn [forallb negb orb andb app];
    rewrite ?andb_true_r, ?andb_assoc; reflexivity.
Qed.








(** X15: [queryTodos] returns no more to-dos than the limit, when the
    limit is not negative: no more than fifty when no limit is given, and
    none when the limit is 0. *)
Theorem queryTodos_limit
    (database : Database) (now : Z) (filters : TodoFilters) (todos : list Todo) :
  queryTodos database now filters = Js.Ok todos ->
  ((0 <= default 50%Z (f_limit filters))%Z ->
   (length todos <= Z.to_nat (default 50%Z (f_limit filters)))%nat)
  /\ (f_limit filters = None -> (length todos <= 50)%nat)
  /\ (f_limit filters = Some 0%Z -> todos = []).
Proof.
  intros H. apply queryTodos_Ok in H as (tagsMap & checklistMap & H).
  apply Forall2_length in H.
  assert ((0 <= default 50%Z (f_limit filters))%Z ->
          (length todos <= Z.to_nat (default 50%Z (f_limit filters)))%nat) as Hle.
  { intros Hpos. rewrite <- H. unfold todoRows.
    rewrite length_map, limit_take, length_take. unfold limited.
    destruct (Z.ltb_spec (default 50%Z (f_limit filters)) 0); lia. }
  split; [exact Hle|]. split.
  - intros E. rewrite E in Hle. cbn in Hle. apply Hle. lia.
  - intros E. rewrite E in Hle. cbn in Hle.
    apply nil_length_inv. specialize (Hle ltac:(lia)). lia.
Qed.

Lemma queryTodos_limit_witness :
  exists todos,
    queryTodos Samples.crowded Samples.morning (listOnly ListToday None)
    = Js.Ok todos
    /\ (length todos <= 50)%nat.
Proof.
  eexists. split; [vm_compute; reflexivity|].
  refine (proj1 (proj2 (queryTodos_limit Samples.crowded Samples.morning
                          (listOnly ListToday None) _ _)) eq_refl).
  vm_compute. reflexivity.
Defined.




Lemma eq_text_Some (x : option string) (y : string) :
  Sql.eq_text x (Some y) = true <-> x = Some y.
Proof.
  destruct x as [k|]; cbn; [|split; discriminate].
  rewrite String.eqb_eq. split; congruence.
Qed.

Lemma eq_text_eq (x y : option string) :
  Sql.eq_text x y = true -> x = y /\ x <> None.
Proof.
  destruct x as [a|], y as [b|]; cbn; try discriminate.
  rewrite String.eqb_eq. intros ->. split; [reflexivity | discriminate].
Qed.

(** A row a [LEFT JOIN] pairs with is a matching row of the table. *)
Lemma leftJoin_Some {B} (on : B -> bool) (right : list B) (b : B) :
  Some b ∈ Sql.leftJoin on right -> b ∈ right /\ on b = true.
Proof.
  unfold Sql.leftJoin. intros H.
  assert (Some b ∈ map Some (List.filter on right)) as Hin.
  { destruct (List.filter on right); [|exact H].
    apply list_elem_of_singleton in H. discriminate. }
  apply list_elem_of_In, in_map_iff in Hin as (b' & [= ->] & Hin).
  apply filter_In in Hin as [Hin Hon]. split; [now apply list_elem_of_In | exact Hon].
Qed.

(** The parts of a joined row. *)
Lemma todoJoin_parts (database : Database) (j : Joined) :
  j ∈ todoJoin database ->
  jt j ∈ tasks database
  /\ (forall p, jp j = Some p ->
        p ∈ tasks database /\ t_project (jt j) = Some (t_uuid p))
  /\ (forall a, ja j = Some a ->
        a ∈ areas database
        /\ Sql.coalesce (t_area (jt j)) (jp j ≫= t_area) = Some (a_uuid a))
  /\ (forall h, jh j = Some h ->
        h ∈ tasks database /\ t_heading (jt j) = Some (t_uuid h)
        /\ t_type h = 2%Z).
Proof.
  unfold todoJoin. intros Hj.
  apply list_elem_of_bind in Hj as (t & Hj & Ht).
  apply list_elem_of_bind in Hj as (p & Hj & Hp).
  apply list_elem_of_bind in Hj as (a & Hj & Ha).
  apply list_elem_of_bind in Hj as (h & Hj & Hh).
  apply list_elem_of_singleton in Hj. subst j. cbn.
  split; [exact Ht|]. split; [|split].
  - intros p' ->. apply leftJoin_Some in Hp as [Hp Hon].
    split; [exact Hp | now apply eq_text_Some].
  - intros a' ->. apply leftJoin_Some in Ha as [Ha Hon].
    split; [exact Ha | now apply eq_text_Some].
  - intros h' ->. apply leftJoin_Some in Hh as [Hh Hon].
    apply andb_true_iff in Hon as [Hon Htype].
    split; [exact Hh|]. split; [now apply eq_text_Some | now apply Z.eqb_eq].
Qed.

(** The conjuncts of the WHERE clause, one by one. *)
Lemma where_parts (filters : TodoFilters) (now : Z) (j : Joined) :
  where_ (todoConditions filters now) j = true ->
  (t_type (jt j) =? 0)%Z = true
  /\ isList ListTrash filters || (t_trashed (jt j) =? 0)%Z = true
  /\ match f_list filters with
     | Some l => where_ (listConditions l (Dates.todayAsDayInteger now)) j
     | None => true
     end = true
  /\ match f_status filters with
     | Some st => (t_status (jt j) =? statusMap st)%Z
     | None => true
     end = true
  /\ negb (Js.truthy_opt (f_projectId filters))
     || Sql.eq_text (t_project (jt j)) (f_projectId filters) = true
  /\ negb (Js.truthy_opt (f_areaId filters))
     || Sql.eq_text (t_area (jt j)) (f_areaId filters)
     || Sql.eq_text (jp j ≫= t_area) (f_areaId filters) = true
  /\ match f_search filters with
     | Some text =>
         negb (Js.truthy text)
         || Sql.like_text (Some (t_title (jt j))) ("%" +:+ text +:+ "%")
         || Sql.like_text (t_notes (jt j)) ("%" +:+ text +:+ "%")
     | None => true
     end = true.
Proof.
  rewrite todoConditions_where. intros H.
  apply andb_true_iff in H as [H H7]. apply andb_true_iff in H as [H H6].
  apply andb_true_iff in H as [H H5]. apply andb_true_iff in H as [H H4].
  apply andb_true_iff in H as [H H3]. apply andb_true_iff in H as [H1 H2].
  auto 10.
Qed.

Lemma mapStatus_statusMap (st : Status) : mapStatus (statusMap st) = st.
Proof. destruct st; reflexivity. Qed.

(** X17: every to-do [queryTodos] returns is a row of type 0 of the
    task table, so no project and no heading; it is a trashed row when
    the list asked for is the trash, and a row that is not trashed
    otherwise. *)
Theorem queryTodos_only_todos
    (database : Database) (now : Z) (filters : TodoFilters)
    (todos : list Todo) (todo : Todo) :
  queryTodos database now filters = Js.Ok todos -> todo ∈ todos ->
  exists t,
    t ∈ tasks database /\ t_uuid t = uuid todo /\ t_type t = 0%Z
    /\ (f_list filters = Some ListTrash -> t_trashed t = 1%Z)
    /\ (f_list filters <> Some ListTrash -> t_trashed t = 0%Z).
Proof.
  intros H Hin.
  destruct (queryTodos_elem _ _ _ _ _ H Hin)
    as (j & tagsMap & checklistMap & Hj & Hw & Hf).
  apply formatTodo_Ok in Hf as (Hu & _). cbn in Hu.
  apply todoJoin_parts in Hj as (Ht & _).
  apply where_parts in Hw as (Htype & Htrash & Hlist & _).
  exists (jt j). split; [exact Ht|]. split; [now rewrite Hu|].
  split; [now apply Z.eqb_eq|]. split.
  - intros Hl. rewrite Hl in Hlist. cbn in Hlist. rewrite andb_true_r in Hlist.
    now apply Z.eqb_eq in Hlist.
  - intros Hl. unfold isList in Htrash.
    destruct (f_list filters) as [[]|]; try congruence; cbn in Htrash;
      now apply Z.eqb_eq in Htrash.
Qed.

Lemma queryTodos_only_todos_witness :
  exists todos,
    queryTodos Samples.office Samples.morning (listOnly ListToday None)
    = Js.Ok todos
    /\ length todos = 1%nat
    /\ Forall (fun todo =>
                 exists t, t ∈ tasks Samples.office /\ t_uuid t = uuid todo
                           /\ t_type t = 0%Z /\ t_trashed t = 0%Z)
         todos.
Proof.
  destruct (queryTodos Samples.office Samples.morning (listOnly ListToday None))
    as [todos|e] eqn:Hq; [|vm_compute in Hq; discriminate Hq].
  exists todos. split; [reflexivity|]. split.
  { vm_compute in Hq. now injection Hq as <-. }
  apply Forall_forall. intros todo Hin.
  destruct (queryTodos_only_todos _ _ _ _ _ Hq Hin) as (t & ? & ? & ? & _ & Hlive).
  exists t. repeat split; auto.
Defined.


Lemma eq_int_eq (x : option Z) (n : Z) : Sql.eq_int x n = true -> x = Some n.
Proof. destruct x; cbn; [|discriminate]. now intros ->%Z.eqb_eq. Qed.

(** X18: what the list asked for says of every to-do returned: the inbox
    holds open to-dos with start [inbox] and no project; today, open
    to-dos; anytime, open to-dos with start [anytime]; someday, open
    to-dos with start [someday]; upcoming, open to-dos with start
    [anytime] and a start date; the logbook, completed to-dos only, so
    none that was canceled. *)
Theorem queryTodos_in_list
    (database : Database) (now : Z) (filters : TodoFilters) (l : TodoList)
    (todos : list Todo) :
  f_list filters = Some l ->
  queryTodos database now filters = Js.Ok todos ->
  Forall (inList l) todos.
Proof.
  intros Hl H. apply Forall_forall. intros todo Hin.
  destruct (queryTodos_elem _ _ _ _ _ H Hin)
    as (j & tagsMap & checklistMap & Hj & Hw & Hf).
  apply formatTodo_Ok in Hf
    as (_ & _ & _ & Hstatus & Hstart & Hdate & _ & _ & Hproject & _).
  cbn in Hstatus, Hstart, Hdate, Hproject.
  apply where_parts in Hw as (_ & _ & Hlist & _). rewrite Hl in Hlist.
  unfold inList. rewrite Hstatus, Hstart, Hdate, Hproject.
  destruct l; cbn in Hlist; rewrite ?andb_true_r in Hlist;
    repeat match goal with
           | H : _ && _ = true |- _ => apply andb_true_iff in H as [? ?]
           | H : (_ =? _)%Z = true |- _ => apply Z.eqb_eq in H; rewrite H
           | H : Sql.eq_int _ _ = true |- _ => apply eq_int_eq in H; rewrite H
           | H : bool_decide _ = true |- _ => apply bool_decide_eq_true in H
           end;
    auto.
  destruct (t_startDate (jt j)); [|discriminate]. cbn. repeat split. discriminate.
Qed.

Lemma queryTodos_in_list_witness :
  exists todos,
    queryTodos Samples.office Samples.morning (listOnly ListToday None)
    = Js.Ok todos
    /\ length todos = 1%nat
    /\ Forall (fun todo => status todo = Open) todos.
Proof.
  destruct (queryTodos Samples.office Samples.morning (listOnly ListToday None))
    as [todos|e] eqn:Hq; [|vm_compute in Hq; discriminate Hq].
  exists todos. split; [reflexivity|]. split.
  { vm_compute in Hq. now injection Hq as <-. }
  exact (queryTodos_in_list _ _ (listOnly ListToday None) ListToday _ eq_refl Hq).
Defined.

(** X19: every to-do [queryTodos] returns has the status asked for, the
    project asked for, and the area asked for, as its own area or as the
    area of its project. *)
Theorem queryTodos_respects_filters
    (database : Database) (now : Z) (filters : TodoFilters)
    (todos : list Todo) (todo : Todo) :
  queryTodos database now filters = Js.Ok todos -> todo ∈ todos ->
  (forall st, f_status filters = Some st -> status todo = st)
  /\ (forall project,
        f_projectId filters = Some project -> project <> "" ->
        projectId todo = Some project)
  /\ (forall area,
        f_areaId filters = Some area -> area <> "" ->
        areaId todo = Some area
        \/ exists p, p ∈ tasks database /\ projectId todo = Some (t_uuid p)
                     /\ t_area p = Some area).
Proof.
  intros H Hin.
  destruct (queryTodos_elem _ _ _ _ _ H Hin)
    as (j & tagsMap & checklistMap & Hj & Hw & Hf).
  apply formatTodo_Ok in Hf
    as (_ & _ & _ & Hstatus & _ & _ & _ & _ & Hproject & Harea & _).
  cbn in Hstatus, Hproject, Harea.
  apply where_parts in Hw as (_ & _ & _ & Hst & Hp & Ha & _).
  apply todoJoin_parts in Hj as (_ & Hjp & _).
  split; [|split].
  - intros st E. rewrite E in Hst. apply Z.eqb_eq in Hst.
    now rewrite Hstatus, Hst, mapStatus_statusMap.
  - intros project E Hne. rewrite E in Hp.
    destruct project as [|c project]; [congruence|]. cbn in Hp.
    apply eq_text_Some in Hp. now rewrite Hproject.
  - intros area E Hne. rewrite E in Ha.
    destruct area as [|c area]; [congruence|]. cbn [Js.truthy_opt Js.truthy negb orb] in Ha.
    apply orb_true_iff in Ha as [Ha|Ha]; apply eq_text_Some in Ha.
    + left. now rewrite Harea.
    + right. destruct (jp j) as [p|] eqn:Ep; [|discriminate].
      destruct (Hjp p eq_refl) as [Hpin Hpid].
      exists p. split; [exact Hpin|]. split; [now rewrite Hproject | exact Ha].
Qed.


Lemma queryTodos_respects_filters_witness :
  exists todos,
    queryTodos Samples.office Samples.morning Examples.reviews = Js.Ok todos
    /\ length todos = 1%nat
    /\ Forall (fun todo => status todo = Open /\ projectId todo = Some "proj-2")
         todos.
Proof.
  destruct (queryTodos Samples.office Samples.morning Examples.reviews)
    as [todos|e] eqn:Hq; [|vm_compute in Hq; discriminate Hq].
  exists todos. split; [reflexivity|]. split.
  { vm_compute in Hq. now injection Hq as <-. }
  apply Forall_forall. intros todo Hin.
  destruct (queryTodos_respects_filters _ _ _ _ _ Hq Hin) as (Hst & Hp & _).
  split; [exact (Hst Open eq_refl) | exact (Hp "proj-2" eq_refl ltac:(discriminate))].
Defined.

(** *** Search *)

Lemma like_any (s : string) : Sql.like "%" s = true.
Proof. induction s as [|c s IH]; [reflexivity|]. cbn in *. exact IH. Qed.


Lemma like_percent_nil (p : string) :
  Sql.like (String "%" p) "" = Sql.like p "".
Proof. cbn [Sql.like Ascii.eqb Bool.eqb]. now rewrite orb_false_r. Qed.

Lemma like_percent_cons (p : string) (c : ascii) (s : string) :
  Sql.like (String "%" p) (String c s)
  = Sql.like p (String c s) || Sql.like (String "%" p) s.
Proof. reflexivity. Qed.





(** The result of [queryTodos] is a function of the rows read. *)
Lemma queryTodos_todoRows (database : Database) (now : Z)
    (filters1 filters2 : TodoFilters) :
  todoRows database now filters1 = todoRows database now filters2 ->
  queryTodos database now filters1 = queryTodos database now filters2.
Proof. unfold queryTodos. now intros ->. Qed.

(** The rows read are a function of the WHERE clause, the order and the
    limit. *)
Lemma todoRows_where_ext (database : Database) (now : Z)
    (filters1 filters2 : TodoFilters) :
  (forall j, where_ (todoConditions filters1 now) j
             = where_ (todoConditions filters2 now) j) ->
  f_list filters1 = f_list filters2 -> f_limit filters1 = f_limit filters2 ->
  todoRows database now filters1 = todoRows database now filters2.
Proof.
  intros Hw Hl Hn. unfold todoRows, isList. rewrite Hl, Hn.
  now rewrite (List.filter_ext _ _ Hw).
Qed.



Lemma like_percent (p s : string) :
  Sql.like p s = true -> Sql.like (String "%" p) s = true.
Proof.
  intros H. destruct s as [|c s].
  - now rewrite like_percent_nil.
  - now rewrite like_percent_cons, H.
Qed.

(** X22: an empty project id, area id or search text filters nothing:
    the result is the one without it; and neither does the search text
    [%], whose wildcard reaches LIKE as it is. *)
Theorem queryTodos_void_filters
    (database : Database) (now : Z) (filters : TodoFilters) :
  queryTodos database now filters = queryTodos database now (stripped filters)
  /\ queryTodos database now (searching (Some "%") filters)
     = queryTodos database now (searching None filters).
Proof.
  split.
  - apply queryTodos_todoRows, todoRows_where_ext; [|reflexivity|reflexivity].
    intros j. rewrite !todoConditions_where.
    destruct filters as [l [[|c p]|] [[|d a]|] tg [[|e s]|] st n]; reflexivity.
  - apply queryTodos_todoRows, todoRows_where_ext; [|reflexivity|reflexivity].
    intros j. rewrite !todoConditions_where.
    cbn [f_search f_list f_status f_projectId f_areaId searching Js.truthy
         negb orb].
    cbn [Sql.like_text].
    change ("%" +:+ "%" +:+ "%") with (String "%" (String "%" "%")).
    rewrite (like_percent _ _ (like_percent _ _ (like_any (t_title (jt j))))).
    reflexivity.
Qed.

End QueryTheorems.

Section StringOrder.

Lemma ascii_compare_N (a b : ascii) :
  Ascii.compare a b = N.compare (N_of_ascii a) (N_of_ascii b).
Proof. reflexivity. Qed.

Lemma string_compare_trans (s1 s2 s3 : string) :
  String.compare s1 s2 = Lt -> String.compare s2 s3 = Lt ->
  String.compare s1 s3 = Lt.
Proof.
  revert s2 s3. induction s1 as [|a s1 IH]; intros [|b s2] [|d s3]; cbn;
    try congruence.
  rewrite !ascii_compare_N.
  destruct (N_of_ascii a ?= N_of_ascii b)%N eqn:E1; [| |discriminate];
    (destruct (N_of_ascii b ?= N_of_ascii d)%N eqn:E2; [| |discriminate]);
    rewrite ?N.compare_eq_iff, ?N.compare_lt_iff in *.
  - rewrite E1, E2, N.compare_refl. apply IH.
  - intros _ _. rewrite E1. now apply N.compare_lt_iff in E2 as ->.
  - intros _ _. rewrite <- E2. now apply N.compare_lt_iff in E1 as ->.
  - intros _ _. assert (N_of_ascii a < N_of_ascii d)%N as H by lia.
    now apply N.compare_lt_iff in H as ->.
Qed.

Lemma string_compare_eq (s1 s2 : string) : String.compare s1 s2 = Eq <-> s1 = s2.
Proof.
  split; [apply String.compare_eq_iff|]. intros <-.
  induction s1 as [|a s1 IH]; cbn; [reflexivity|].
  now rewrite ascii_compare_N, N.compare_refl.
Qed.

(** The order of the titles is transitive. *)
Lemma string_leb_trans (s1 s2 s3 : string) :
  String.leb s1 s2 = true -> String.leb s2 s3 = true -> String.leb s1 s3 = true.
Proof.
  unfold String.leb.
  destruct (String.compare s1 s2) eqn:E12; [| |discriminate];
    destruct (String.compare s2 s3) eqn:E23; try discriminate; intros _ _.
  - apply string_compare_eq in E12, E23. subst.
    now rewrite (proj2 (string_compare_eq s3 s3) eq_refl).
  - apply string_compare_eq in E12. subst. now rewrite E23.
  - apply string_compare_eq in E23. subst. now rewrite E12.
  - now rewrite (string_compare_trans _ _ _ E12 E23).
Qed.

End StringOrder.

Section Batch.

Import Db BatchSpec.

(** The loop of the batch loaders groups the values by key, in order. *)
Lemma collect_fold {R V} (key : R -> string) (val : R -> V) (rows : list R)
    (m : gmap string (list V)) (k : string) :
  fold_left (fun map row => collect map (key row) (val row)) rows m !! k
  = match m !! k with
    | Some existing =>
        Some (existing
              ++ map val (List.filter (fun r => String.eqb (key r) k) rows))
    | None => entry (map val (List.filter (fun r => String.eqb (key r) k) rows))
    end.
Proof.
  revert m. induction rows as [|r rows IH]; intros m.
  - cbn. destruct (m !! k); [now rewrite app_nil_r | reflexivity].
  - cbn [fold_left List.filter]. rewrite IH. unfold collect.
    destruct (String.eqb_spec (key r) k) as [->|Hne].
    + destruct (m !! k) as [existing|] eqn:E.
      * rewrite lookup_insert_eq. unfold Js.push. cbn. now rewrite <- app_assoc.
      * rewrite lookup_insert_eq. reflexivity.
    + destruct (m !! key r); rewrite lookup_insert_ne by exact Hne; reflexivity.
Qed.

Lemma filter_bind {A B} (p : B -> bool) (f : A -> list B) (l : list A) :
  List.filter p (l ≫= f) = l ≫= (fun x => List.filter p (f x)).
Proof.
  induction l as [|x l IH]; [reflexivity|].
  cbn. now rewrite List.filter_app, IH.
Qed.

Lemma bind_ext {A B} (f g : A -> list B) (l : list A) :
  (forall x, f x = g x) -> l ≫= f = l ≫= g.
Proof. intros H. induction l as [|x l IH]; cbn; [reflexivity | now rewrite H, IH]. Qed.

Lemma bind_nil {A B} (f : A -> list B) (l : list A) :
  (forall x, f x = []) -> l ≫= f = [].
Proof. intros H. induction l as [|x l IH]; cbn; [reflexivity | now rewrite H, IH]. Qed.

Lemma filter_twice {A} (p q : A -> bool) (l : list A) :
  List.filter p (List.filter q l) = List.filter (fun x => q x && p x) l.
Proof.
  induction l as [|x l IH]; [reflexivity|]. cbn.
  destruct (q x); cbn; [destruct (p x); now rewrite IH | exact IH].
Qed.

Lemma inUuids_elem (uuids : list string) (x : string) :
  inUuids uuids x = true <-> x ∈ uuids.
Proof.
  unfold inUuids. rewrite existsb_exists. split.
  - intros (y & Hy & E). apply String.eqb_eq in E. subst. now apply list_elem_of_In.
  - intros H. exists x. split; [now apply list_elem_of_In | apply String.eqb_refl].
Qed.

Lemma NoDup_nil_length {A} (l : list A) : (length l =? 0)%nat = true -> l = [].
Proof. destruct l; [reflexivity | discriminate]. Qed.

(** The entry of a task in the map of [batchLoadTags]. *)
Lemma batchLoadTags_lookup (database : Database) (uuids : list string) (u : string) :
  batchLoadTags database uuids !! u
  = if inUuids uuids u then entry (tagsOf database u) else None.
Proof.
  unfold batchLoadTags.
  destruct (length uuids =? 0)%nat eqn:E.
  { apply NoDup_nil_length in E. subst. now rewrite lookup_empty. }
  rewrite (collect_fold fst snd), lookup_empty.
  rewrite filter_orderBy.
  2:{ intros x y. apply String.leb_total. }
  2:{ intros x y z. apply string_leb_trans. }
  unfold tagsOf.
  rewrite filter_bind.
  destruct (inUuids uuids u) eqn:Hu.
  - f_equal. f_equal. f_equal. apply bind_ext. intros tt.
    rewrite filter_bind. apply bind_ext. intros t.
    destruct (String.eqb_spec (tt_tasks tt) u) as [->|Hne].
    + rewrite Hu. cbn. now rewrite String.eqb_refl.
    + destruct (inUuids uuids (tt_tasks tt)); cbn; [|reflexivity].
      now rewrite (proj2 (String.eqb_neq _ _) Hne).
  - rewrite bind_nil; [reflexivity|]. intros tt.
    rewrite filter_bind. apply bind_nil. intros t.
    destruct (inUuids uuids (tt_tasks tt)) eqn:Ht; [|reflexivity].
    cbn. destruct (String.eqb_spec (tt_tasks tt) u) as [<-|Hne]; [congruence|reflexivity].
Qed.

(** The entry of a task in the map of [batchLoadChecklists]. *)
Lemma batchLoadChecklists_lookup (database : Database) (uuids : list string)
    (u : string) :
  batchLoadChecklists database uuids !! u
  = if inUuids uuids u then entry (checklistOf database u) else None.
Proof.
  unfold batchLoadChecklists.
  destruct (length uuids =? 0)%nat eqn:E.
  { apply NoDup_nil_length in E. subst. now rewrite lookup_empty. }
  rewrite (collect_fold c_task
             (fun row => {| ci_uuid := c_uuid row; ci_title := c_title row;
                            ci_completed := (c_status row =? 3)%Z |})),
    lookup_empty.
  rewrite filter_orderBy.
  2:{ intros x y. destruct (Z.leb_spec (c_index x) (c_index y)); [now left|].
      right. apply Z.leb_le. lia. }
  2:{ intros x y z H1 H2. apply Z.leb_le in H1, H2. apply Z.leb_le. lia. }
  unfold checklistOf. rewrite filter_twice.
  destruct (inUuids uuids u) eqn:Hu.
  - f_equal. f_equal. f_equal. apply List.filter_ext. intros c.
    destruct (String.eqb_spec (c_task c) u) as [->|Hne];
      [now rewrite Hu | apply andb_false_r].
  - replace (List.filter _ (checklistItems database)) with (@nil TMChecklistItem);
      [reflexivity|].
    symmetry. induction (checklistItems database) as [|c l IH]; [reflexivity|].
    cbn. rewrite IH.
    destruct (String.eqb_spec (c_task c) u) as [->|Hne];
      [now rewrite Hu | now rewrite andb_false_r].
Qed.

End Batch.

Section BatchTheorems.

Import Db DbSpec BatchSpec QuerySpec.

Lemma default_entry {V} (l : list V) : default [] (entry l) = l.
Proof. destruct l; reflexivity. Qed.

Lemma tagsOf_sorted (database : Database) (task : string) :
  StronglySorted (fun a b => String.leb a b = true) (tagsOf database task).
Proof.
  unfold tagsOf.
  apply (StronglySorted_map
           (fun r1 r2 : string * string => String.leb r1.2 r2.2 = true)).
  { auto. }
  apply orderBy_sorted.
  - intros x y. apply String.leb_total.
  - intros x y z. apply string_leb_trans.
Qed.

(** X23: the maps of the batch loaders hold, for a task among the ids
    asked for, the titles of its tags in title order and its checklist in
    index order, no entry when it has none, and nothing for any other
    task: the entry of a task is the same in every batch that asks for
    it. *)
Theorem batchLoad_entries (database : Database) (uuids : list string) (u : string) :
  batchLoadTags database uuids !! u
  = (if inUuids uuids u then entry (tagsOf database u) else None)
  /\ batchLoadChecklists database uuids !! u
     = (if inUuids uuids u then entry (checklistOf database u) else None)
  /\ (u ∈ uuids ->
      batchLoadTags database uuids !! u = batchLoadTags database [u] !! u
      /\ batchLoadChecklists database uuids !! u
         = batchLoadChecklists database [u] !! u)
  /\ (u ∉ uuids ->
      batchLoadTags database uuids !! u = None
      /\ batchLoadChecklists database uuids !! u = None)
  /\ StronglySorted (fun a b => String.leb a b = true) (tagsOf database u).
Proof.
  split; [apply batchLoadTags_lookup|].
  split; [apply batchLoadChecklists_lookup|].
  split; [|split; [|apply tagsOf_sorted]].
  - intros Hu. rewrite !batchLoadTags_lookup, !batchLoadChecklists_lookup.
    rewrite (proj2 (inUuids_elem uuids u) Hu).
    rewrite (proj2 (inUuids_elem [u] u)) by now left. auto.
  - intros Hu. rewrite !batchLoadTags_lookup, !batchLoadChecklists_lookup.
    destruct (inUuids uuids u) eqn:E; [|auto].
    apply inUuids_elem in E. contradiction.
Qed.

Lemma batchLoad_entries_witness :
  batchLoadTags Samples.office ["proj-2"; "todo-today-1"] !! "todo-today-1"
  = batchLoadTags Samples.office ["todo-today-1"] !! "todo-today-1".
Proof.
  apply (proj1 (proj2 (proj2 (batchLoad_entries Samples.office
                                ["proj-2"; "todo-today-1"] "todo-today-1")))).
  by_evaluation.
Defined.

(** The to-dos [queryTodos] returns are the rows read, formatted with the
    maps of the batch loaders. *)
Lemma queryTodos_formatted (database : Database) (now : Z) (filters : TodoFilters)
    (todos : list Todo) :
  queryTodos database now filters = Js.Ok todos ->
  let rows := todoRows database now filters in
  Forall2 (fun r todo =>
             formatTodo r (batchLoadTags database (map r_uuid rows))
               (batchLoadChecklists database (map r_uuid rows)) = Js.Ok todo)
    rows todos.
Proof.
  unfold queryTodos. set (rows := todoRows database now filters).
  destruct (length (map r_uuid rows) =? 0)%nat eqn:Elen.
  - apply Nat.eqb_eq in Elen. rewrite length_map in Elen.
    apply nil_length_inv in Elen. rewrite Elen. intros [= <-]. constructor.
  - intros H. apply mapM_Ok in H. exact H.
Qed.

(** X24: a to-do comes with the titles of its tags in title order and
    with its checklist in index order, the same from [queryTodos] and from
    [queryTodoById]. *)
Theorem queries_attach_tags
    (database : Database) (now : Z) (filters : TodoFilters) (id : string) :
  (forall todos,
     queryTodos database now filters = Js.Ok todos ->
     Forall (fun todo =>
               todoTags todo = tagsOf database (uuid todo)
               /\ todoChecklistItems todo = checklistOf database (uuid todo))
       todos)
  /\ (forall todo,
        queryTodoById database id = Js.Ok (Some todo) ->
        todoTags todo = tagsOf database id
        /\ todoChecklistItems todo = checklistOf database id).
Proof.
  split.
  - intros todos H. apply queryTodos_formatted in H. cbv zeta in H.
    apply Forall_forall. intros todo Hin.
    apply list_elem_of_lookup in Hin as [i Hi].
    destruct (Forall2_lookup_r _ _ _ _ _ H Hi) as (r & Hr & Hf).
    apply formatTodo_Ok in Hf
      as (-> & _ & _ & _ & _ & _ & _ & _ & _ & _ & _ & -> & -> & _).
    rewrite batchLoadTags_lookup, batchLoadChecklists_lookup.
    rewrite (proj2 (inUuids_elem _ (r_uuid r))).
    + now rewrite !default_entry.
    + apply list_elem_of_lookup_2 in Hr. apply list_elem_of_In, in_map.
      now apply list_elem_of_In.
  - intros todo. unfold queryTodoById, get.
    match goal with
    | |- context [head ?l] => destruct (head l) as [row|] eqn:Hrow
    end; [|discriminate].
    apply head_Some_elem_of, list_elem_of_In, in_map_iff in Hrow
      as (j & <- & Hj).
    apply filter_In in Hj as [_ Hcond].
    apply andb_true_iff in Hcond as [Huuid _]. apply String.eqb_eq in Huuid.
    destruct (formatTodo _ _ _) as [t|] eqn:Hf; cbn; [|discriminate].
    intros [= <-].
    apply formatTodo_Ok in Hf
      as (_ & _ & _ & _ & _ & _ & _ & _ & _ & _ & _ & -> & -> & _).
    cbn [selectTodo r_uuid]. rewrite Huuid.
    rewrite batchLoadTags_lookup, batchLoadChecklists_lookup.
    rewrite (proj2 (inUuids_elem [id] id)) by now left.
    now rewrite !default_entry.
Qed.

Lemma queries_attach_tags_witness :
  exists todo,
    queryTodoById Samples.office "todo-today-1" = Js.Ok (Some todo)
    /\ todoTags todo = ["urgent"].
Proof.
  destruct (queryTodoById Samples.office "todo-today-1") as [[todo|]|e] eqn:Hq;
    [|vm_compute in Hq; discriminate Hq..].
  exists todo. split; [reflexivity|].
  rewrite (proj1 (proj2 (queries_attach_tags Samples.office 0
                           (listOnly ListToday None) "todo-today-1") todo Hq)).
  reflexivity.
Defined.

End BatchTheorems.

Section ProjectTheorems.

Import Db DbSpec BatchSpec QuerySpec ProjectSpec.






(** *** A project and its children *)

Lemma map_insertBy {A B} (f : A -> B) (le : B -> B -> bool) (x : A) (l : list A) :
  map f (Sql.insertBy (fun a b => le (f a) (f b)) x l)
  = Sql.insertBy le (f x) (map f l).
Proof.
  induction l as [|y l IH]; cbn; [reflexivity|].
  destruct (le (f x) (f y)); cbn; [reflexivity | now rewrite IH].
Qed.

Lemma map_orderBy {A B} (f : A -> B) (le : B -> B -> bool) (l : list A) :
  map f (Sql.orderBy (fun a b => le (f a) (f b)) l) = Sql.orderBy le (map f l).
Proof.
  induction l as [|x l IH]; [reflexivity|].
  change (Sql.orderBy ?le (x :: l)) with (Sql.insertBy le x (Sql.orderBy le l)).
  rewrite map_insertBy, IH. reflexivity.
Qed.

Lemma Forall2_weaken_in {A B} (R S : A -> B -> Prop) (l : list A) (k : list B) :
  Forall2 R l k -> (forall x y, x ∈ l -> R x y -> S x y) -> Forall2 S l k.
Proof.
  induction 1 as [|x y l k Hxy _ IH]; intros HRS; constructor.
  - apply HRS; [now left | exact Hxy].
  - apply IH. intros x' y' Hin. apply HRS. now right.
Qed.

(** With [uuid] a key, the joins of the to-dos of a project pair every
    task row with one area and one heading (or none). *)
Lemma projectJoin_tasks (database : Database) :
  keyed database ->
  map jt
    (t ← tasks database;
     a2 ← Sql.leftJoin (fun a => Sql.eq_text (t_area t) (Some (a_uuid a)))
            (areas database);
     h ← Sql.leftJoin
           (fun h => Sql.eq_text (t_heading t) (Some (t_uuid h)) && (t_type h =? 2)%Z)
           (tasks database);
     [ {| jt := t; jp := None; ja := a2; jh := h |} ])
  = tasks database.
Proof.
  intros [Htasks Hareas].
  match goal with
  | |- map jt (mbind ?f (tasks database)) = _ => set (F := f)
  end.
  assert (forall t, exists j, F t = [j] /\ jt j = t) as one.
  { intros t. subst F. cbn beta.
    destruct (leftJoin_one a_uuid
                (fun a => Sql.eq_text (t_area t) (Some (a_uuid a)))
                (default "" (t_area t)) (areas database) Hareas)
      as [a ->]; [intros x; apply eq_text_key|].
    cbn [mbind list_bind app].
    destruct (leftJoin_one t_uuid
                (fun h => Sql.eq_text (t_heading t) (Some (t_uuid h))
                          && (t_type h =? 2)%Z)
                (default "" (t_heading t)) (tasks database) Htasks)
      as [h ->].
    { intros x Hx. apply andb_true_iff in Hx as [Hx _]. now apply eq_text_key. }
    cbn. eexists. split; reflexivity. }
  generalize (tasks database). intros l.
  induction l as [|t l IH]; [reflexivity|].
  cbn [mbind list_bind]. destruct (one t) as (j & -> & Hj).
  cbn. now rewrite Hj, IH.
Qed.

(** The rows of the to-dos of a project, with [uuid] a key. *)
Lemma projectTodoRows_uuids (database : Database) (id : string) :
  keyed database ->
  map r_uuid (projectTodoRows database id)
  = map t_uuid (Sql.orderBy byIndex (List.filter (child id) (tasks database))).
Proof.
  intros Hkeyed. unfold projectTodoRows.
  rewrite map_map. cbn [r_uuid].
  rewrite <- (map_map jt t_uuid).
  rewrite (map_orderBy jt byIndex).
  rewrite <- (projectJoin_tasks database Hkeyed) at 2.
  rewrite filter_map. reflexivity.
Qed.

(** X27: with [uuid] a key of the task and area tables, the to-dos of a
    project [queryProjectById] returns are the to-do rows of the project
    that are not trashed, each once, in index order, and its headings the
    heading rows likewise; every to-do has the uuid asked for as project
    id, and its tags and checklist. *)
Theorem queryProjectById_children
    (database : Database) (id : string) (project : ProjectDetail) :
  keyed database ->
  queryProjectById database id = Js.Ok (Some project) ->
  map uuid (pd_todos project)
  = map t_uuid (Sql.orderBy byIndex (List.filter (child id) (tasks database)))
  /\ map h_uuid (pd_headings project)
     = map t_uuid (Sql.orderBy byIndex (List.filter (headline id) (tasks database)))
  /\ Forall (fun todo =>
               projectId todo = Some id
               /\ todoTags todo = tagsOf database (uuid todo)
               /\ todoChecklistItems todo = checklistOf database (uuid todo))
       (pd_todos project)
  /\ pd_tags project = tagsOf database id.
Proof.
  intros Hkeyed. unfold queryProjectById.
  destruct (get (projectRows database id)) as [row|] eqn:Hrow; [|discriminate].
  set (tagsMap := batchLoadTags database [id]).
  assert (default [] (tagsMap !! id) = tagsOf database id) as Htags.
  { subst tagsMap.
    rewrite batchLoadTags_lookup, (proj2 (inUuids_elem [id] id)) by now left.
    apply default_entry. }
  clearbody tagsMap.
  match goal with
  | |- context [mapM ?f ?l] => destruct (mapM f l) as [todos|e] eqn:Htodos
  end; cbn; [|discriminate].
  destruct (Dates.coreDataTimestampToISO (rp_creationDate row)); cbn; [|discriminate].
  destruct (optM Dates.coreDataTimestampToISO (rp_modificationDate row)); cbn; [|discriminate].
  destruct (optM Dates.coreDataTimestampToISO (rp_completionDate row)); cbn; [|discriminate].
  intros [= <-]. cbn [pd_todos pd_headings pd_tags].
  apply mapM_Ok in Htodos.
  assert (Forall2 (fun r todo =>
                     uuid todo = r_uuid r /\ projectId todo = r_projectId r
                     /\ todoTags todo = tagsOf database (r_uuid r)
                     /\ todoChecklistItems todo = checklistOf database (r_uuid r))
            (projectTodoRows database id) todos) as Hfields.
  { set (rows := projectTodoRows database id) in *.
    assert (forall r, r ∈ rows -> r_uuid r ∈ map r_uuid rows) as Hmem.
    { intros r Hr. apply list_elem_of_In, in_map. now apply list_elem_of_In. }
    assert (length rows = 0%nat -> todos = []) as Hnil.
    { intros E. apply nil_length_inv in E. rewrite E in Htodos.
      now apply Forall2_nil_inv_l in Htodos. }
    destruct (0 <? length (map r_uuid rows))%nat eqn:Epos.
    - eapply Forall2_weaken_in; [exact Htodos|]. cbn beta.
      intros r todo Hr Hf.
      destruct (formatTodo r _ _) as [t|] eqn:Ef; cbn in Hf; [|discriminate].
      injection Hf as <-. cbn.
      apply formatTodo_Ok in Ef
        as (Hu & _ & _ & _ & _ & _ & _ & _ & Hp & _ & _ & Ht & Hc & _).
      rewrite Hu, Hp, Ht, Hc, batchLoadTags_lookup, batchLoadChecklists_lookup.
      rewrite (proj2 (inUuids_elem _ _) (Hmem r Hr)).
      now rewrite !default_entry.
    - apply Nat.ltb_ge in Epos. rewrite length_map in Epos.
      rewrite (Hnil ltac:(lia)).
      assert (rows = []) as -> by (apply nil_length_inv; lia). constructor. }
  split; [|split; [|split]].
  - rewrite <- (projectTodoRows_uuids database id Hkeyed).
    clear Htodos. induction Hfields as [|r todo rows todos' (Hu & _) _ IH];
      [reflexivity|]. cbn. now rewrite Hu, IH.
  - unfold headingRows. rewrite map_map. reflexivity.
  - apply Forall_forall. intros todo Hin.
    apply list_elem_of_lookup in Hin as [i Hi].
    destruct (Forall2_lookup_r _ _ _ _ _ Hfields Hi) as (r & Hr & Hu & Hp & Ht & Hc).
    rewrite Hu, Hp, Ht, Hc. split; [|auto].
    apply list_elem_of_lookup_2 in Hr. unfold projectTodoRows in Hr.
    apply list_elem_of_In, in_map_iff in Hr as (j & <- & Hj). cbn.
    apply list_elem_of_In in Hj. rewrite orderBy_Permutation in Hj.
    apply list_elem_of_In, filter_In in Hj as [_ Hc'].
    apply andb_true_iff in Hc' as [Hc' _]. apply andb_true_iff in Hc' as [Hc' _].
    now apply eq_text_Some in Hc'.
  - exact Htags.
Qed.

Lemma queryProjectById_children_witness :
  exists project,
    queryProjectById Samples.office "proj-2" = Js.Ok (Some project)
    /\ map uuid (pd_todos project) = ["todo-today-1"]
    /\ map h_uuid (pd_headings project) = ["heading-1"].
Proof.
  destruct (queryProjectById Samples.office "proj-2") as [[project|]|e] eqn:Hq;
    [|vm_compute in Hq; discriminate Hq..].
  exists project. split; [reflexivity|].
  destruct (queryProjectById_children _ _ _ office_keyed Hq) as (-> & -> & _).
  split; reflexivity.
Defined.


(** *** What is not there *)

Lemma leftJoin_inhabited {B} (on : B -> bool) (right : list B) :
  exists b, b ∈ Sql.leftJoin on right.
Proof.
  unfold Sql.leftJoin. destruct (List.filter on right) as [|x l].
  - exists None. now left.
  - exists (Some x). now left.
Qed.

(** Every task row shows in the join. *)
Lemma todoJoin_covers (database : Database) (t : TMTask) :
  t ∈ tasks database -> exists j, j ∈ todoJoin database /\ jt j = t.
Proof.
  intros Ht. unfold todoJoin.
  destruct (leftJoin_inhabited
              (fun p => Sql.eq_text (t_project t) (Some (t_uuid p)))
              (tasks database)) as [p Hp].
  destruct (leftJoin_inhabited
              (fun a => Sql.eq_text (Sql.coalesce (t_area t) (p ≫= t_area))
                          (Some (a_uuid a)))
              (areas database)) as [a Ha].
  destruct (leftJoin_inhabited
              (fun h => Sql.eq_text (t_heading t) (Some (t_uuid h))
                        && (t_type h =? 2)%Z)
              (tasks database)) as [h Hh].
  exists {| jt := t; jp := p; ja := a; jh := h |}. split; [|reflexivity].
  apply list_elem_of_bind. exists t. split; [|exact Ht].
  apply list_elem_of_bind. exists p. split; [|exact Hp].
  apply list_elem_of_bind. exists a. split; [|exact Ha].
  apply list_elem_of_bind. exists h. split; [|exact Hh].
  now left.
Qed.

Lemma head_None_nil {A} (l : list A) : head l = None <-> l = [].
Proof. destruct l; cbn; split; congruence. Qed.

(** [queryTodoById] finds nothing exactly when there is no to-do row of
    the uuid. *)
Lemma queryTodoById_None (database : Database) (id : string) :
  queryTodoById database id = Js.Ok None
  <-> ~ exists t, t ∈ tasks database /\ t_uuid t = id /\ t_type t = 0%Z.
Proof.
  unfold queryTodoById, get.
  match goal with
  | |- context [head ?l] => destruct (head l) as [row|] eqn:Hrow
  end.
  - split.
    + destruct (formatTodo _ _ _); cbn; discriminate.
    + intros Hno. exfalso. apply Hno.
      apply head_Some_elem_of, list_elem_of_In, in_map_iff in Hrow
        as (j & _ & Hj).
      apply filter_In in Hj as [Hj Hcond].
      apply andb_true_iff in Hcond as [Hu Ht].
      exists (jt j). split; [apply todoJoin_task, list_elem_of_In, Hj|].
      split; [now apply String.eqb_eq | now apply Z.eqb_eq].
  - split; [|reflexivity]. intros _ (t & Ht & Hu & Htype).
    apply head_None_nil in Hrow. apply map_eq_nil in Hrow.
    destruct (todoJoin_covers database t Ht) as (j & Hj & <-).
    assert (In j (List.filter
                    (fun j => String.eqb (t_uuid (jt j)) id && (t_type (jt j) =? 0)%Z)
                    (todoJoin database))) as Hin.
    { apply filter_In. split; [now apply list_elem_of_In|].
      now rewrite Hu, Htype, String.eqb_refl. }
    rewrite Hrow in Hin. exact Hin.
Qed.

(** [queryProjectById] finds nothing exactly when there is no project
    row of the uuid. *)
Lemma queryProjectById_None (database : Database) (id : string) :
  queryProjectById database id = Js.Ok None
  <-> ~ exists t, t ∈ tasks database /\ t_uuid t = id /\ t_type t = 1%Z.
Proof.
  unfold queryProjectById.
  destruct (get (projectRows database id)) as [row|] eqn:Hrow.
  - split.
    + match goal with
      | |- context [mapM ?f ?l] => destruct (mapM f l)
      end; cbn; [|discriminate].
      destruct (Dates.coreDataTimestampToISO (rp_creationDate row)); cbn; [|discriminate].
      destruct (optM Dates.coreDataTimestampToISO (rp_modificationDate row)); cbn; [|discriminate].
      destruct (optM Dates.coreDataTimestampToISO (rp_completionDate row)); cbn; discriminate.
    + intros Hno. exfalso. apply Hno.
      unfold get, projectRows in Hrow. apply head_Some_elem_of in Hrow.
      apply list_elem_of_bind in Hrow as (t & _ & Ht).
      apply list_elem_of_In, filter_In in Ht as [Ht Hcond].
      apply andb_true_iff in Hcond as [Hu Htype].
      exists t. split; [now apply list_elem_of_In|].
      split; [now apply String.eqb_eq | now apply Z.eqb_eq].
  - split; [|reflexivity]. intros _ (t & Ht & Hu & Htype).
    unfold get in Hrow. apply head_None_nil in Hrow. unfold projectRows in Hrow.
    destruct (leftJoin_inhabited
                (fun a => Sql.eq_text (t_area t) (Some (a_uuid a)))
                (areas database)) as [a Ha].
    match type of Hrow with
    | ?l = [] => assert (exists r, r ∈ l) as [r Hr]
    end.
    { eexists. apply list_elem_of_bind. exists t. split.
      - apply list_elem_of_bind. exists a. split; [now left | exact Ha].
      - apply list_elem_of_In, filter_In. split; [now apply list_elem_of_In|].
        now rewrite Hu, Htype, String.eqb_refl. }
    rewrite Hrow in Hr. now apply elem_of_nil in Hr.
Qed.

(** X28: [get-todo] answers [No to-do found with ID: ] and the id
    exactly when the store has no to-do row of that id, so also for the
    id of a project or a heading; [get-project] does the same with
    project rows. *)
Theorem read_tools_not_found
    (database : Database) (id : string) (w : Host.World) (st : Host.State) :
  Host.getDb w = Js.Ok database ->
  (Tools.getTodo id w st
   = (st, Js.Ok (Tools.ReadError ("No to-do found with ID: " +:+ id)))
   <-> ~ exists t, t ∈ tasks database /\ t_uuid t = id /\ t_type t = 0%Z)
  /\ (Tools.getProject id w st
      = (st, Js.Ok (Tools.ReadError ("No project found with ID: " +:+ id)))
      <-> ~ exists t, t ∈ tasks database /\ t_uuid t = id /\ t_type t = 1%Z).
Proof.
  intros Hdb. split.
  - rewrite <- queryTodoById_None.
    unfold Tools.getTodo, Tools.readTool, mbind at 1, Host.M_bind. rewrite Hdb.
    cbn [mbind Js.result_bind].
    destruct (queryTodoById database id) as [[todo|]|e]; cbn.
    + split; discriminate.
    + split; reflexivity.
    + split; [intros H; cbn in H; discriminate H | discriminate].
  - rewrite <- queryProjectById_None.
    unfold Tools.getProject, Tools.readTool, mbind at 1, Host.M_bind. rewrite Hdb.
    cbn [mbind Js.result_bind].
    destruct (queryProjectById database id) as [[project|]|e]; cbn.
    + split; discriminate.
    + split; reflexivity.
    + split; [intros H; cbn in H; discriminate H | discriminate].
Qed.

Lemma read_tools_not_found_witness :
  Tools.getTodo "proj-2" Samples.bare Samples.fresh
  = (Samples.fresh, Js.Ok (Tools.ReadError "No to-do found with ID: proj-2")).
Proof.
  apply (proj1 (read_tools_not_found Samples.office "proj-2" Samples.bare
                  Samples.fresh eq_refl)).
  intros (t & Ht & Hu & Htype). vm_compute in Ht.
  repeat (apply elem_of_cons in Ht as [->|Ht]; [discriminate|]).
  now apply elem_of_nil in Ht.
Defined.

(** *** Areas and tags *)

Lemma StronglySorted_weaken {A} (R S : A -> A -> Prop) (l : list A) :
  (forall x y, R x y -> S x y) -> StronglySorted R l -> StronglySorted S l.
Proof.
  intros HRS. induction 1 as [|x l Hl IH Hx]; constructor; [exact IH|].
  eapply Forall_impl; [exact Hx | auto].
Qed.

(** X29: [queryAreas] returns every area once, in index order, visible
    exactly when the column is 1; [queryTags] returns every tag once, in
    the byte order of the titles, each with the shortcut and the parent of
    its row. *)
Theorem queryAreas_queryTags_all (database : Database) :
  (exists rows,
     Permutation rows (areas database)
     /\ StronglySorted (fun r1 r2 => (a_index r1 <= a_index r2)%Z) rows
     /\ queryAreas database
        = map (fun r => {| area_uuid := a_uuid r; area_title := a_title r;
                           area_visible := bool_decide (a_visible r = 1%Z) |})
            rows)
  /\ Permutation (map tag_uuid (queryTags database)) (map g_uuid (tags database))
  /\ StronglySorted (fun t1 t2 => String.leb (tag_title t1) (tag_title t2) = true)
       (queryTags database)
  /\ Forall (fun tag =>
               exists row, row ∈ tags database /\ tag_uuid tag = g_uuid row
                           /\ tag_title tag = g_title row
                           /\ tag_shortcut tag = g_shortcut row
                           /\ tag_parentTag tag = g_parent row)
       (queryTags database).
Proof.
  split; [|split; [|split]].
  - exists (Sql.orderBy (fun r1 r2 => (a_index r1 <=? a_index r2)%Z) (areas database)).
    split; [apply orderBy_Permutation|]. split.
    + eapply StronglySorted_weaken; [|apply orderBy_sorted].
      * intros x y H. now apply Z.leb_le.
      * intros x y. destruct (Z.leb_spec (a_index x) (a_index y)); [now left|].
        right. apply Z.leb_le. lia.
      * intros x y z H1 H2. apply Z.leb_le in H1, H2. apply Z.leb_le. lia.
    + unfold queryAreas. apply map_ext. intros r. f_equal.
      destruct (Z.eqb_spec (a_visible r) 1) as [E|E].
      * now rewrite bool_decide_eq_true_2.
      * now rewrite bool_decide_eq_false_2.
  - unfold queryTags. rewrite map_map. cbn [tag_uuid].
    now rewrite orderBy_Permutation.
  - unfold queryTags.
    apply (StronglySorted_map
             (fun r1 r2 => String.leb (g_title r1) (g_title r2) = true)).
    { auto. }
    apply orderBy_sorted.
    + intros x y. apply String.leb_total.
    + intros x y z. apply string_leb_trans.
  - unfold queryTags. apply List.Forall_map, Forall_forall. intros row Hrow.
    rewrite orderBy_Permutation in Hrow. exists row. cbn. auto.
Qed.

End ProjectTheorems.

Section AdapterTheorems.

Import SqliteAdapter AdapterSpec.

Context {V : Type}.

Lemma binding_prefixed (key : string) : Js.startsWith "$" (binding key) = true.
Proof. unfold binding. destruct (Js.startsWith "$" key) eqn:E; [exact E | reflexivity]. Qed.

Lemma binding_fixed (key : string) :
  Js.startsWith "$" key = true -> binding key = key.
Proof. unfold binding. now intros ->. Qed.

(** The loop of [normalizeParams]. *)
Lemma normalize_lookup (entries : list (string * V)) (m : gmap string V)
    (name : string) (value : V) :
  fold_left (fun normalized '(key, value) => <[binding key := value]> normalized)
    entries m !! name = Some value ->
  m !! name = Some value
  \/ exists key, (key, value) ∈ entries /\ name = binding key.
Proof.
  revert m. induction entries as [|[k v] entries IH]; intros m; cbn.
  - now left.
  - intros H. apply IH in H as [H|(key & Hin & ->)].
    + destruct (decide (name = binding k)) as [->|Hne].
      * rewrite lookup_insert_eq in H. injection H as <-.
        right. exists k. split; [now left | reflexivity].
      * rewrite lookup_insert_ne in H by congruence. now left.
    + right. exists key. split; [now right | reflexivity].
Qed.

Lemma normalize_bound (entries : list (string * V)) (m : gmap string V)
    (key : string) (value : V) :
  NoDup (map (fun entry => binding entry.1) entries) ->
  (key, value) ∈ entries ->
  fold_left (fun normalized '(key, value) => <[binding key := value]> normalized)
    entries m !! binding key = Some value.
Proof.
  revert m. induction entries as [|[k v] entries IH]; intros m Hnodup Hin.
  - now apply elem_of_nil in Hin.
  - cbn in Hnodup. apply NoDup_cons in Hnodup as [Hk Hnodup].
    apply elem_of_cons in Hin as [[= -> ->]|Hin]; cbn.
    + clear IH. revert m. induction entries as [|[k' v'] entries IH]; intros m; cbn.
      * apply lookup_insert_eq.
      * cbn in Hk, Hnodup. apply not_elem_of_cons in Hk as [Hne Hk].
        apply NoDup_cons in Hnodup as [_ Hnodup].
        rewrite insert_insert_ne by congruence. now apply IH.
    + now apply IH.
Qed.

Lemma fold_left_insert_rev (entries : list (string * V)) (m : gmap string V) :
  fold_left (fun normalized '(key, value) => <[key := value]> normalized) entries m
  = foldr (fun '(key, value) normalized => <[key := value]> normalized) m (rev entries).
Proof.
  revert m. induction entries as [|[k v] entries IH]; intros m; cbn; [reflexivity|].
  rewrite IH, foldr_app. reflexivity.
Qed.

Lemma fold_left_ext_in {A B} (f g : B -> A -> B) (l : list A) (b : B) :
  (forall b x, x ∈ l -> f b x = g b x) -> fold_left f l b = fold_left g l b.
Proof.
  revert b. induction l as [|x l IH]; intros b H; cbn; [reflexivity|].
  rewrite H by now left. apply IH. intros b' y Hy. apply H. now right.
Qed.

Lemma normalizeParams_Named (entries : list (string * V)) :
  normalizeParams (Named entries) = BindObject (normalizedBy entries).
Proof. reflexivity. Qed.

(** X30: the names [normalizeParams] binds all start with [$], and each
    is a key of the object, prefixed unless it had the prefix; when no two
    keys come to the same name, every key is bound to its value;
    normalizing what was normalized changes nothing; an array passes
    through. *)
Theorem normalizeParams_bindings (entries : list (string * V))
    (normalized : gmap string V) :
  normalizeParams (Named entries) = BindObject normalized ->
  (forall name value,
     normalized !! name = Some value ->
     Js.startsWith "$" name = true
     /\ exists key, (key, value) ∈ entries /\ name = binding key)
  /\ (NoDup (map (fun entry => binding entry.1) entries) ->
      forall key value,
        (key, value) ∈ entries -> normalized !! binding key = Some value)
  /\ (forall again,
        Permutation again (map_to_list normalized) ->
        normalizeParams (Named again) = BindObject normalized)
  /\ forall values : list V, normalizeParams (Positional values) = BindArray values.
Proof.
  rewrite normalizeParams_Named. intros [= <-].
  assert (forall name value,
            normalizedBy entries !! name = Some value ->
            Js.startsWith "$" name = true
            /\ exists key, (key, value) ∈ entries /\ name = binding key) as Hkeys.
  { intros name value H. apply normalize_lookup in H as [H|(key & Hin & ->)].
    - now rewrite lookup_empty in H.
    - split; [apply binding_prefixed | eauto]. }
  split; [exact Hkeys|]. split; [|split; [|reflexivity]].
  - intros Hnodup key value Hin. now apply normalize_bound.
  - set (m := normalizedBy entries) in *. intros again Hperm.
    rewrite normalizeParams_Named. f_equal. unfold normalizedBy.
    rewrite (fold_left_ext_in _ (fun normalized '(key, value) => <[key := value]> normalized)).
    2:{ intros b [key value] Hin. rewrite Hperm in Hin.
        apply elem_of_map_to_list in Hin. apply Hkeys in Hin as [Hin _].
        now rewrite (binding_fixed _ Hin). }
    rewrite fold_left_insert_rev.
    transitivity (list_to_map (rev again) : gmap string V).
    { induction (rev again) as [|[k v] l IH]; [reflexivity|]. cbn. now rewrite IH. }
    etransitivity; [|apply (list_to_map_to_list m)].
    apply list_to_map_proper.
    + rewrite <- (Permutation_rev again), Hperm. apply NoDup_fst_map_to_list.
    + now rewrite <- (Permutation_rev again).
Qed.

End AdapterTheorems.

Lemma normalizeParams_bindings_witness :
  SqliteAdapter.normalizeParams
    (SqliteAdapter.Named [("uuid", "abc"); ("$limit", "50")])
  = SqliteAdapter.BindObject {[ "$uuid" := "abc"; "$limit" := "50" ]}
  /\ ({[ "$uuid" := "abc"; "$limit" := "50" ]} : gmap string string) !! "$uuid"
     = Some "abc".
Proof.
  assert (SqliteAdapter.normalizeParams
            (SqliteAdapter.Named [("uuid", "abc"); ("$limit", "50")])
          = SqliteAdapter.BindObject
              ({[ "$uuid" := "abc"; "$limit" := "50" ]} : gmap string string)) as H.
  { vm_compute. reflexivity. }
  split; [exact H|].
  exact (proj1 (proj2 (normalizeParams_bindings _ _ H)) ltac:(by_evaluation)
           "uuid" "abc" ltac:(left)).
Defined.
